(** * vmTUI checkpoint subsystem: a shallow embedding of
    [vm_manager/services/libvirt_service.py] (checkpoint operations), of the
    handlers and the key loop of [vm_manager/ui/widgets/checkpoint_dialog.py],
    of [ConfirmDialog] and [InputDialog] of [vm_manager/ui/widgets/dialog.py]
    and of the wiring of the dialog in [vm_manager/ui/app.py].

    The Python methods mutate two stores: the local filesystem (through
    [pathlib], [shutil] and [open]) and the libvirt domain definitions
    (through [lookupByName], [XMLDesc] and [defineXML]).  Both are modelled as
    finite maps carried by a state-and-exception monad in which the state
    survives a raised exception, as side effects do in Python.

    Modelling conventions.
    - A [Path] is the list of its components, compared component by
      component as [pathlib] does; [p / s] appends one component, so
      checkpoint and VM names are single path components.
    - A regular file holds either bytes that [json.load] rejects with
      [JSONDecodeError], or the JSON object of string fields that
      [json.dump] wrote.
    - Outcomes the environment decides (a copy or a write that fails, what
      [defineXML] answers, the wall clock) are inputs of every operation,
      gathered in the record [env].
    - A dialog reads the keys the terminal delivers, a finite list; when the
      list runs out the dialog is still open.  What the user answers in a
      dialog opened by a handler is an input of that handler.  A character
      is one of the 256 values of [ascii], read as Latin-1; drawing is left
      out. *)

From Stdlib Require Import Ascii.
From stdpp Require Import gmap strings list fin_maps sorting.

(** ** Strings *)

(** [fnmatch(name, "*" + suf)]: the name ends with [suf]. *)
Fixpoint ends_with (suf s : string) : bool :=
  match s with
  | EmptyString => String.eqb suf EmptyString
  | String _ s' => String.eqb s suf || ends_with suf s'
  end.

(** [str.rfind(".")] counted from the end: the number of characters after the
    last dot, [None] when there is no dot. *)
Fixpoint after_last_dot (s : string) : option nat :=
  match s with
  | EmptyString => None
  | String c s' =>
      match after_last_dot s' with
      | Some k => Some k
      | None => if Ascii.eqb c "."%char then Some (String.length s') else None
      end
  end.

(** ** pathlib *)

Module Pathlib.

Abbreviation Path := (list string).

(** [p / s] for a single component [s]. *)
Definition joinpath (p : Path) (s : string) : Path := p ++ [s].

(** [Path.parent]: the anchor is its own parent. *)
Definition parent (p : Path) : Path :=
  match p with
  | [r] => if String.eqb r "/" then p else removelast p
  | _ => removelast p
  end.

(** [Path.name]: the last component, empty when there is none. *)
Definition name (p : Path) : string := List.last p EmptyString.

(** [Path.stem]: the name without its last suffix; a leading or a trailing
    dot starts no suffix. *)
Definition stem (p : Path) : string :=
  let n := name p in
  match after_last_dot n with
  | Some k =>
      let i := String.length n - 1 - k in
      if (0 <? i) && (0 <? k) then String.substring 0 i n else n
  | None => n
  end.

(** The component [s] such that [p = d / s], if [p] is a direct child of
    directory [d]. *)
Fixpoint child_of (d p : Path) : option string :=
  match d, p with
  | [], [s] => Some s
  | x :: d', y :: p' => if String.eqb x y then child_of d' p' else None
  | _, _ => None
  end.

End Pathlib.
Import Pathlib.

Notation "p // s" := (joinpath p s) (at level 40, left associativity).

(** [config.py]: [VM_DIR / "disks"]. *)
Definition VM_DIR : Path := ["/"; "var"; "lib"; "libvirt"; "images"; "vms"].
Definition DISK_DIR : Path := VM_DIR // "disks".

(** ** The filesystem *)

Inductive content :=
  | Bytes (data : list Byte.byte)
  | JsonObject (obj : gmap string string).

Inductive node :=
  | File (c : content)
  | Dir.

(** ** libvirt domains *)

(** [<source file="..."/>]; the attribute may be absent. *)
Record source_elem := { src_file : option Path }.

(** [<disk device="..."> <source .../> </disk>] *)
Record disk_elem := { disk_device : string; disk_source : option source_elem }.

(** The parts of a domain document the checkpoint code reads or edits. *)
Record domain_xml := {
  xml_name : option string;
  xml_uuid : option string;
  xml_disks : list disk_elem
}.

(** A defined domain: its persistent (next boot) definition and, while it
    runs, the live one. *)
Record domain := {
  dom_uuid : string;
  dom_persistent : list disk_elem;
  dom_live : option (list disk_elem)
}.

Record world := {
  fs : gmap Path node;
  domains : gmap string domain
}.

Definition set_fs (f : gmap Path node → gmap Path node) (w : world) : world :=
  {| fs := f (fs w); domains := domains w |}.

Definition set_domains (f : gmap string domain → gmap string domain) (w : world) : world :=
  {| fs := fs w; domains := f (domains w) |}.

(** ** What the environment decides *)

Record datetime := {
  year : nat; month : nat; day : nat;
  hour : nat; minute : nat; second : nat; microsecond : nat
}.

(** A write-like call either completes, or raises [OSError] leaving the
    destination untouched ([None]) or truncated to some bytes. *)
Inductive io_outcome :=
  | Done
  | Fails (partial : option (list Byte.byte)).

(** [defineXML] stores the definition, raises [libvirtError], or hands back
    [None] (the case the source tests for). *)
Inductive define_outcome :=
  | DefineOk
  | DefineRaises
  | DefineNone.

Record env := {
  clock_name : datetime;      (* first [datetime.now()] of a call *)
  clock_created : datetime;   (* second [datetime.now()] of a call *)
  io_mkdir : bool;            (* creating a directory fails *)
  io_copy : io_outcome;       (* [shutil.copy2] *)
  io_write : io_outcome;      (* [open(..., "w")] and [json.dump] *)
  io_unlink_disk : bool;      (* removing the disk file fails *)
  io_unlink_meta : bool;      (* removing the metadata file fails *)
  io_rename : bool;           (* moving the disk fails *)
  io_rename_back : bool;      (* moving the disk back fails *)
  virt_define : define_outcome;
  fresh_uuid : string         (* the uuid libvirt generates when none is given *)
}.

(** ** The monad *)

Inductive exn := LibvirtError | OSError.

Inductive outcome (A : Type) :=
  | Val (a : A)
  | Exc (e : exn).
Arguments Val {A} a.
Arguments Exc {A} e.

Definition M (A : Type) : Type := world → world * outcome A.

Definition ret {A} (a : A) : M A := fun w => (w, Val a).

Definition raise {A} (e : exn) : M A := fun w => (w, Exc e).

Definition bind {A B} (m : M A) (k : A → M B) : M B :=
  fun w =>
    match m w with
    | (w', Val a) => k a w'
    | (w', Exc e) => (w', Exc e)
    end.

(** [try: body except (...): handler] for the exceptions [caught] selects. *)
Definition try_except {A} (body : M A) (caught : exn → bool) (handler : M A) : M A :=
  fun w =>
    match body w with
    | (w', Val a) => (w', Val a)
    | (w', Exc e) => if caught e then handler w' else (w', Exc e)
    end.

Definition get_world : M world := fun w => (w, Val w).

Notation "x <- m ;; k" := (bind m (fun x => k))
  (at level 100, m at next level, right associativity).
Notation "'exec' m ;; k" := (bind m (fun _ => k))
  (at level 100, m at next level, right associativity).

(** ** Primitives: pathlib, shutil and open on the filesystem *)

(** [Path.exists()]; the empty path, [Path("")], is the current directory,
    which exists. *)
Definition is_cwd (p : Path) : bool :=
  match p with
  | [] => true
  | _ :: _ => false
  end.

Definition path_exists (p : Path) : M bool :=
  if is_cwd p then ret true
  else fun w => (w, Val (bool_decide (is_Some (fs w !! p)))).

(** [Path.mkdir(parents=True, exist_ok=True)] on the path [rev rp]: an existing
    directory is accepted, a file in the way raises; a missing directory is
    created, after its missing ancestors, unless the environment refuses.  The
    empty path is the current directory. *)
Fixpoint mkdir_rev (fails : bool) (rp : list string) : M unit :=
  fun w =>
    match rp with
    | [] => (w, Val tt)
    | _ :: rp' =>
        let p := rev rp in
        let create (w1 : world) : world * outcome unit :=
          if fails then (w1, Exc OSError)
          else (set_fs (insert p Dir) w1, Val tt) in
        match fs w !! p with
        | Some Dir => (w, Val tt)
        | Some (File _) => (w, Exc OSError)
        | None =>
            match fs w !! rev rp' with
            | Some Dir => create w
            | Some (File _) => (w, Exc OSError)
            | None =>
                match mkdir_rev fails rp' w with
                | (w1, Val _) => create w1
                | (w1, Exc e) => (w1, Exc e)
                end
            end
        end
    end.

Definition mkdir (fails : bool) (p : Path) : M unit := mkdir_rev fails (rev p).

(** What a failed write leaves at its destination. *)
Definition leave (partial : option (list Byte.byte)) (dst : Path) (w : world) : world :=
  match partial with
  | None => w
  | Some data => set_fs (insert dst (File (Bytes data))) w
  end.

(** Writing content [c] to the path [dst] (open for writing, then write): the
    path must not be a directory and its parent must be one. *)
Definition write_file (out : io_outcome) (dst : Path) (c : content) : M unit :=
  fun w =>
    match fs w !! dst with
    | Some Dir => (w, Exc OSError)
    | _ =>
        match fs w !! parent dst with
        | Some Dir =>
            match out with
            | Done => (set_fs (insert dst (File c)) w, Val tt)
            | Fails partial => (leave partial dst w, Exc OSError)
            end
        | _ => (w, Exc OSError)
        end
    end.

(** Where [shutil.copy2(src, dst)] writes: a directory as destination receives
    the file under the source's name. *)
Definition copy2_target (w : world) (src dst : Path) : Path :=
  match fs w !! dst with
  | Some Dir => dst // name src
  | _ => dst
  end.

(** [shutil.copy2(src, dst)]; copying a file onto itself raises. *)
Definition copy2 (out : io_outcome) (src dst : Path) : M unit :=
  fun w =>
    let dst' := copy2_target w src dst in
    match fs w !! src with
    | Some (File c) =>
        if bool_decide (src = dst') then (w, Exc OSError)
        else write_file out dst' c w
    | _ => (w, Exc OSError)
    end.

(** [with open(path, "w") as f: json.dump(metadata, f, indent=2)] *)
Definition write_json (out : io_outcome) (path : Path) (metadata : gmap string string) : M unit :=
  write_file out path (JsonObject metadata).

(** [Path.unlink()] *)
Definition unlink (fails : bool) (p : Path) : M unit :=
  fun w =>
    match fs w !! p with
    | Some (File _) =>
        if fails then (w, Exc OSError)
        else (set_fs (delete p) w, Val tt)
    | _ => (w, Exc OSError)
    end.

(** [q] with its prefix [d] removed. *)
Fixpoint strip_prefix (d q : Path) : option Path :=
  match d, q with
  | [], _ => Some q
  | x :: d', y :: q' => if String.eqb x y then strip_prefix d' q' else None
  | _ :: _, [] => None
  end.

Definition rebase (src dst q : Path) : Path :=
  match strip_prefix src q with
  | Some rest => dst ++ rest
  | None => q
  end.

Definition has_entries (f : gmap Path node) (d : Path) : bool :=
  bool_decide (Exists (fun q => is_Some (child_of d q)) (map_to_list f).*1).

Definition move_tree (src dst : Path) (f : gmap Path node) : gmap Path node :=
  kmap (M2 := gmap Path) (rebase src dst) f.

(** [Path.rename(dst)] (POSIX [rename]): a file replaces a file, a directory
    moves with what is below it and replaces only an empty directory. *)
Definition rename (fails : bool) (src dst : Path) : M unit :=
  fun w =>
    match fs w !! src, fs w !! parent dst with
    | Some (File c), Some Dir =>
        match fs w !! dst with
        | Some Dir => (w, Exc OSError)
        | _ =>
            if fails then (w, Exc OSError)
            else (set_fs (fun f => <[dst := File c]> (delete src f)) w, Val tt)
        end
    | Some Dir, Some Dir =>
        let blocked :=
          match fs w !! dst with
          | Some (File _) => true
          | Some Dir => has_entries (fs w) dst
          | None => false
          end in
        if fails || blocked || bool_decide (is_Some (strip_prefix src dst))
        then (w, Exc OSError)
        else (set_fs (move_tree src dst) w, Val tt)
    | _, _ => (w, Exc OSError)
    end.

(** ** Primitives: libvirt and ElementTree *)

Inductive xml_flags := XML_DEFAULT | VIR_DOMAIN_XML_INACTIVE.

(** [conn.lookupByName(name)]: a handle on the domain, [libvirtError] when
    there is none of that name. *)
Definition lookupByName (vm_name : string) : M string :=
  fun w =>
    match domains w !! vm_name with
    | Some _ => (w, Val vm_name)
    | None => (w, Exc LibvirtError)
    end.

(** [domain.XMLDesc(flags)]: without flags the document of the running
    instance when the domain runs, the persistent one otherwise; with
    [VIR_DOMAIN_XML_INACTIVE] always the persistent one. *)
Definition described_disks (flags : xml_flags) (d : domain) : list disk_elem :=
  match flags with
  | VIR_DOMAIN_XML_INACTIVE => dom_persistent d
  | XML_DEFAULT =>
      match dom_live d with
      | Some l => l
      | None => dom_persistent d
      end
  end.

Definition XMLDesc (dom : string) (flags : xml_flags) : M domain_xml :=
  fun w =>
    match domains w !! dom with
    | None => (w, Exc LibvirtError)
    | Some d =>
        (w, Val {| xml_name := Some dom;
                   xml_uuid := Some (dom_uuid d);
                   xml_disks := described_disks flags d |})
    end.

(** [xml.find(".//disk[@device='disk']/source")]: the source of the first
    disk of device type disk that has one. *)
Fixpoint find_disk_source (ds : list disk_elem) : option source_elem :=
  match ds with
  | [] => None
  | d :: ds' =>
      if String.eqb (disk_device d) "disk" then
        match disk_source d with
        | Some s => Some s
        | None => find_disk_source ds'
        end
      else find_disk_source ds'
  end.

(** [disk_elem.set("file", str(p))] on the element [find_disk_source] finds. *)
Fixpoint set_disk_source_file (p : Path) (ds : list disk_elem) : list disk_elem :=
  match ds with
  | [] => []
  | d :: ds' =>
      if String.eqb (disk_device d) "disk" then
        match disk_source d with
        | Some _ =>
            {| disk_device := disk_device d;
               disk_source := Some {| src_file := Some p |} |} :: ds'
        | None => d :: set_disk_source_file p ds'
        end
      else d :: set_disk_source_file p ds'
  end.

(** [conn.defineXML(xml)]: stores the document as the persistent definition
    of the domain it names; a running instance keeps its live definition. *)
Definition defineXML (out : define_outcome) (fresh : string) (x : domain_xml)
    : M (option string) :=
  fun w =>
    match out, xml_name x with
    | DefineOk, Some n =>
        let d := {| dom_uuid := default fresh (xml_uuid x);
                    dom_persistent := xml_disks x;
                    dom_live := domains w !! n ≫= dom_live |} in
        (set_domains (insert n d) w, Val (Some n))
    | DefineNone, _ => (w, Val None)
    | _, _ => (w, Exc LibvirtError)
    end.

(** ** datetime *)

Definition digit (n : nat) : ascii := ascii_of_nat (48 + n mod 10).

(** [n] in decimal on exactly [width] digits (the fields of a [datetime] fit
    their widths). *)
Fixpoint zpad (width n : nat) : string :=
  match width with
  | 0 => EmptyString
  | S k => zpad k (n / 10) +:+ String (digit n) EmptyString
  end.

(** [dt.strftime("%Y%m%d-%H%M%S")] *)
Definition strftime_compact (dt : datetime) : string :=
  zpad 4 (year dt) +:+ zpad 2 (month dt) +:+ zpad 2 (day dt) +:+ "-" +:+
  zpad 2 (hour dt) +:+ zpad 2 (minute dt) +:+ zpad 2 (second dt).

(** [dt.strftime("%Y-%m-%d %H:%M:%S")] *)
Definition strftime_display (dt : datetime) : string :=
  zpad 4 (year dt) +:+ "-" +:+ zpad 2 (month dt) +:+ "-" +:+ zpad 2 (day dt) +:+ " " +:+
  zpad 2 (hour dt) +:+ ":" +:+ zpad 2 (minute dt) +:+ ":" +:+ zpad 2 (second dt).

(** [dt.isoformat()] *)
Definition isoformat (dt : datetime) : string :=
  zpad 4 (year dt) +:+ "-" +:+ zpad 2 (month dt) +:+ "-" +:+ zpad 2 (day dt) +:+ "T" +:+
  zpad 2 (hour dt) +:+ ":" +:+ zpad 2 (minute dt) +:+ ":" +:+ zpad 2 (second dt) +:+
  (if microsecond dt =? 0 then EmptyString else "." +:+ zpad 6 (microsecond dt)).

(** [str(path)] *)
Fixpoint join_parts (p : Path) : string :=
  match p with
  | [] => EmptyString
  | [s] => s
  | s :: p' => s +:+ "/" +:+ join_parts p'
  end.

Definition path_str (p : Path) : string :=
  match p with
  | [] => "."
  | r :: rest => if String.eqb r "/" then "/" +:+ join_parts rest else join_parts p
  end.

(** ** LibvirtService: checkpoint operations *)

Definition checkpoint_dir_of (vm_name : string) : Path :=
  DISK_DIR // "checkpoints" // vm_name.

Arguments joinpath : simpl never.
Arguments parent : simpl never.
Arguments checkpoint_dir_of : simpl never.

Definition disk_file (checkpoint_name : string) : string := checkpoint_name +:+ ".qcow2".
Definition metadata_name (checkpoint_name : string) : string := checkpoint_name +:+ ".json".

(** [except (libvirt.libvirtError, OSError, IOError)] *)
Definition libvirt_or_os (e : exn) : bool := true.

(** [except (OSError, IOError)] *)
Definition os_only (e : exn) : bool :=
  match e with OSError => true | LibvirtError => false end.

(** [except libvirt.libvirtError] *)
Definition libvirt_only (e : exn) : bool :=
  match e with LibvirtError => true | OSError => false end.

(** The metadata [create_checkpoint] saves. *)
Definition checkpoint_metadata (checkpoint_name description : string) (now : datetime)
    (disk_path : Path) (vm_name : string) : gmap string string :=
  <["name" := checkpoint_name]>
  (<["description" := description]>
  (<["created" := isoformat now]>
  (<["original_disk" := path_str disk_path]>
  (<["vm_name" := vm_name]> ∅)))).

Definition create_checkpoint (e : env) (vm_name checkpoint_name description : string)
    : M bool :=
  try_except
    (domain <- lookupByName vm_name ;;
     (* Get current disk path *)
     xml <- XMLDesc domain XML_DEFAULT ;;
     match find_disk_source (xml_disks xml) with
     | None => ret false
     | Some disk_elem =>
         let disk_path := default [] (src_file disk_elem) in
         found <- path_exists disk_path ;;
         if negb found then ret false else
         (* Create checkpoint directory *)
         let checkpoint_dir := checkpoint_dir_of vm_name in
         exec mkdir (io_mkdir e) checkpoint_dir ;;
         (* Checkpoint disk filename *)
         let checkpoint_disk := checkpoint_dir // disk_file checkpoint_name in
         taken <- path_exists checkpoint_disk ;;
         if taken then ret false (* Already exists *) else
         (* Copy disk file *)
         exec copy2 (io_copy e) disk_path checkpoint_disk ;;
         (* Save metadata *)
         let metadata :=
           checkpoint_metadata checkpoint_name description (clock_name e)
             disk_path vm_name in
         let metadata_file := checkpoint_dir // metadata_name checkpoint_name in
         exec write_json (io_write e) metadata_file metadata ;;
         ret true
     end)
    libvirt_or_os (ret false).

(** [checkpoint_dir.glob("*.json")]: the entries of the directory whose name
    ends in [.json], in the order the directory yields them; nothing when the
    path is not a directory. *)
Definition is_json_child (d q : Path) : bool :=
  match child_of d q with
  | Some s => ends_with ".json" s
  | None => false
  end.

Definition glob_json (d : Path) (f : gmap Path node) : list Path :=
  match f !! d with
  | Some Dir => filter (fun q => is_json_child d q) (map_to_list f).*1
  | _ => []
  end.

(** [list.sort(key=lambda x: x[1], reverse=True)]: stable, largest key first. *)
Definition sort_key (x : string * string * bool) : string := x.1.2.

Fixpoint insert_desc (x : string * string * bool) (l : list (string * string * bool))
    : list (string * string * bool) :=
  match l with
  | [] => [x]
  | y :: l' =>
      if String.ltb (sort_key x) (sort_key y) then y :: insert_desc x l'
      else x :: y :: l'
  end.

Definition sort_newest_first (l : list (string * string * bool))
    : list (string * string * bool) :=
  foldr insert_desc [] l.

Section WithDatetimeParser.

(** [datetime.fromisoformat]: [None] stands for [ValueError]. *)
Variable fromisoformat : string → option datetime.

(** The body of the loop of [list_checkpoints] for one metadata file;
    [None] is the [continue] of the inner [except]. *)
Definition read_entry (checkpoint_dir : Path) (current_disk : option Path)
    (f : gmap Path node) (metadata_file : Path) : option (string * string * bool) :=
  match f !! metadata_file with
  | Some (File (JsonObject metadata)) =>
      let name := default (stem metadata_file) (metadata !! "name") in
      let created := default EmptyString (metadata !! "created") in
      let checkpoint_disk := checkpoint_dir // disk_file name in
      (* Check if this is the active checkpoint *)
      let is_active := bool_decide (current_disk = Some checkpoint_disk) in
      (* Format timestamp for display *)
      let created_str :=
        match fromisoformat created with
        | Some dt => strftime_display dt
        | None => created
        end in
      Some (name, created_str, is_active)
  | _ => None
  end.

Definition list_checkpoints (vm_name : string) : M (list (string * string * bool)) :=
  try_except
    (domain <- lookupByName vm_name ;;
     xml <- XMLDesc domain VIR_DOMAIN_XML_INACTIVE ;;
     let current_disk :=
       (fun disk_elem => default [] (src_file disk_elem))
         <$> find_disk_source (xml_disks xml) in
     (* Find checkpoint directory *)
     let checkpoint_dir := checkpoint_dir_of vm_name in
     found <- path_exists checkpoint_dir ;;
     if negb found then ret [] else
     (* Read all checkpoint metadata files *)
     w <- get_world ;;
     let checkpoints :=
       omap (read_entry checkpoint_dir current_disk (fs w))
            (glob_json checkpoint_dir (fs w)) in
     (* Sort by creation time (newest first) *)
     ret (sort_newest_first checkpoints))
    libvirt_only (ret []).

End WithDatetimeParser.

(** The metadata [switch_checkpoint] writes for the state it saves. *)
Definition auto_metadata (current_checkpoint_name : string) (now : datetime)
    : gmap string string :=
  <["name" := current_checkpoint_name]>
  (<["description" := "Auto-saved before switch"]>
  (<["created" := isoformat now]> ∅)).

Definition auto_name (now : datetime) : string := "auto-" +:+ strftime_compact now.

Definition switch_checkpoint (e : env) (vm_name checkpoint_name : string) : M bool :=
  try_except
    (domain <- lookupByName vm_name ;;
     (* Get persistent (inactive) disk configuration *)
     xml <- XMLDesc domain VIR_DOMAIN_XML_INACTIVE ;;
     match find_disk_source (xml_disks xml) with
     | None => ret false
     | Some disk_elem =>
         let current_disk := default [] (src_file disk_elem) in
         found <- path_exists current_disk ;;
         if negb found then ret false else
         (* Find checkpoint directory *)
         let checkpoint_dir := checkpoint_dir_of vm_name in
         exec mkdir (io_mkdir e) checkpoint_dir ;;
         let target_checkpoint_disk := checkpoint_dir // disk_file checkpoint_name in
         found <- path_exists target_checkpoint_disk ;;
         if negb found then ret false else
         (* Check if we're already on this checkpoint *)
         if bool_decide (current_disk = target_checkpoint_disk) then ret true else
         (* If current disk is not in checkpoints directory, save it *)
         exec (if bool_decide (parent current_disk ≠ checkpoint_dir) then
            let current_checkpoint_name := auto_name (clock_name e) in
            let current_checkpoint_disk :=
              checkpoint_dir // disk_file current_checkpoint_name in
            let current_checkpoint_metadata :=
              checkpoint_dir // metadata_name current_checkpoint_name in
            (* Copy current disk to checkpoint (preserve original) *)
            exec copy2 (io_copy e) current_disk current_checkpoint_disk ;;
            (* Create metadata for auto-saved checkpoint *)
            write_json (io_write e) current_checkpoint_metadata
              (auto_metadata current_checkpoint_name (clock_created e))
          else ret tt) ;;
         (* Update disk path to target checkpoint *)
         let xml' :=
           {| xml_name := xml_name xml;
              xml_uuid := xml_uuid xml;
              xml_disks := set_disk_source_file target_checkpoint_disk (xml_disks xml) |} in
         (* Update persistent configuration *)
         exec defineXML (virt_define e) (fresh_uuid e) xml' ;;
         ret true
     end)
    libvirt_or_os (ret false).

Definition delete_checkpoint (e : env) (vm_name checkpoint_name : string) : M bool :=
  try_except
    (let checkpoint_dir := checkpoint_dir_of vm_name in
     let checkpoint_disk := checkpoint_dir // disk_file checkpoint_name in
     let metadata_file := checkpoint_dir // metadata_name checkpoint_name in
     (* Delete disk file *)
     found <- path_exists checkpoint_disk ;;
     exec (if found then unlink (io_unlink_disk e) checkpoint_disk else ret tt) ;;
     (* Delete metadata *)
     found <- path_exists metadata_file ;;
     exec (if found then unlink (io_unlink_meta e) metadata_file else ret tt) ;;
     ret true)
    os_only (ret false).

Definition separate_checkpoint_to_vm (e : env)
    (checkpoint_name new_vm_name source_vm_name : string) : M bool :=
  try_except
    ((* Get source VM domain *)
     source_domain <- lookupByName source_vm_name ;;
     (* Find checkpoint disk and metadata *)
     let checkpoint_dir := checkpoint_dir_of source_vm_name in
     let checkpoint_disk := checkpoint_dir // disk_file checkpoint_name in
     let checkpoint_metadata := checkpoint_dir // metadata_name checkpoint_name in
     found <- path_exists checkpoint_disk ;;
     if negb found then ret false else
     (* Create new disk path for the new VM *)
     let new_disk := DISK_DIR // disk_file new_vm_name in
     taken <- path_exists new_disk ;;
     if taken then ret false (* VM disk already exists *) else
     (* Move checkpoint disk to new location *)
     exec rename (io_rename e) checkpoint_disk new_disk ;;
     (* Remove checkpoint metadata *)
     found <- path_exists checkpoint_metadata ;;
     exec (if found then unlink (io_unlink_meta e) checkpoint_metadata else ret tt) ;;
     (* Clone VM XML with new name and disk *)
     xml <- XMLDesc source_domain XML_DEFAULT ;;
     let xml' :=
       {| xml_name := (fun _ => new_vm_name) <$> xml_name xml;
          xml_uuid := None;
          xml_disks := set_disk_source_file new_disk (xml_disks xml) |} in
     (* Define new VM *)
     new_domain <- defineXML (virt_define e) (fresh_uuid e) xml' ;;
     match new_domain with
     | None =>
         (* Clean up if failed - move disk back *)
         exec rename (io_rename_back e) new_disk checkpoint_disk ;;
         ret false
     | Some _ => ret true
     end)
    libvirt_or_os (ret false).

(** ** CheckpointDialog: the delete handler *)

Module CheckpointDialog.

Record t := {
  vm_name : string;
  checkpoints : list (string * string * bool);   (* (name, created, is_active) *)
  snapshots : list (string * string);
  mode : string;
  cursor_index : nat;
  status_message : string;
  status_type : string
}.

(** The callables the dialog is constructed with (those the handler uses). *)
Record callbacks := {
  on_delete_checkpoint : string → M bool;
  on_list_checkpoints : M (list (string * string * bool));
  on_list_snapshots : M (list (string * string))
}.

Definition _set_status (message type : string) (d : t) : t :=
  {| vm_name := vm_name d; checkpoints := checkpoints d; snapshots := snapshots d;
     mode := mode d; cursor_index := cursor_index d;
     status_message := message; status_type := type |}.

Definition _refresh_lists (cb : callbacks) (d : t) : M t :=
  cps <- on_list_checkpoints cb ;;
  snaps <- on_list_snapshots cb ;;
  let shown := if String.eqb (mode d) "checkpoint" then length cps else length snaps in
  ret {| vm_name := vm_name d; checkpoints := cps; snapshots := snaps;
         mode := mode d;
         cursor_index := Nat.min (cursor_index d) (Nat.max 0 (shown - 1));
         status_message := EmptyString; status_type := status_type d |}.

(** [try: result[0] = f() except Exception as e: error[0] = str(e)] *)
Definition in_background {A} (m : M A) : M (exn + A) :=
  fun w =>
    match m w with
    | (w', Val a) => (w', Val (inr a))
    | (w', Exc e) => (w', Val (inl e))
    end.

(** [confirm] is the answer the confirmation dialog gives when it is shown,
    [exn_text] is [str(e)]. *)
Definition _delete_checkpoint (cb : callbacks) (confirm : bool)
    (exn_text : exn → string) (d : t) : M t :=
  match (checkpoints d !! cursor_index d : option (string * string * bool)) with
  | None => ret d
  | Some (name, _, is_active) =>
      if is_active then
        ret (_set_status "Cannot delete active checkpoint" "error" d)
      else if negb confirm then ret d
      else
        r <- in_background (on_delete_checkpoint cb name) ;;
        match r with
        | inl e =>
            if negb (String.eqb (exn_text e) EmptyString) then
              ret (_set_status ("Failed to delete checkpoint: " +:+ exn_text e) "error" d)
            else ret (_set_status "Failed to delete checkpoint" "error" d)
        | inr true =>
            d' <- _refresh_lists cb d ;;
            ret (_set_status ("Checkpoint '" +:+ name +:+ "' deleted") "success" d')
        | inr false => ret (_set_status "Failed to delete checkpoint" "error" d)
        end
  end.

End CheckpointDialog.

(** [app.py]: the callables the application hands to the dialog for [vm]. *)
Definition app_callbacks (e : env) (fromisoformat : string → option datetime)
    (list_snapshots : M (list (string * string))) (vm : string)
    : CheckpointDialog.callbacks :=
  {| CheckpointDialog.on_delete_checkpoint := fun name => delete_checkpoint e vm name;
     CheckpointDialog.on_list_checkpoints := list_checkpoints fromisoformat vm;
     CheckpointDialog.on_list_snapshots := list_snapshots |}.

(** ** Derived notions used in the statements *)

(** The primary disk path in the document [XMLDesc(flags)] gives for [vm]. *)
Definition described_disk_path (w : world) (vm : string) (flags : xml_flags) : option Path :=
  d ← domains w !! vm;
  s ← find_disk_source (described_disks flags d);
  Some (default [] (src_file s)).

(** The primary disk path of the persistent definition of [vm]. *)
Definition persistent_disk_path (w : world) (vm : string) : option Path :=
  described_disk_path w vm VIR_DOMAIN_XML_INACTIVE.

(** The primary disk path of the live definition of a running [vm]. *)
Definition live_disk_path (w : world) (vm : string) : option Path :=
  d ← domains w !! vm;
  l ← dom_live d;
  s ← find_disk_source l;
  Some (default [] (src_file s)).

Definition is_running (w : world) (vm : string) : bool :=
  match domains w !! vm with
  | Some d => bool_decide (is_Some (dom_live d))
  | None => false
  end.

Definition count_active (l : list (string * string * bool)) : nat :=
  length (filter (fun x => x.2 = true) l).

(** [w'] is [w] with directories created at paths that were free. *)
Definition grows_dirs (w w' : world) : Prop :=
  domains w' = domains w ∧
  ∀ p, fs w' !! p = fs w !! p ∨ (fs w !! p = None ∧ fs w' !! p = Some Dir).

(** Every metadata file in the directory [dir] is named after the checkpoint
    it describes: [<name>.json] holds the name [<name>]. *)
Definition metadata_named (dir : Path) (f : gmap Path node) : Prop :=
  ∀ q s m,
    child_of dir q = Some s → ends_with ".json" s = true →
    f !! q = Some (File (JsonObject m)) →
    s = metadata_name (default (stem q) (m !! "name")).

Definition checkpoints_named (vm_name : string) (w : world) : Prop :=
  metadata_named (checkpoint_dir_of vm_name) (fs w).

(** Sequences of create and switch operations on one VM. *)
Inductive checkpoint_op :=
  | OpCreate (e : env) (checkpoint_name description : string)
  | OpSwitch (e : env) (checkpoint_name : string).

Definition run_op (vm_name : string) (op : checkpoint_op) : M bool :=
  match op with
  | OpCreate e n d => create_checkpoint e vm_name n d
  | OpSwitch e n => switch_checkpoint e vm_name n
  end.

Fixpoint run_ops (vm_name : string) (ops : list checkpoint_op) (w : world) : world :=
  match ops with
  | [] => w
  | op :: ops' => run_ops vm_name ops' (run_op vm_name op w).1
  end.

(** [m] keeps the property [I] of the world, whatever it returns or raises. *)
Definition preserves {A} (I : world → Prop) (m : M A) : Prop :=
  ∀ w w' r, I w → m w = (w', r) → I w'.

(** ** A concrete host: VM [alpha] with one checkpoint [snap1] *)

Module Scenario.

Definition t0 : datetime :=
  {| year := 2026; month := 11; day := 3;
     hour := 9; minute := 5; second := 7; microsecond := 0 |}.

(** An environment in which nothing fails. *)
Definition calm : env :=
  {| clock_name := t0; clock_created := t0;
     io_mkdir := false; io_copy := Done; io_write := Done;
     io_unlink_disk := false; io_unlink_meta := false;
     io_rename := false; io_rename_back := false;
     virt_define := DefineOk; fresh_uuid := "0b6e7a52" |}.

Definition with_copy (out : io_outcome) (e : env) : env :=
  {| clock_name := clock_name e; clock_created := clock_created e;
     io_mkdir := io_mkdir e; io_copy := out; io_write := io_write e;
     io_unlink_disk := io_unlink_disk e; io_unlink_meta := io_unlink_meta e;
     io_rename := io_rename e; io_rename_back := io_rename_back e;
     virt_define := virt_define e; fresh_uuid := fresh_uuid e |}.

Definition with_define (out : define_outcome) (e : env) : env :=
  {| clock_name := clock_name e; clock_created := clock_created e;
     io_mkdir := io_mkdir e; io_copy := io_copy e; io_write := io_write e;
     io_unlink_disk := io_unlink_disk e; io_unlink_meta := io_unlink_meta e;
     io_rename := io_rename e; io_rename_back := io_rename_back e;
     virt_define := out; fresh_uuid := fresh_uuid e |}.

Definition alpha_dir : Path := checkpoint_dir_of "alpha".
Definition alpha_disk : Path := DISK_DIR // "alpha.qcow2".
Definition beta_disk : Path := DISK_DIR // "beta.qcow2".
Definition snap1_disk : Path := alpha_dir // "snap1.qcow2".
Definition snap1_json : Path := alpha_dir // "snap1.json".

Definition content_A : content := Bytes [Byte.x41].
Definition content_S : content := Bytes [Byte.x53].

Definition snap1_metadata : gmap string string :=
  checkpoint_metadata "snap1" "before upgrade" t0 alpha_disk "alpha".

(** The disk area with the VM's original disk and no checkpoint yet. *)
Definition fs_fresh : gmap Path node :=
  <[alpha_disk := File content_A]> (<[DISK_DIR := Dir]> ∅).

(** The same with checkpoint [snap1] stored. *)
Definition fs_snap1 : gmap Path node :=
  <[snap1_json := File (JsonObject snap1_metadata)]>
  (<[snap1_disk := File content_S]>
  (<[alpha_dir := Dir]>
  (<[DISK_DIR // "checkpoints" := Dir]> fs_fresh))).

Definition disk_at (p : Path) : list disk_elem :=
  [ {| disk_device := "cdrom"; disk_source := None |};
    {| disk_device := "disk"; disk_source := Some {| src_file := Some p |} |} ].

Definition alpha_on (next_boot : Path) (running : option Path) : gmap string domain :=
  <["alpha" := {| dom_uuid := "5c1d2f80";
                  dom_persistent := disk_at next_boot;
                  dom_live := disk_at <$> running |}]> ∅.

(** [alpha] shut off, on its original disk, no checkpoint. *)
Definition w_fresh : world :=
  {| fs := fs_fresh; domains := alpha_on alpha_disk None |}.

(** [alpha] shut off, on its original disk, checkpoint [snap1] stored. *)
Definition w_original : world :=
  {| fs := fs_snap1; domains := alpha_on alpha_disk None |}.

(** [alpha] shut off, on checkpoint [snap1]. *)
Definition w_active : world :=
  {| fs := fs_snap1; domains := alpha_on snap1_disk None |}.

(** [alpha] running on its original disk, set to boot from [snap1]. *)
Definition w_running : world :=
  {| fs := fs_snap1; domains := alpha_on snap1_disk (Some alpha_disk) |}.

(** [snap1.json] left behind without its disk. *)
Definition w_orphan : world :=
  {| fs := delete snap1_disk fs_snap1; domains := alpha_on alpha_disk None |}.

End Scenario.

(** The names a listing reports. *)
Definition reported_names (r : world * outcome (list (string * string * bool)))
    : list string :=
  match r.2 with
  | Val l => (fun x => x.1.1) <$> l
  | Exc _ => []
  end.

(** The fields of the metadata schema, and those of an auto-saved state. *)
Definition schema_fields : gset string :=
  {[ "name"; "description"; "created"; "original_disk"; "vm_name" ]}.

Definition auto_fields : gset string :=
  {[ "name"; "description"; "created" ]}.

(** ** Further notions used in the statements *)

(** Outside the paths [S], [w'] is [w] up to directories created at free
    paths; the domain definitions are the same. *)
Definition frame (S : Path → Prop) (w w' : world) : Prop :=
  domains w' = domains w ∧
  ∀ p, ¬ S p →
       fs w' !! p = fs w !! p ∨ (fs w !! p = None ∧ fs w' !! p = Some Dir).

(** The live definition of a domain, if it is defined and runs. *)
Definition live_definition (w : world) (vm : string) : option (list disk_elem) :=
  domains w !! vm ≫= dom_live.

(** [a] may stand before [b] in a listing: its sort key is not smaller. *)
Definition newest_first (a b : string * string * bool) : Prop :=
  String.le (sort_key b) (sort_key a).

(** The creation time as [list_checkpoints] displays it: reformatted when it
    parses as an ISO timestamp, verbatim otherwise. *)
Definition display_created (fromisoformat : string → option datetime) (created : string)
    : string :=
  match fromisoformat created with
  | Some dt => strftime_display dt
  | None => created
  end.

(** The paths the auto-preserve step of [switch_checkpoint] may write at the
    clock reading [now]: the auto-named disk file, an entry below it should it
    be a directory, and the auto-named metadata file. *)
Definition auto_saved_paths (vm_name : string) (now : datetime) (p : Path) : Prop :=
  p = checkpoint_dir_of vm_name // disk_file (auto_name now) ∨
  p = checkpoint_dir_of vm_name // metadata_name (auto_name now) ∨
  ∃ s, p = checkpoint_dir_of vm_name // disk_file (auto_name now) // s.

(** How a run of [switch_checkpoint] ends: it returns a boolean; the files are
    those of a world [w3] that differs from the start only on the auto-saved
    paths; the domain definitions are untouched, or the call returned [True]
    and the persistent definition of the VM names the target disk, its uuid
    and live definition being kept. *)
Definition switch_result (vm_name checkpoint_name : string) (now : datetime)
    (w w' : world) (r : outcome bool) : Prop :=
  ∃ b w3,
    r = Val b ∧ frame (auto_saved_paths vm_name now) w w3 ∧ fs w' = fs w3 ∧
    (domains w' = domains w ∨
     (b = true ∧
      ∃ d, domains w !! vm_name = Some d ∧
           is_Some (find_disk_source (dom_persistent d)) ∧
           domains w'
             = <[vm_name :=
                   {| dom_uuid := dom_uuid d;
                      dom_persistent :=
                        set_disk_source_file
                          (checkpoint_dir_of vm_name // disk_file checkpoint_name)
                          (dom_persistent d);
                      dom_live := dom_live d |}]> (domains w))).


(** Environments that differ from [e] in the clock, or in whether removing a
    metadata file fails. *)
Definition with_clock (now : datetime) (e : env) : env :=
  {| clock_name := now; clock_created := now;
     io_mkdir := io_mkdir e; io_copy := io_copy e; io_write := io_write e;
     io_unlink_disk := io_unlink_disk e; io_unlink_meta := io_unlink_meta e;
     io_rename := io_rename e; io_rename_back := io_rename_back e;
     virt_define := virt_define e; fresh_uuid := fresh_uuid e |}.

Definition with_unlink_meta (fails : bool) (e : env) : env :=
  {| clock_name := clock_name e; clock_created := clock_created e;
     io_mkdir := io_mkdir e; io_copy := io_copy e; io_write := io_write e;
     io_unlink_disk := io_unlink_disk e; io_unlink_meta := fails;
     io_rename := io_rename e; io_rename_back := io_rename_back e;
     virt_define := virt_define e; fresh_uuid := fresh_uuid e |}.

Definition t1 : datetime :=
  {| year := 2026; month := 11; day := 4; hour := 8; minute := 30; second := 0;
     microsecond := 0 |}.

(** Names that are one path component: [pathlib] splits a name at ['/'] and
    drops or resolves the components [""], ["."] and [".."].  The operations
    are modelled for such names. *)
Definition is_plain (s : string) : bool :=
  negb (existsb (Ascii.eqb "/") (String.list_ascii_of_string s)).

Definition is_component (s : string) : bool :=
  is_plain s && negb (String.eqb s EmptyString) && negb (String.eqb s ".")
  && negb (String.eqb s "..").




(** [alpha] with a disk whose [<source>] carries no [file] attribute (a
    block device, say), no checkpoint stored. *)
Definition w_no_file : world :=
  {| fs := Scenario.fs_fresh;
     domains :=
       <["alpha" := {| dom_uuid := "5c1d2f80";
                       dom_persistent :=
                         [ {| disk_device := "disk";
                              disk_source := Some {| src_file := None |} |} ];
                       dom_live := None |}]> ∅ |}.

(** ** The terminal: blessed keystrokes and Python's [str] methods *)

(** A [blessed.keyboard.Keystroke]: the characters received, and the name of
    the key when they form a named one. *)
Record Keystroke := {
  key_name : option string;
  key_text : string
}.

Definition named (n : string) (key : Keystroke) : bool :=
  bool_decide (key_name key = Some n).

(** [str.lower()], character by character on the 256 characters a [string]
    is made of. *)
Definition lower_char (c : ascii) : ascii :=
  let n := nat_of_ascii c in
  if ((65 <=? n) && (n <=? 90)) || ((192 <=? n) && (n <=? 222) && negb (n =? 215))
  then ascii_of_nat (n + 32) else c.

Fixpoint lower (s : string) : string :=
  match s with
  | EmptyString => EmptyString
  | String c r => String (lower_char c) (lower r)
  end.

(** [str.isprintable()] of one character. *)
Definition isprintable (c : ascii) : bool :=
  let n := nat_of_ascii c in
  ((32 <=? n) && (n <=? 126)) || ((161 <=? n) && negb (n =? 173)).

(** The slices [s[:n]] and [s[n:]] for [n >= 0]. *)
Fixpoint str_take (n : nat) (s : string) : string :=
  match n, s with
  | S k, String c r => String c (str_take k r)
  | _, _ => EmptyString
  end.

Fixpoint str_drop (n : nat) (s : string) : string :=
  match n, s with
  | S k, String c r => str_drop k r
  | _, _ => s
  end.

Definition nl : string := String (ascii_of_nat 10) EmptyString.

(** ** ConfirmDialog *)

Module ConfirmDialog.

(** [show] on the keys the terminal delivers: [None] when the keys run out
    with the question still open. *)
Fixpoint show (keys : list Keystroke) : option bool :=
  match keys with
  | [] => None
  | key :: rest =>
      if String.eqb (lower (key_text key)) "y" then Some true
      else if String.eqb (lower (key_text key)) "n" || named "KEY_ESCAPE" key
      then Some false
      else show rest
  end.

(** A key that answers neither yes nor no. *)
Definition undecided (key : Keystroke) : Prop :=
  key_text key ≠ "y" ∧ key_text key ≠ "Y" ∧ key_text key ≠ "n" ∧ key_text key ≠ "N" ∧
  key_name key ≠ Some "KEY_ESCAPE".

End ConfirmDialog.

(** ** InputDialog *)

Module InputDialog.

Record t := {
  validator : option (string → option string);
  value : string;
  cursor_pos : nat;
  error_message : string
}.

Definition __init__ (default : string) (validator : option (string → option string)) : t :=
  {| validator := validator; value := default; cursor_pos := String.length default;
     error_message := EmptyString |}.

Definition edit (value : string) (cursor_pos : nat) (d : t) : t :=
  {| validator := validator d; value := value; cursor_pos := cursor_pos;
     error_message := EmptyString |}.

Definition move (cursor_pos : nat) (d : t) : t :=
  {| validator := validator d; value := value d; cursor_pos := cursor_pos;
     error_message := error_message d |}.

Definition complain (error : string) (d : t) : t :=
  {| validator := validator d; value := value d; cursor_pos := cursor_pos d;
     error_message := error |}.

(** One turn of the loop of [show] on the key read: [inr] is what [show]
    returns, [inl] the dialog the loop goes on with. *)
Definition handle_key (key : Keystroke) (d : t) : t + option string :=
  if named "KEY_ESCAPE" key then inr None
  else if named "KEY_ENTER" key then
    match validator d with
    | Some check =>
        match check (value d) with
        | Some error =>
            if negb (String.eqb error EmptyString) then inl (complain error d)
            else inr (Some (value d))
        | None => inr (Some (value d))
        end
    | None => inr (Some (value d))
    end
  else if named "KEY_BACKSPACE" key then
    if 0 <? cursor_pos d then
      inl (edit (str_take (cursor_pos d - 1) (value d) +:+ str_drop (cursor_pos d) (value d))
                (cursor_pos d - 1) d)
    else inl d
  else if named "KEY_DELETE" key then
    if cursor_pos d <? String.length (value d) then
      inl (edit (str_take (cursor_pos d) (value d) +:+ str_drop (cursor_pos d + 1) (value d))
                (cursor_pos d) d)
    else inl d
  else if named "KEY_LEFT" key then inl (move (Nat.max 0 (cursor_pos d - 1)) d)
  else if named "KEY_RIGHT" key then
    inl (move (Nat.min (String.length (value d)) (cursor_pos d + 1)) d)
  else if named "KEY_HOME" key then inl (move 0 d)
  else if named "KEY_END" key then inl (move (String.length (value d)) d)
  else
    match key_text key with
    | String c EmptyString =>
        if isprintable c then
          inl (edit (str_take (cursor_pos d) (value d) +:+ key_text key
                       +:+ str_drop (cursor_pos d) (value d))
                    (cursor_pos d + 1) d)
        else inl d
    | _ => inl d
    end.

(** [show] on the keys the terminal delivers: [inl] when the keys run out
    with the dialog still open. *)
Fixpoint show (keys : list Keystroke) (d : t) : t + option string :=
  match keys with
  | [] => inl d
  | key :: rest =>
      match handle_key key d with
      | inl d' => show rest d'
      | inr result => inr result
      end
  end.

(** The validator the checkpoint dialog gives its name prompts:
    [lambda x: "Name required" if not x else None]. *)
Definition name_required (x : string) : option string :=
  if String.eqb x EmptyString then Some "Name required" else None.

(** The key that delivers the character [c]. *)
Definition typed (c : ascii) : Keystroke :=
  {| key_name := None; key_text := String c EmptyString |}.

Definition enter : Keystroke :=
  {| key_name := Some "KEY_ENTER"; key_text := String (ascii_of_nat 13) EmptyString |}.

Definition backspace : Keystroke :=
  {| key_name := Some "KEY_BACKSPACE"; key_text := String (ascii_of_nat 127) EmptyString |}.

End InputDialog.

(** ** CheckpointDialog: the other handlers and the key loop *)

Module CheckpointDialogKeys.

Import CheckpointDialog.

(** The callables the dialog is constructed with. *)
Record handlers := {
  lists : callbacks;   (* on_delete_checkpoint, on_list_checkpoints, on_list_snapshots *)
  on_create_checkpoint : string → string → M bool;
  on_switch_checkpoint : string → M bool;
  on_separate_checkpoint : string → string → M bool;
  on_create_snapshot : string → string → M bool;
  on_restore_snapshot : string → M bool;
  on_delete_snapshot : string → M bool
}.

(** What the terminal answers while one key is handled: the clock, what
    [InputDialog(title, prompt, default).show()] and
    [ConfirmDialog(title, message).show()] return, and [str(e)]. *)
Record terminal := {
  now : datetime;
  input_dialog : string → string → string → option string;
  confirm_dialog : string → string → bool;
  str_exn : exn → string
}.

Definition __init__ (vm : string) (checkpoints : list (string * string * bool))
    (snapshots : list (string * string)) : t :=
  {| vm_name := vm; checkpoints := checkpoints; snapshots := snapshots;
     mode := "snapshot"; cursor_index := 0;
     status_message := EmptyString; status_type := "info" |}.

Definition set_cursor (i : nat) (d : t) : t :=
  {| vm_name := vm_name d; checkpoints := checkpoints d; snapshots := snapshots d;
     mode := mode d; cursor_index := i;
     status_message := status_message d; status_type := status_type d |}.

Definition _create_checkpoint (h : handlers) (tm : terminal) (d : t) : M t :=
  let timestamp := strftime_compact (now tm) in
  let default_name := vm_name d +:+ "-checkpoint-" +:+ timestamp in
  match input_dialog tm "Create Checkpoint" "Checkpoint name:" default_name with
  | None => ret d
  | Some name =>
      if String.eqb name EmptyString then ret d else
      match input_dialog tm "Create Checkpoint" "Description (optional):" EmptyString with
      | None => ret d
      | Some description =>
          r <- in_background (on_create_checkpoint h name description) ;;
          match r with
          | inl e =>
              if negb (String.eqb (str_exn tm e) EmptyString) then
                ret (_set_status ("Failed to create checkpoint: " +:+ str_exn tm e)
                       "error" d)
              else ret d
          | inr true =>
              (* Refresh checkpoint list to show new checkpoint *)
              d' <- _refresh_lists (lists h) d ;;
              ret (_set_status ("Checkpoint '" +:+ name +:+ "' created") "success" d')
          | inr false => ret d
          end
      end
  end.

Definition _switch_checkpoint (h : handlers) (tm : terminal) (d : t) : M t :=
  match (checkpoints d !! cursor_index d : option (string * string * bool)) with
  | None => ret d
  | Some (name, _, is_active) =>
      if is_active then
        ret (_set_status "This checkpoint is already active" "info" d)
      else if confirm_dialog tm "Switch Checkpoint"
                ("Switch to checkpoint '" +:+ name +:+ "'?" +:+ nl +:+
                 "Restart VM for changes to take effect.") then
        ok <- on_switch_checkpoint h name ;;
        if ok then
          d' <- _refresh_lists (lists h) d ;;
          (* Move cursor to the now-active checkpoint *)
          let d'' :=
            match list_find (fun cp : string * string * bool =>
                               cp.1.1 = name ∧ cp.2 = true) (checkpoints d') with
            | Some (i, _) => set_cursor i d'
            | None => d'
            end in
          ret (_set_status ("Switched to checkpoint '" +:+ name +:+ "'") "success" d'')
        else ret (_set_status "Failed to switch checkpoint" "error" d)
      else ret d
  end.

Definition _separate_checkpoint (h : handlers) (tm : terminal) (d : t) : M (t * bool) :=
  match (checkpoints d !! cursor_index d : option (string * string * bool)) with
  | None => ret (d, false)
  | Some (checkpoint_name, _, _) =>
      match input_dialog tm "Separate to New VM" "New VM name:"
              (vm_name d +:+ "-from-" +:+ checkpoint_name) with
      | None => ret (d, false)
      | Some new_vm_name =>
          if String.eqb new_vm_name EmptyString then ret (d, false) else
          if negb (confirm_dialog tm "Separate Checkpoint"
                     ("Create new VM '" +:+ new_vm_name +:+ "' from checkpoint?" +:+ nl +:+
                      "Creates independent VM.")) then ret (d, false) else
          (* Perform the separation *)
          ok <- on_separate_checkpoint h checkpoint_name new_vm_name ;;
          if ok then
            d' <- _refresh_lists (lists h) d ;;
            ret (_set_status ("Created VM '" +:+ new_vm_name +:+ "' from checkpoint")
                   "success" d', true)
          else ret (_set_status "Failed to separate checkpoint" "error" d, false)
      end
  end.

Definition _create_snapshot (h : handlers) (tm : terminal) (d : t) : M t :=
  let timestamp := strftime_compact (now tm) in
  let default_name := "snap-" +:+ timestamp in
  match input_dialog tm "Create Snapshot" "Snapshot name:" default_name with
  | None => ret d
  | Some name =>
      if String.eqb name EmptyString then ret d else
      match input_dialog tm "Create Snapshot" "Description (optional):" EmptyString with
      | None => ret d
      | Some description =>
          ok <- on_create_snapshot h name description ;;
          if ok then
            d' <- _refresh_lists (lists h) d ;;
            ret (_set_status ("Snapshot '" +:+ name +:+ "' created") "success" d')
          else ret (_set_status "Failed to create snapshot" "error" d)
      end
  end.

Definition _restore_snapshot (h : handlers) (tm : terminal) (d : t) : M t :=
  match (snapshots d !! cursor_index d : option (string * string)) with
  | None => ret d
  | Some (name, _) =>
      if confirm_dialog tm "Restore Snapshot"
           ("Restore snapshot '" +:+ name +:+ "'?" +:+ nl +:+
            "Current state will be lost.") then
        ok <- on_restore_snapshot h name ;;
        if ok then
          d' <- _refresh_lists (lists h) d ;;
          ret (_set_status ("Restored snapshot '" +:+ name +:+ "'") "success" d')
        else ret (_set_status "Failed to restore snapshot" "error" d)
      else ret d
  end.

Definition _delete_snapshot (h : handlers) (tm : terminal) (d : t) : M t :=
  match (snapshots d !! cursor_index d : option (string * string)) with
  | None => ret d
  | Some (name, _) =>
      if confirm_dialog tm "Delete Snapshot"
           ("Delete snapshot '" +:+ name +:+ "'?" +:+ nl +:+
            "This cannot be undone.") then
        ok <- on_delete_snapshot h name ;;
        if ok then
          d' <- _refresh_lists (lists h) d ;;
          ret (_set_status ("Snapshot '" +:+ name +:+ "' deleted") "success" d')
        else ret (_set_status "Failed to delete snapshot" "error" d)
      else ret d
  end.

(** The answer of the confirmation [_delete_checkpoint] asks for. *)
Definition delete_confirmed (tm : terminal) (d : t) : bool :=
  match (checkpoints d !! cursor_index d : option (string * string * bool)) with
  | Some (name, _, _) =>
      confirm_dialog tm "Delete Checkpoint"
        ("Delete checkpoint '" +:+ name +:+ "'?" +:+ nl +:+ "This cannot be undone.")
  | None => false
  end.

(** The number of entries of the list on display. *)
Definition shown (d : t) : nat :=
  if String.eqb (mode d) "snapshot" then length (snapshots d) else length (checkpoints d).

(** One turn of the loop of [show] on the key read: [Some b] is what [show]
    returns, [None] lets the loop go on. *)
Definition handle_key (h : handlers) (tm : terminal) (key : Keystroke) (d : t)
    : M (t * option bool) :=
  if String.eqb (key_text key) EmptyString then ret (d, None)
  else if named "KEY_ESCAPE" key then ret (d, Some false)
  else if named "KEY_TAB" key then
    (* Switch mode (toggle between snapshot and checkpoint) *)
    ret ({| vm_name := vm_name d; checkpoints := checkpoints d; snapshots := snapshots d;
            mode := if String.eqb (mode d) "snapshot" then "checkpoint" else "snapshot";
            cursor_index := 0;
            status_message := EmptyString; status_type := status_type d |}, None)
  else if named "KEY_UP" key then
    ret (set_cursor (Nat.max 0 (cursor_index d - 1)) d, None)
  else if named "KEY_DOWN" key then
    ret (set_cursor (if bool_decide (shown d = 0) then 0
                     else Nat.min (shown d - 1) (cursor_index d + 1)) d, None)
  else if String.eqb (lower (key_text key)) "n" then
    d' <- (if String.eqb (mode d) "snapshot" then _create_snapshot h tm d
           else _create_checkpoint h tm d) ;;
    ret (d', None)
  else if named "KEY_ENTER" key then
    d' <- (if String.eqb (mode d) "snapshot" then _restore_snapshot h tm d
           else _switch_checkpoint h tm d) ;;
    ret (d', None)
  else if String.eqb (lower (key_text key)) "d" then
    d' <- (if String.eqb (mode d) "snapshot" then _delete_snapshot h tm d
           else _delete_checkpoint (lists h) (delete_confirmed tm d) (str_exn tm) d) ;;
    ret (d', None)
  else if String.eqb (lower (key_text key)) "s" && String.eqb (mode d) "checkpoint" then
    r <- _separate_checkpoint h tm d ;;
    (* Close dialog after successful separation *)
    ret (r.1, if r.2 then Some true else None)
  else ret (d, None).

(** [show] on the keys the terminal delivers, each with what the terminal
    answers while it is handled; [None] when the keys run out with the
    dialog still open. *)
Fixpoint show (h : handlers) (keys : list (terminal * Keystroke)) (d : t)
    : M (t * option bool) :=
  match keys with
  | [] => ret (d, None)
  | (tm, key) :: rest =>
      r <- handle_key h tm key d ;;
      match r.2 with
      | Some b => ret (r.1, Some b)
      | None => show h rest r.1
      end
  end.

End CheckpointDialogKeys.

(** [app.py], [_manage_snapshots]: the callables the application constructs
    the dialog with; the snapshot operations of libvirt, which keep their
    state inside libvirt, are the wrapped callables [snaps]. *)
Record snapshot_callbacks := {
  wrap_snapshot_create : string → string → M bool;
  wrap_snapshot_delete : string → M bool;
  restore_snapshot : string → M bool;
  wrap_list_snapshots : M (list (string * string))
}.

Definition app_handlers (e : env) (fromisoformat : string → option datetime)
    (snaps : snapshot_callbacks) (vm : string) : CheckpointDialogKeys.handlers :=
  {| CheckpointDialogKeys.lists := app_callbacks e fromisoformat (wrap_list_snapshots snaps) vm;
     CheckpointDialogKeys.on_create_checkpoint :=
       fun name desc => create_checkpoint e vm name desc;
     CheckpointDialogKeys.on_switch_checkpoint := fun name => switch_checkpoint e vm name;
     CheckpointDialogKeys.on_separate_checkpoint :=
       fun checkpoint new_vm => separate_checkpoint_to_vm e checkpoint new_vm vm;
     CheckpointDialogKeys.on_create_snapshot := wrap_snapshot_create snaps;
     CheckpointDialogKeys.on_restore_snapshot := restore_snapshot snaps;
     CheckpointDialogKeys.on_delete_snapshot := wrap_snapshot_delete snaps |}.

(** The cursor of the dialog designates an entry of the list on display, or
    is at 0 when that list is empty. *)
Definition cursor_in_list (d : CheckpointDialog.t) : Prop :=
  (CheckpointDialog.mode d = "snapshot" ∨ CheckpointDialog.mode d = "checkpoint") ∧
  CheckpointDialog.cursor_index d ≤ CheckpointDialogKeys.shown d - 1.

(** A user who accepts every default and confirms every question, and the
    keys Tab and Down. *)
Definition agreeing (now : datetime) : CheckpointDialogKeys.terminal :=
  {| CheckpointDialogKeys.now := now;
     CheckpointDialogKeys.input_dialog := fun _ _ default => Some default;
     CheckpointDialogKeys.confirm_dialog := fun _ _ => true;
     CheckpointDialogKeys.str_exn := fun _ => "error" |}.

Definition key_tab : Keystroke :=
  {| key_name := Some "KEY_TAB"; key_text := String (ascii_of_nat 9) EmptyString |}.

Definition key_down : Keystroke :=
  {| key_name := Some "KEY_DOWN"; key_text := String (ascii_of_nat 27) "[B" |}.

(** No snapshot support: every snapshot operation fails, none is listed. *)
Definition no_snapshots : snapshot_callbacks :=
  {| wrap_snapshot_create := fun _ _ => ret false;
     wrap_snapshot_delete := fun _ => ret false;
     restore_snapshot := fun _ => ret false;
     wrap_list_snapshots := ret [] |}.

(** What a computation returns when it returns. *)
Definition yields {A} (m : M A) (Q : A → Prop) : Prop :=
  ∀ w w' a, m w = (w', Val a) → Q a.

(** * Properties *)

(** ** Strings and paths *)

Lemma length_app_string (a b : string) :
  String.length (a +:+ b) = String.length a + String.length b.
Proof. induction a as [|c a IH]; simpl; [done | by rewrite IH]. Qed.

Lemma app_string_inj_r (a b s : string) : a +:+ s = b +:+ s → a = b.
Proof.
  revert b. induction a as [|c a IH]; intros [|c' b] H.
  - done.
  - apply (f_equal String.length) in H.
    rewrite !length_app_string in H. simpl in H. lia.
  - apply (f_equal String.length) in H.
    rewrite !length_app_string in H. simpl in H. lia.
  - change (String c (a +:+ s) = String c' (b +:+ s)) in H.
    injection H as -> H. f_equal. by apply IH.
Qed.

Lemma disk_file_inj (a b : string) : disk_file a = disk_file b → a = b.
Proof. apply app_string_inj_r. Qed.

Lemma ends_with_app (suf a : string) : ends_with suf (a +:+ suf) = true.
Proof.
  induction a as [|c a IH].
  - change (EmptyString +:+ suf) with suf.
    destruct suf as [|c s]; simpl; [done |].
    by rewrite Ascii.eqb_refl, String.eqb_refl.
  - change (String c a +:+ suf) with (String c (a +:+ suf)).
    cbn [ends_with]. rewrite IH. apply orb_true_r.
Qed.

Lemma metadata_name_is_json (n : string) : ends_with ".json" (metadata_name n) = true.
Proof. apply ends_with_app. Qed.

Lemma disk_file_not_json (n : string) : ends_with ".json" (disk_file n) = false.
Proof.
  unfold disk_file. induction n as [|c n IH]; [done |].
  change (String c n +:+ ".qcow2") with (String c (n +:+ ".qcow2")).
  cbn [ends_with]. rewrite IH, orb_false_r.
  apply String.eqb_neq. intros H.
  apply (f_equal String.length) in H. simpl in H.
  rewrite length_app_string in H. simpl in H. lia.
Qed.

Lemma disk_file_ne_metadata_name (n : string) : disk_file n ≠ metadata_name n.
Proof. intros H. by apply (inj (String.app n)) in H. Qed.

Lemma joinpath_inj (p : Path) (a b : string) : p // a = p // b → a = b.
Proof. unfold joinpath. intros H. apply app_inv_head in H. congruence. Qed.

Lemma joinpath_ne (p : Path) (a : string) : p // a ≠ p.
Proof.
  unfold joinpath. intros H. apply (f_equal length) in H.
  rewrite length_app in H. simpl in H. lia.
Qed.

Lemma parent_joinpath (p : Path) (s : string) : p ≠ [] → parent (p // s) = p.
Proof.
  intros Hp. unfold parent, joinpath.
  destruct p as [|x [|y p]]; [done | done |].
  change (removelast ((x :: y :: p) ++ [s]) = x :: y :: p).
  apply removelast_last.
Qed.

Lemma child_of_joinpath (d : Path) (s : string) : child_of d (d // s) = Some s.
Proof.
  unfold joinpath. induction d as [|x d IH]; simpl; [done |].
  by rewrite String.eqb_refl.
Qed.

Lemma child_of_Some (d q : Path) (s : string) : child_of d q = Some s → q = d // s.
Proof.
  unfold joinpath. revert q. induction d as [|x d IH]; intros q H; simpl in *.
  - destruct q as [|y [|z q]]; congruence.
  - destruct q as [|y q]; [done |].
    destruct (String.eqb_spec x y) as [->|]; [|done].
    f_equal. by apply IH.
Qed.

Lemma child_of_grandchild (d : Path) (a b : string) : child_of d (d // a // b) = None.
Proof.
  unfold joinpath. induction d as [|x d IH]; simpl; [done |].
  by rewrite String.eqb_refl.
Qed.

Lemma is_json_child_disk_file (d : Path) (n : string) :
  is_json_child d (d // disk_file n) = false.
Proof. unfold is_json_child. rewrite child_of_joinpath. apply disk_file_not_json. Qed.

Lemma is_json_child_grandchild (d : Path) (a b : string) :
  is_json_child d (d // a // b) = false.
Proof. unfold is_json_child. by rewrite child_of_grandchild. Qed.

Lemma checkpoint_dir_of_nonempty (vm_name : string) : checkpoint_dir_of vm_name ≠ [].
Proof. done. Qed.

Lemma parent_checkpoint_entry (vm_name s : string) :
  parent (checkpoint_dir_of vm_name // s) = checkpoint_dir_of vm_name.
Proof. by apply parent_joinpath. Qed.

(** ** The primitives *)

Lemma grows_dirs_refl (w : world) : grows_dirs w w.
Proof. split; [done | by left]. Qed.

Lemma grows_dirs_insert (w : world) (p : Path) :
  fs w !! p = None → grows_dirs w (set_fs (insert p Dir) w).
Proof.
  intros Hp. split; [done |]. intros q. simpl.
  destruct (decide (p = q)) as [<-|Hne].
  - right. by rewrite lookup_insert_eq.
  - left. by rewrite lookup_insert_ne.
Qed.

Lemma grows_dirs_trans (w1 w2 w3 : world) :
  grows_dirs w1 w2 → grows_dirs w2 w3 → grows_dirs w1 w3.
Proof.
  intros [Hd1 H1] [Hd2 H2]. split; [congruence |]. intros p.
  destruct (H1 p) as [E1|[N1 D1]], (H2 p) as [E2|[N2 D2]].
  - left. congruence.
  - right. split; congruence.
  - right. split; congruence.
  - congruence.
Qed.

Lemma grows_dirs_keeps (w w' : world) (p : Path) (n : node) :
  grows_dirs w w' → fs w !! p = Some n → fs w' !! p = Some n.
Proof. intros [_ H] Hp. destruct (H p) as [E|[N _]]; congruence. Qed.

Lemma grows_dirs_files (w w' : world) (p : Path) (c : content) :
  grows_dirs w w' → fs w' !! p = Some (File c) ↔ fs w !! p = Some (File c).
Proof. intros [_ H]. destruct (H p) as [E|[N D]]; split; congruence. Qed.

Lemma mkdir_rev_grows (fails : bool) (rp : list string) (w w' : world) (r : outcome unit) :
  mkdir_rev fails rp w = (w', r) → grows_dirs w w'.
Proof.
  revert w w' r. induction rp as [|s rp IH]; intros w w' r H; simpl in H.
  - injection H as <- _. apply grows_dirs_refl.
  - destruct (fs w !! (rev rp ++ [s])) as [[c|]|] eqn:Hp.
    + injection H as <- _. apply grows_dirs_refl.
    + injection H as <- _. apply grows_dirs_refl.
    + destruct (fs w !! rev rp) as [[c|]|] eqn:Hq.
      * injection H as <- _. apply grows_dirs_refl.
      * destruct fails; injection H as <- _;
          [apply grows_dirs_refl | by apply grows_dirs_insert].
      * destruct (mkdir_rev fails rp w) as [w1 [[]|e]] eqn:Hrec.
        -- pose proof (IH _ _ _ Hrec) as Hg.
           destruct fails; injection H as <- _; [done |].
           eapply grows_dirs_trans; [exact Hg |].
           destruct (fs w1 !! (rev rp ++ [s])) as [n|] eqn:Hp1.
           ++ split; [done |]. intros q. left. simpl.
              destruct (decide (rev rp ++ [s] = q)) as [<-|Hne].
              ** destruct Hg as [_ Hg]. destruct (Hg (rev rp ++ [s])) as [E|[_ D]].
                 --- congruence.
                 --- rewrite lookup_insert_eq. congruence.
              ** by rewrite lookup_insert_ne.
           ++ by apply grows_dirs_insert.
        -- injection H as <- _. by eapply IH.
Qed.

Lemma mkdir_grows (fails : bool) (p : Path) (w w' : world) (r : outcome unit) :
  mkdir fails p w = (w', r) → grows_dirs w w'.
Proof. apply mkdir_rev_grows. Qed.

Lemma mkdir_existing (fails : bool) (p : Path) (w : world) :
  fs w !! p = Some Dir → mkdir fails p w = (w, Val tt).
Proof.
  intros Hp. unfold mkdir.
  destruct (rev p) as [|s rp] eqn:Hrev; [done |].
  unfold mkdir_rev; fold mkdir_rev. rewrite <- Hrev, rev_involutive, Hp. done.
Qed.

Lemma mkdir_rev_above (fails : bool) (rp : list string) (w w' : world) (r : outcome unit)
    (q : Path) :
  mkdir_rev fails rp w = (w', r) → length rp < length q → fs w' !! q = fs w !! q.
Proof.
  revert w w' r. induction rp as [|s rp IH]; intros w w' r H Hlen; simpl in H.
  - by injection H as <- _.
  - assert (rev rp ++ [s] ≠ q) as Hne.
    { intros <-. rewrite length_app, length_rev in Hlen. simpl in Hlen. lia. }
    destruct (fs w !! (rev rp ++ [s])) as [[c|]|].
    + by injection H as <- _.
    + by injection H as <- _.
    + destruct (fs w !! rev rp) as [[c|]|].
      * by injection H as <- _.
      * destruct fails; injection H as <- _; [done |].
        simpl. by rewrite lookup_insert_ne.
      * destruct (mkdir_rev fails rp w) as [w1 [[]|e]] eqn:Hrec.
        -- assert (fs w1 !! q = fs w !! q) as <-.
           { eapply IH; [exact Hrec | simpl in Hlen; lia]. }
           destruct fails; injection H as <- _; [done |].
           simpl. by rewrite lookup_insert_ne.
        -- injection H as <- _. eapply IH; [exact Hrec | simpl in Hlen; lia].
Qed.

Lemma mkdir_child (fails : bool) (d : Path) (s : string) (w w' : world) (r : outcome unit) :
  mkdir fails d w = (w', r) → fs w' !! (d // s) = fs w !! (d // s).
Proof.
  intros H. eapply mkdir_rev_above; [exact H |].
  unfold joinpath. rewrite length_app, length_rev. simpl. lia.
Qed.

Lemma write_file_done (dst : Path) (c : content) (w : world) :
  fs w !! dst ≠ Some Dir → fs w !! parent dst = Some Dir →
  write_file Done dst c w = (set_fs (insert dst (File c)) w, Val tt).
Proof.
  intros Hd Hp. unfold write_file. rewrite Hp.
  destruct (fs w !! dst) as [[?|]|]; done.
Qed.

Lemma write_file_val (out : io_outcome) (dst : Path) (c : content) (w w' : world) (u : unit) :
  write_file out dst c w = (w', Val u) → w' = set_fs (insert dst (File c)) w.
Proof.
  unfold write_file. intros H.
  destruct (fs w !! dst) as [[?|]|], (fs w !! parent dst) as [[?|]|], out;
    by simplify_eq.
Qed.

(** A write that raises leaves every other path alone, and at its
    destination what was there or some bytes. *)
Lemma write_file_exc (out : io_outcome) (dst : Path) (c : content) (w w' : world) (ex : exn) :
  write_file out dst c w = (w', Exc ex) →
  domains w' = domains w ∧
  ∀ q, fs w' !! q = fs w !! q ∨ (q = dst ∧ ∃ data, fs w' !! q = Some (File (Bytes data))).
Proof.
  unfold write_file. intros H.
  destruct (fs w !! dst) as [[?|]|], (fs w !! parent dst) as [[?|]|], out as [|[data|]];
    simplify_eq; (split; [done |]); intros q; try (by left);
    simpl; (destruct (decide (dst = q)) as [<-|Hne];
      [right; split; [done |]; eexists; by rewrite lookup_insert_eq
      | left; by rewrite lookup_insert_ne]).
Qed.

Lemma copy2_unfold (out : io_outcome) (src dst : Path) (w : world) :
  copy2 out src dst w =
    match fs w !! src with
    | Some (File c) =>
        if bool_decide (src = copy2_target w src dst) then (w, Exc OSError)
        else write_file out (copy2_target w src dst) c w
    | _ => (w, Exc OSError)
    end.
Proof. done. Qed.

Lemma copy2_val (out : io_outcome) (src dst : Path) (w w' : world) (u : unit) :
  copy2 out src dst w = (w', Val u) →
  ∃ c, fs w !! src = Some (File c) ∧
       w' = set_fs (insert (copy2_target w src dst) (File c)) w.
Proof.
  rewrite copy2_unfold. intros H.
  destruct (fs w !! src) as [[c|]|]; [| done | done].
  case_bool_decide; [done |].
  exists c. split; [done |]. by eapply write_file_val.
Qed.

Lemma copy2_exc (out : io_outcome) (src dst : Path) (w w' : world) (ex : exn) :
  copy2 out src dst w = (w', Exc ex) →
  domains w' = domains w ∧
  ∀ q, fs w' !! q = fs w !! q ∨
       (q = copy2_target w src dst ∧ ∃ data, fs w' !! q = Some (File (Bytes data))).
Proof.
  rewrite copy2_unfold. intros H.
  destruct (fs w !! src) as [[c|]|].
  - case_bool_decide.
    + simplify_eq. split; [done | by left].
    + by eapply write_file_exc.
  - simplify_eq. split; [done | by left].
  - simplify_eq. split; [done | by left].
Qed.

Lemma copy2_done (src dst : Path) (c : content) (w : world) :
  fs w !! src = Some (File c) → fs w !! dst = None →
  fs w !! parent dst = Some Dir →
  copy2 Done src dst w = (set_fs (insert dst (File c)) w, Val tt).
Proof.
  intros Hs Hd Hp. rewrite copy2_unfold. unfold copy2_target. rewrite Hs, Hd.
  rewrite bool_decide_eq_false_2 by congruence.
  apply write_file_done; [by rewrite Hd | done].
Qed.

Lemma find_set_disk_source_file (p : Path) (ds : list disk_elem) (s : source_elem) :
  find_disk_source ds = Some s →
  find_disk_source (set_disk_source_file p ds) = Some {| src_file := Some p |}.
Proof.
  induction ds as [|d ds IH]; simpl; [done |].
  destruct (String.eqb (disk_device d) "disk") eqn:Hdev.
  - destruct (disk_source d) eqn:Hsrc; simpl; rewrite Hdev; [done |].
    rewrite Hsrc. apply IH.
  - simpl. rewrite Hdev. apply IH.
Qed.

Lemma not_is_Some_None {A} (o : option A) : ¬ is_Some o → o = None.
Proof. destruct o; [intros []; eauto | done]. Qed.

Lemma described_disk_path_domains (w w' : world) (vm : string) (flags : xml_flags) :
  domains w' = domains w → described_disk_path w' vm flags = described_disk_path w vm flags.
Proof. unfold described_disk_path. by intros ->. Qed.

Lemma described_disk_path_stopped (w : world) (vm : string) :
  is_running w vm = false →
  described_disk_path w vm XML_DEFAULT = persistent_disk_path w vm.
Proof.
  unfold is_running, persistent_disk_path, described_disk_path, described_disks.
  destruct (domains w !! vm) as [d|]; simpl; [| done].
  destruct (dom_live d); simpl; [| done].
  done.
Qed.

Lemma described_disk_path_running (w : world) (vm : string) :
  is_running w vm = true →
  described_disk_path w vm XML_DEFAULT = live_disk_path w vm.
Proof.
  unfold is_running, live_disk_path, described_disk_path, described_disks.
  destruct (domains w !! vm) as [d|]; simpl; [| done].
  destruct (dom_live d); simpl; done.
Qed.

(** ** Running the operations *)

Lemma is_cwd_joinpath (p : Path) (s : string) : is_cwd (p // s) = false.
Proof. unfold joinpath. by destruct p. Qed.

Lemma is_cwd_checkpoint_dir (vm_name : string) : is_cwd (checkpoint_dir_of vm_name) = false.
Proof. apply is_cwd_joinpath. Qed.

Lemma path_exists_unfold (p : Path) (w : world) :
  (if is_cwd p then (fun w0 : world => (w0, Val true))
   else (fun w0 : world => (w0, Val (bool_decide (is_Some (fs w0 !! p)))))) w
  = (w, Val (is_cwd p || bool_decide (is_Some (fs w !! p)))).
Proof. by destruct (is_cwd p). Qed.

Lemma path_exists_present (p : Path) (w : world) :
  is_Some (fs w !! p) → is_cwd p || bool_decide (is_Some (fs w !! p)) = true.
Proof. intros H. rewrite (bool_decide_eq_true_2 _ H). apply orb_true_r. Qed.

Lemma path_exists_absent (p : Path) (w : world) :
  is_cwd p || bool_decide (is_Some (fs w !! p)) = false →
  p ≠ [] ∧ fs w !! p = None.
Proof.
  intros [Hc Hb]%orb_false_iff. split; [by intros -> |].
  apply bool_decide_eq_false in Hb. by apply eq_None_not_Some.
Qed.

(** The existence test on a path read from the domain document. *)
Ltac source_exists :=
  match goal with
  | |- context [(if is_cwd ?p then ?a else ?b) ?w] =>
      replace ((if is_cwd p then a else b) w)
        with (w, Val (is_cwd p || bool_decide (is_Some (fs w !! p))))
        by (by destruct (is_cwd p))
  end.

(** Unfolds the steps that only read the world; an entry of a directory is
    not the current directory. *)
Ltac run_step :=
  unfold bind, ret, raise, path_exists, lookupByName, XMLDesc, get_world;
  rewrite ?is_cwd_joinpath, ?is_cwd_checkpoint_dir;
  cbv beta iota.

Lemma run_result {A} (r : world * outcome A) (v : outcome A) : r.2 = v → r = (r.1, v).
Proof. destruct r as [w o]. simpl. by intros ->. Qed.

(** Closed goals over the concrete scenario are settled by evaluation. *)
Ltac by_compute :=
  lazymatch goal with
  | |- _ = (_.1, _) => apply run_result; reflexivity
  | |- _ => first [ reflexivity
                  | discriminate
                  | apply (bool_decide_unpack _); vm_compute; exact I ]
  end.

(** ** create_checkpoint *)

(** What a successful [create_checkpoint] did. *)
Lemma create_checkpoint_true (e : env) (vm_name checkpoint_name description : string)
    (w w' : world) :
  create_checkpoint e vm_name checkpoint_name description w = (w', Val true) →
  ∃ src c w1,
    described_disk_path w vm_name XML_DEFAULT = Some src ∧
    fs w !! src = Some (File c) ∧
    grows_dirs w w1 ∧
    fs w1 !! (checkpoint_dir_of vm_name // disk_file checkpoint_name) = None ∧
    w' = set_fs
           (insert (checkpoint_dir_of vm_name // metadata_name checkpoint_name)
              (File (JsonObject
                 (checkpoint_metadata checkpoint_name description (clock_name e)
                    src vm_name))))
           (set_fs (insert (checkpoint_dir_of vm_name // disk_file checkpoint_name)
                      (File c)) w1).
Proof.
  unfold create_checkpoint, try_except, described_disk_path. run_step.
  destruct (domains w !! vm_name) as [d|] eqn:Hd; simpl; [| done].
  rewrite ?Hd; simpl.
  destruct (find_disk_source _) as [s|]; simpl; [| done].
  source_exists. destruct (_ || _) eqn:Hfound; simpl; [clear Hfound | done].
  destruct (mkdir _ _ w) as [w1 [[]|ex]] eqn:Hm; simpl; [| done].
  pose proof (mkdir_grows _ _ _ _ _ Hm) as Hg.
  case_bool_decide as Htaken; simpl; [done |].
  apply not_is_Some_None in Htaken.
  destruct (copy2 _ _ _ w1) as [w2 [[]|ex]] eqn:Hc; simpl; [| done].
  destruct (write_json _ _ _ w2) as [w3 [[]|ex]] eqn:Hw; simpl; [| done].
  intros [= <-].
  apply copy2_val in Hc as (c & Hsrc & ->).
  apply write_file_val in Hw as ->.
  unfold copy2_target. rewrite Htaken.
  exists (default [] (src_file s)), c, w1.
  split_and!; try done.
  by apply (grows_dirs_files _ _ _ _ Hg).
Qed.

(** C7 (collision safety).  When [<checkpoint_name>.qcow2] already exists in
    the VM's checkpoint directory, [create_checkpoint] returns [False]; the
    existing disk file keeps its content, no file anywhere is created or
    changed (so no metadata file is written), and the domains are untouched. *)
Theorem create_checkpoint_collision (e : env) (vm_name checkpoint_name description : string)
    (w : world) (c : content) :
  fs w !! (checkpoint_dir_of vm_name // disk_file checkpoint_name) = Some (File c) →
  ∃ w', create_checkpoint e vm_name checkpoint_name description w = (w', Val false) ∧
        fs w' !! (checkpoint_dir_of vm_name // disk_file checkpoint_name) = Some (File c) ∧
        (∀ p c', fs w' !! p = Some (File c') ↔ fs w !! p = Some (File c')) ∧
        domains w' = domains w.
Proof.
  intros Hn.
  assert (∀ w', grows_dirs w w' →
            fs w' !! (checkpoint_dir_of vm_name // disk_file checkpoint_name)
              = Some (File c) ∧
            (∀ p c', fs w' !! p = Some (File c') ↔ fs w !! p = Some (File c')) ∧
            domains w' = domains w) as Hfin.
  { intros w' Hg. split_and!.
    - by apply (grows_dirs_keeps _ _ _ _ Hg).
    - intros p c'. by apply grows_dirs_files.
    - apply Hg. }
  unfold create_checkpoint, try_except. run_step.
  destruct (domains w !! vm_name) as [d|] eqn:Hd; simpl.
  2: { eexists; split; [done | apply Hfin, grows_dirs_refl]. }
  rewrite ?Hd; simpl. destruct (find_disk_source _) as [s|]; simpl.
  2: { eexists; split; [done | apply Hfin, grows_dirs_refl]. }
  source_exists. destruct (_ || _); simpl.
  2: { eexists; split; [done | apply Hfin, grows_dirs_refl]. }
  destruct (mkdir _ _ w) as [w1 [[]|ex]] eqn:Hm; simpl.
  2: { eexists; split; [done | by eapply Hfin, mkdir_grows]. }
  pose proof (mkdir_grows _ _ _ _ _ Hm) as Hg.
  rewrite (grows_dirs_keeps _ _ _ _ Hg Hn).
  rewrite bool_decide_eq_true_2 by eauto. simpl.
  eexists; split; [done | by apply Hfin].
Qed.

Lemma create_checkpoint_collision_witness :
  ∃ w', create_checkpoint Scenario.calm "alpha" "snap1" "again" Scenario.w_original
          = (w', Val false) ∧
        fs w' !! Scenario.snap1_disk = Some (File Scenario.content_S) ∧
        (∀ p c', fs w' !! p = Some (File c') ↔ fs Scenario.w_original !! p = Some (File c')) ∧
        domains w' = domains Scenario.w_original.
Proof.
  apply (create_checkpoint_collision Scenario.calm "alpha" "snap1" "again"
           Scenario.w_original Scenario.content_S).
  by_compute.
Defined.

(** C10 (orphaned metadata).  When [<checkpoint_name>.json] exists in the
    checkpoint directory without [<checkpoint_name>.qcow2], the source disk is
    an existing file and neither the copy nor the write fails,
    [create_checkpoint] returns [True], the metadata file holds the new
    metadata whatever it held before, and the disk file is the copy of the
    source: the collision check looks at the disk file only. *)
Theorem create_checkpoint_overwrites_orphan_metadata (e : env)
    (vm_name checkpoint_name description : string) (w : world)
    (src : Path) (c old : content) :
  io_copy e = Done → io_write e = Done →
  described_disk_path w vm_name XML_DEFAULT = Some src →
  fs w !! src = Some (File c) →
  fs w !! checkpoint_dir_of vm_name = Some Dir →
  fs w !! (checkpoint_dir_of vm_name // disk_file checkpoint_name) = None →
  fs w !! (checkpoint_dir_of vm_name // metadata_name checkpoint_name) = Some (File old) →
  ∃ w', create_checkpoint e vm_name checkpoint_name description w = (w', Val true) ∧
        fs w' !! (checkpoint_dir_of vm_name // metadata_name checkpoint_name)
          = Some (File (JsonObject
               (checkpoint_metadata checkpoint_name description (clock_name e)
                  src vm_name))) ∧
        fs w' !! (checkpoint_dir_of vm_name // disk_file checkpoint_name)
          = Some (File c).
Proof.
  intros Hcopy Hwrite Hpath Hsrc Hdir Hdisk Hmeta.
  unfold described_disk_path in Hpath.
  destruct (domains w !! vm_name) as [d|] eqn:Hd; simpl in Hpath; [| done].
  destruct (find_disk_source _) as [s|] eqn:Hs; simpl in Hpath; [| done].
  injection Hpath as Hpath.
  assert (checkpoint_dir_of vm_name // disk_file checkpoint_name
          ≠ checkpoint_dir_of vm_name // metadata_name checkpoint_name) as Hne.
  { intros H%joinpath_inj. by apply disk_file_ne_metadata_name in H. }
  eexists. split.
  - unfold create_checkpoint, try_except. run_step.
    rewrite Hd; simpl. rewrite Hd; simpl. rewrite Hs; simpl. rewrite Hpath.
    source_exists. rewrite path_exists_present by (rewrite Hsrc; eauto). simpl.
    rewrite (mkdir_existing _ _ _ Hdir).
    rewrite bool_decide_eq_false_2 by (rewrite Hdisk; by intros [? ?]). simpl.
    rewrite Hcopy, (copy2_done _ _ c); [| done | done |
      by rewrite parent_checkpoint_entry].
    unfold write_json. rewrite Hwrite, write_file_done; [done | |].
    + simpl. rewrite lookup_insert_ne by done. by rewrite Hmeta.
    + simpl. rewrite parent_checkpoint_entry.
      rewrite lookup_insert_ne by apply joinpath_ne. done.
  - simpl. split.
    + by rewrite lookup_insert_eq.
    + rewrite lookup_insert_ne by done. by rewrite lookup_insert_eq.
Qed.

Lemma create_checkpoint_orphan_witness :
  ∃ w', create_checkpoint Scenario.calm "alpha" "snap1" "again" Scenario.w_orphan
          = (w', Val true) ∧
        fs w' !! Scenario.snap1_json
          = Some (File (JsonObject
               (checkpoint_metadata "snap1" "again" Scenario.t0
                  Scenario.alpha_disk "alpha"))) ∧
        fs w' !! Scenario.snap1_disk = Some (File Scenario.content_A).
Proof.
  apply (create_checkpoint_overwrites_orphan_metadata Scenario.calm "alpha" "snap1"
           "again" Scenario.w_orphan Scenario.alpha_disk Scenario.content_A
           (JsonObject Scenario.snap1_metadata)); by_compute.
Defined.

(** C8, the claim as stated fails: [alpha] runs on its original disk while
    its persistent definition points at [snap1]; the new checkpoint is a copy
    of the original disk, not of the disk the persistent definition names. *)
Lemma create_checkpoint_copies_live_disk :
  let r := create_checkpoint Scenario.calm "alpha" "snap2" EmptyString Scenario.w_running in
  r.2 = Val true ∧
  persistent_disk_path Scenario.w_running "alpha" = Some Scenario.snap1_disk ∧
  fs Scenario.w_running !! Scenario.snap1_disk = Some (File Scenario.content_S) ∧
  live_disk_path Scenario.w_running "alpha" = Some Scenario.alpha_disk ∧
  fs Scenario.w_running !! Scenario.alpha_disk = Some (File Scenario.content_A) ∧
  fs r.1 !! (Scenario.alpha_dir // disk_file "snap2") = Some (File Scenario.content_A) ∧
  fs r.1 !! (Scenario.alpha_dir // disk_file "snap2") ≠ Some (File Scenario.content_S) ∧
  fs r.1 !! (Scenario.alpha_dir // metadata_name "snap2")
    = Some (File (JsonObject
         (checkpoint_metadata "snap2" EmptyString Scenario.t0 Scenario.alpha_disk "alpha"))).
Proof. split_and!; by_compute. Qed.

(** C8, amended: [create_checkpoint] copies the disk named by
    [XMLDesc()] without flags.  For a VM that is not running this is the
    persistent definition, the view [list_checkpoints] and
    [switch_checkpoint] consult; for a running VM it is the live definition. *)
Theorem create_checkpoint_source (e : env) (vm_name checkpoint_name description : string)
    (w w' : world) :
  create_checkpoint e vm_name checkpoint_name description w = (w', Val true) →
  ∃ src c,
    described_disk_path w vm_name XML_DEFAULT = Some src ∧
    fs w !! src = Some (File c) ∧
    fs w' !! (checkpoint_dir_of vm_name // disk_file checkpoint_name) = Some (File c) ∧
    (is_running w vm_name = false → persistent_disk_path w vm_name = Some src) ∧
    (is_running w vm_name = true → live_disk_path w vm_name = Some src).
Proof.
  intros (src & c & w1 & Hsrc & Hc & _ & _ & ->)%create_checkpoint_true.
  exists src, c. split_and!; [done | done | | |].
  - cbn [fs set_fs]. rewrite lookup_insert_ne; [by rewrite lookup_insert_eq |].
    intros H%joinpath_inj. symmetry in H. by apply disk_file_ne_metadata_name in H.
  - intros Hrun. by rewrite <- described_disk_path_stopped.
  - intros Hrun. by rewrite <- described_disk_path_running.
Qed.

Lemma create_checkpoint_source_witness :
  ∃ src c,
    described_disk_path Scenario.w_fresh "alpha" XML_DEFAULT = Some src ∧
    fs Scenario.w_fresh !! src = Some (File c) ∧
    fs (create_checkpoint Scenario.calm "alpha" "snap1" EmptyString Scenario.w_fresh).1
      !! (checkpoint_dir_of "alpha" // disk_file "snap1") = Some (File c) ∧
    (is_running Scenario.w_fresh "alpha" = false →
     persistent_disk_path Scenario.w_fresh "alpha" = Some src) ∧
    (is_running Scenario.w_fresh "alpha" = true →
     live_disk_path Scenario.w_fresh "alpha" = Some src).
Proof.
  apply (create_checkpoint_source Scenario.calm "alpha" "snap1" EmptyString Scenario.w_fresh).
  by_compute.
Defined.

(** ** switch_checkpoint *)

Lemma target_ne_outside (vm_name s : string) (cur : Path) :
  parent cur ≠ checkpoint_dir_of vm_name → cur ≠ checkpoint_dir_of vm_name // s.
Proof. intros Hp ->. by rewrite parent_checkpoint_entry in Hp. Qed.

(** C5 (idempotent switch).  When the persistent disk path of the VM already
    is the target checkpoint's disk file, which exists in the checkpoint
    directory, [switch_checkpoint] returns [True] and leaves the whole world
    as it was: nothing is copied, no file is written, the persistent disk
    path is unchanged. *)
Theorem switch_checkpoint_idempotent (e : env) (vm_name checkpoint_name : string) (w : world) :
  persistent_disk_path w vm_name
    = Some (checkpoint_dir_of vm_name // disk_file checkpoint_name) →
  is_Some (fs w !! (checkpoint_dir_of vm_name // disk_file checkpoint_name)) →
  fs w !! checkpoint_dir_of vm_name = Some Dir →
  switch_checkpoint e vm_name checkpoint_name w = (w, Val true).
Proof.
  intros Hpath Hfile Hdir.
  unfold persistent_disk_path, described_disk_path in Hpath.
  destruct (domains w !! vm_name) as [d|] eqn:Hd; simpl in Hpath; [| done].
  destruct (find_disk_source _) as [s|] eqn:Hs; simpl in Hpath; [| done].
  injection Hpath as Hpath.
  unfold switch_checkpoint, try_except. run_step.
  rewrite Hd; simpl. rewrite Hd; simpl. rewrite Hs; simpl. rewrite Hpath.
  source_exists. rewrite path_exists_present by done. cbn [negb].
  rewrite (mkdir_existing _ _ _ Hdir).
  rewrite bool_decide_eq_true_2 by done. cbn [negb].
  by rewrite bool_decide_eq_true_2.
Qed.

Lemma switch_checkpoint_idempotent_witness :
  switch_checkpoint Scenario.calm "alpha" "snap1" Scenario.w_active
    = (Scenario.w_active, Val true).
Proof.
  apply switch_checkpoint_idempotent; [by_compute | | by_compute].
  exists (File Scenario.content_S). by_compute.
Defined.

(** What a successful [switch_checkpoint] did when the current disk lies
    outside the checkpoint directory. *)
Lemma switch_checkpoint_true_outside (e : env) (vm_name checkpoint_name : string)
    (w w' : world) (cur : Path) :
  let dir := checkpoint_dir_of vm_name in
  let auto := auto_name (clock_name e) in
  persistent_disk_path w vm_name = Some cur →
  parent cur ≠ dir →
  fs w !! (dir // disk_file auto) ≠ Some Dir →
  switch_checkpoint e vm_name checkpoint_name w = (w', Val true) →
  ∃ c, fs w !! cur = Some (File c) ∧
       fs w' !! (dir // disk_file auto) = Some (File c) ∧
       fs w' !! (dir // metadata_name auto)
         = Some (File (JsonObject (auto_metadata auto (clock_created e)))) ∧
       (virt_define e ≠ DefineNone →
        persistent_disk_path w' vm_name = Some (dir // disk_file checkpoint_name)).
Proof.
  intros dir auto Hpath Hout Hauto. subst dir auto.
  unfold persistent_disk_path, described_disk_path in Hpath.
  destruct (domains w !! vm_name) as [d|] eqn:Hd; simpl in Hpath; [| done].
  destruct (find_disk_source _) as [s|] eqn:Hs; simpl in Hpath; [| done].
  injection Hpath as Hpath.
  unfold switch_checkpoint, try_except. run_step.
  rewrite Hd; simpl. rewrite Hd; simpl. rewrite Hs; simpl. rewrite Hpath.
  source_exists. destruct (_ || _); simpl; [| done].
  destruct (mkdir _ _ w) as [w1 [[]|ex]] eqn:Hm; simpl; [| done].
  pose proof (mkdir_grows _ _ _ _ _ Hm) as Hg.
  case_bool_decide; simpl; [| done].
  rewrite bool_decide_eq_false_2 by by apply target_ne_outside.
  rewrite bool_decide_eq_true_2 by done.
  destruct (copy2 _ _ _ w1) as [w2 [[]|ex]] eqn:Hc; simpl; [| done].
  destruct (write_json _ _ _ w2) as [w3 [[]|ex]] eqn:Hw; simpl; [| done].
  apply copy2_val in Hc as (c & Hsrc & ->).
  apply write_file_val in Hw as ->.
  match goal with |- context [copy2_target ?a ?b ?p] =>
    assert (copy2_target a b p = p) as -> end.
  { unfold copy2_target. rewrite (mkdir_child _ _ _ _ _ _ Hm).
    destruct (fs w !! _) as [[?|]|] eqn:E; [done | by destruct Hauto | done]. }
  assert (∀ d a, d // disk_file a ≠ d // metadata_name a) as Hne.
  { intros d0 a H'%joinpath_inj. by apply disk_file_ne_metadata_name in H'. }
  unfold defineXML. simpl.
  destruct (virt_define e) eqn:Hdef; simpl; [| done |].
  - intros [= <-]. exists c. simpl.
    split; [by apply (grows_dirs_files _ _ _ _ Hg) |].
    split; [rewrite lookup_insert_ne by done; by rewrite lookup_insert_eq |].
    split; [by rewrite lookup_insert_eq |].
    intros _. unfold persistent_disk_path, described_disk_path. simpl.
    rewrite lookup_insert_eq. simpl.
    by rewrite (find_set_disk_source_file _ _ _ Hs).
  - intros [= <-]. exists c. simpl.
    split; [by apply (grows_dirs_files _ _ _ _ Hg) |].
    split; [rewrite lookup_insert_ne by done; by rewrite lookup_insert_eq |].
    split; [by rewrite lookup_insert_eq |].
    done.
Qed.




(** C6 (abort on copy failure).  When [switch_checkpoint] reaches the
    auto-preserve copy and the copy raises, the call returns [False], the
    domain definitions are exactly those before the call, and the persistent
    disk path is still the pre-call path. *)
Theorem switch_checkpoint_copy_failure_aborts (e : env)
    (vm_name checkpoint_name : string) (w w1 w2 : world) (cur : Path) (ex : exn) :
  let dir := checkpoint_dir_of vm_name in
  persistent_disk_path w vm_name = Some cur →
  is_Some (fs w !! cur) →
  is_Some (fs w !! (dir // disk_file checkpoint_name)) →
  parent cur ≠ dir →
  mkdir (io_mkdir e) dir w = (w1, Val tt) →
  copy2 (io_copy e) cur (dir // disk_file (auto_name (clock_name e))) w1 = (w2, Exc ex) →
  switch_checkpoint e vm_name checkpoint_name w = (w2, Val false) ∧
  domains w2 = domains w ∧
  persistent_disk_path w2 vm_name = Some cur.
Proof.
  intros dir Hpath Hcur Htarget Hout Hm Hc. subst dir.
  pose proof (mkdir_grows _ _ _ _ _ Hm) as Hg.
  assert (domains w2 = domains w) as Hdom.
  { apply copy2_exc in Hc as [-> _]. apply Hg. }
  split_and!; [| done |].
  2: { unfold persistent_disk_path in *.
       by rewrite (described_disk_path_domains _ _ _ _ Hdom). }
  unfold persistent_disk_path, described_disk_path in Hpath.
  destruct (domains w !! vm_name) as [d|] eqn:Hd; simpl in Hpath; [| done].
  destruct (find_disk_source _) as [s|] eqn:Hs; simpl in Hpath; [| done].
  injection Hpath as Hpath.
  unfold switch_checkpoint, try_except. run_step.
  rewrite Hd; simpl. rewrite Hd; simpl. rewrite Hs; simpl. rewrite Hpath.
  source_exists. rewrite path_exists_present by done. simpl.
  rewrite Hm.
  rewrite bool_decide_eq_true_2.
  2: { destruct Htarget as [n Hn]. rewrite (grows_dirs_keeps _ _ _ _ Hg Hn). eauto. }
  simpl.
  rewrite bool_decide_eq_false_2 by by apply target_ne_outside.
  rewrite bool_decide_eq_true_2 by done.
  by rewrite Hc.
Qed.

Lemma switch_checkpoint_copy_failure_witness :
  let e := Scenario.with_copy (Fails None) Scenario.calm in
  switch_checkpoint e "alpha" "snap1" Scenario.w_original
    = (Scenario.w_original, Val false) ∧
  domains Scenario.w_original = domains Scenario.w_original ∧
  persistent_disk_path Scenario.w_original "alpha" = Some Scenario.alpha_disk.
Proof.
  apply (switch_checkpoint_copy_failure_aborts
           (Scenario.with_copy (Fails None) Scenario.calm) "alpha" "snap1"
           Scenario.w_original Scenario.w_original Scenario.w_original
           Scenario.alpha_disk OSError).
  - by_compute.
  - exists (File Scenario.content_A). by_compute.
  - exists (File Scenario.content_S). by_compute.
  - by_compute.
  - by_compute.
  - by_compute.
Defined.

(** ** The metadata written *)

Lemma checkpoint_metadata_fields (n description : string) (now : datetime) (p : Path)
    (vm : string) :
  dom (checkpoint_metadata n description now p vm) = schema_fields.
Proof.
  unfold checkpoint_metadata, schema_fields.
  rewrite !dom_insert_L, dom_empty_L. set_solver.
Qed.

Lemma auto_metadata_fields (n : string) (now : datetime) :
  dom (auto_metadata n now) = auto_fields.
Proof.
  unfold auto_metadata, auto_fields.
  rewrite !dom_insert_L, dom_empty_L. set_solver.
Qed.

(** C9, the claim as stated fails: the metadata [switch_checkpoint] writes
    for the state it saves has neither [original_disk] nor [vm_name]. *)
Lemma auto_saved_metadata_lacks_fields :
  let r := switch_checkpoint Scenario.calm "alpha" "snap1" Scenario.w_original in
  r.2 = Val true ∧
  ∃ m, fs r.1 !! (Scenario.alpha_dir // metadata_name (auto_name Scenario.t0))
         = Some (File (JsonObject m)) ∧
       m !! "original_disk" = None ∧ m !! "vm_name" = None.
Proof.
  split; [by_compute |].
  exists (auto_metadata (auto_name Scenario.t0) Scenario.t0).
  split_and!; by_compute.
Qed.

(** C9, amended: the metadata file [create_checkpoint] writes has exactly the
    five schema fields, [created] being the ISO-8601 rendering of the clock;
    the metadata file the auto-preserve step of [switch_checkpoint] writes has
    exactly [name], [description] and [created]. *)
Theorem metadata_fields_written :
  (∀ (e : env) (vm_name checkpoint_name description : string) (w w' : world),
     create_checkpoint e vm_name checkpoint_name description w = (w', Val true) →
     ∃ m, fs w' !! (checkpoint_dir_of vm_name // metadata_name checkpoint_name)
            = Some (File (JsonObject m)) ∧
          dom m = schema_fields ∧
          m !! "name" = Some checkpoint_name ∧
          m !! "created" = Some (isoformat (clock_name e)) ∧
          m !! "vm_name" = Some vm_name) ∧
  (∀ (e : env) (vm_name checkpoint_name : string) (w w' : world) (cur : Path),
     persistent_disk_path w vm_name = Some cur →
     parent cur ≠ checkpoint_dir_of vm_name →
     fs w !! (checkpoint_dir_of vm_name // disk_file (auto_name (clock_name e)))
       ≠ Some Dir →
     switch_checkpoint e vm_name checkpoint_name w = (w', Val true) →
     ∃ m, fs w' !! (checkpoint_dir_of vm_name // metadata_name (auto_name (clock_name e)))
            = Some (File (JsonObject m)) ∧
          dom m = auto_fields ∧
          m !! "name" = Some (auto_name (clock_name e)) ∧
          m !! "created" = Some (isoformat (clock_created e))).
Proof.
  split.
  - intros e vm_name checkpoint_name description w w'
      (src & c & w1 & _ & _ & _ & _ & ->)%create_checkpoint_true.
    eexists. cbn [fs set_fs]. rewrite lookup_insert_eq.
    split_and!; [done | apply checkpoint_metadata_fields | done..].
  - intros e vm_name checkpoint_name w w' cur Hpath Hout Hauto Hrun.
    destruct (switch_checkpoint_true_outside _ _ _ _ _ _ Hpath Hout Hauto Hrun)
      as (c & _ & _ & Hmeta & _).
    eexists. split; [exact Hmeta |].
    split_and!; [apply auto_metadata_fields | done..].
Qed.

Lemma metadata_fields_written_witness :
  (∃ m, fs (create_checkpoint Scenario.calm "alpha" "snap1" EmptyString Scenario.w_fresh).1
          !! (checkpoint_dir_of "alpha" // metadata_name "snap1")
          = Some (File (JsonObject m)) ∧
        dom m = schema_fields ∧
        m !! "name" = Some "snap1" ∧
        m !! "created" = Some (isoformat Scenario.t0) ∧
        m !! "vm_name" = Some "alpha") ∧
  (∃ m, fs (switch_checkpoint Scenario.calm "alpha" "snap1" Scenario.w_original).1
          !! (checkpoint_dir_of "alpha" // metadata_name (auto_name Scenario.t0))
          = Some (File (JsonObject m)) ∧
        dom m = auto_fields ∧
        m !! "name" = Some (auto_name Scenario.t0) ∧
        m !! "created" = Some (isoformat Scenario.t0)).
Proof.
  split.
  - apply (proj1 metadata_fields_written Scenario.calm "alpha" "snap1" EmptyString
             Scenario.w_fresh). by_compute.
  - apply (proj2 metadata_fields_written Scenario.calm "alpha" "snap1"
             Scenario.w_original _ Scenario.alpha_disk); by_compute.
Defined.

(** ** list_checkpoints *)

Lemma insert_desc_Permutation (x : string * string * bool) (l : list (string * string * bool)) :
  insert_desc x l ≡ₚ x :: l.
Proof.
  induction l as [|y l IH]; simpl; [done |].
  destruct (String.ltb _ _); [| done].
  rewrite IH. apply Permutation_swap.
Qed.

Lemma sort_newest_first_Permutation (l : list (string * string * bool)) :
  sort_newest_first l ≡ₚ l.
Proof.
  unfold sort_newest_first. induction l as [|x l IH]; simpl; [done |].
  by rewrite insert_desc_Permutation, IH.
Qed.

Lemma count_active_Permutation (l1 l2 : list (string * string * bool)) :
  l1 ≡ₚ l2 → count_active l1 = count_active l2.
Proof. intros H. unfold count_active. by rewrite H. Qed.

(** What [list_checkpoints] returns: nothing, or the sorted entries of the
    metadata files. *)
Lemma list_checkpoints_result (fromisoformat : string → option datetime)
    (vm_name : string) (w : world) :
  ∃ l, list_checkpoints fromisoformat vm_name w = (w, Val l) ∧
       (l = [] ∨
        l = sort_newest_first
              (omap (read_entry fromisoformat (checkpoint_dir_of vm_name)
                       (persistent_disk_path w vm_name) (fs w))
                    (glob_json (checkpoint_dir_of vm_name) (fs w)))).
Proof.
  unfold list_checkpoints, try_except, persistent_disk_path, described_disk_path.
  run_step.
  destruct (domains w !! vm_name) as [d|] eqn:Hd; simpl.
  2: { eexists; split; [done | by left]. }
  rewrite Hd; simpl.
  case_bool_decide; simpl.
  2: { eexists; split; [done | by left]. }
  eexists; split; [done |]. by right.
Qed.

Lemma read_entry_active (fromisoformat : string → option datetime) (dir : Path)
    (cur : option Path) (f : gmap Path node) (q : Path) (n created : string) :
  read_entry fromisoformat dir cur f q = Some (n, created, true) →
  cur = Some (dir // disk_file n) ∧
  ∃ m, f !! q = Some (File (JsonObject m)) ∧ n = default (stem q) (m !! "name").
Proof.
  unfold read_entry.
  destruct (f !! q) as [[[data|m]|]|]; try done.
  intros [= <- _ Hact]. apply bool_decide_eq_true in Hact.
  split; [done |]. by exists m.
Qed.

Lemma list_checkpoints_active (fromisoformat : string → option datetime)
    (vm_name : string) (w w' : world) (l : list (string * string * bool))
    (n created : string) :
  list_checkpoints fromisoformat vm_name w = (w', Val l) →
  (n, created, true) ∈ l →
  persistent_disk_path w vm_name = Some (checkpoint_dir_of vm_name // disk_file n).
Proof.
  intros Hl Hin.
  destruct (list_checkpoints_result fromisoformat vm_name w) as (l' & Hl' & Hcase).
  rewrite Hl' in Hl. injection Hl as _ <-.
  destruct Hcase as [->| ->]; [by apply elem_of_nil in Hin |].
  rewrite sort_newest_first_Permutation in Hin.
  apply list_elem_of_omap in Hin as (q & _ & Hq).
  by apply read_entry_active in Hq as [? _].
Qed.

Lemma omap_cons {A B} (f : A → option B) (q : A) (qs : list A) :
  omap f (q :: qs) = match f q with Some y => y :: omap f qs | None => omap f qs end.
Proof. done. Qed.

Lemma count_active_none {A} (f : A → option (string * string * bool)) (qs : list A) :
  (∀ q n c, q ∈ qs → f q ≠ Some (n, c, true)) → count_active (omap f qs) = 0.
Proof.
  induction qs as [|q qs IH]; intros Hnone; [done |].
  assert (count_active (omap f qs) = 0) as IH'.
  { apply IH. intros q' n c Hin. apply Hnone. by right. }
  rewrite omap_cons. unfold count_active in *.
  destruct (f q) as [[[n c] [|]]|] eqn:E.
  - exfalso. eapply Hnone; [left | exact E].
  - by rewrite filter_cons_False by (simpl; congruence).
  - done.
Qed.

Lemma count_active_le_1 {A} (f : A → option (string * string * bool)) (qs : list A) :
  NoDup qs →
  (∀ q1 q2 n1 c1 n2 c2, q1 ∈ qs → q2 ∈ qs →
     f q1 = Some (n1, c1, true) → f q2 = Some (n2, c2, true) → q1 = q2) →
  count_active (omap f qs) ≤ 1.
Proof.
  induction qs as [|q qs IH]; intros Hnd Huniq; [unfold count_active; simpl; lia |].
  apply NoDup_cons in Hnd as [Hq Hnd].
  assert (count_active (omap f qs) ≤ 1) as IH'.
  { apply IH; [done |]. intros q1 q2 n1 c1 n2 c2 H1 H2. apply Huniq; by right. }
  rewrite omap_cons.
  destruct (f q) as [[[n c] [|]]|] eqn:E; [| | done].
  - assert (count_active (omap f qs) = 0) as H0.
    { apply count_active_none. intros q' n' c' Hin E'.
      assert (q = q') as <-; [| done].
      eapply Huniq; [left | by right | exact E | exact E']. }
    unfold count_active in *. rewrite filter_cons_True by done.
    cbn [length]. rewrite H0. lia.
  - unfold count_active in *. by rewrite filter_cons_False by (simpl; congruence).
Qed.

Lemma glob_json_NoDup (d : Path) (f : gmap Path node) : NoDup (glob_json d f).
Proof.
  unfold glob_json. destruct (f !! d) as [[?|]|]; try apply NoDup_nil_2.
  apply NoDup_filter, NoDup_fst_map_to_list.
Qed.

Lemma glob_json_elem (d q : Path) (f : gmap Path node) :
  q ∈ glob_json d f → is_json_child d q = true.
Proof.
  unfold glob_json. destruct (f !! d) as [[?|]|]; try by intros ?%elem_of_nil.
  intros [H _]%list_elem_of_filter. by apply Is_true_true.
Qed.

(** ** At most one active checkpoint *)

(** Composition rules for [preserves]. *)
Section Preservation.

Context {I : world → Prop}.

Lemma preserves_ret {A} (a : A) : preserves I (ret a).
Proof. intros w w' r HI [= <- _]. done. Qed.

Lemma preserves_bind {A B} (m : M A) (k : A → M B) :
  preserves I m → (∀ a, preserves I (k a)) → preserves I (bind m k).
Proof.
  intros Hm Hk w w' r HI. unfold bind.
  destruct (m w) as [w1 [a|ex]] eqn:E.
  - apply (Hk a). by apply (Hm _ _ _ HI E).
  - intros [= <- _]. by apply (Hm _ _ _ HI E).
Qed.

Lemma preserves_try_except {A} (body handler : M A) (caught : exn → bool) :
  preserves I body → preserves I handler → preserves I (try_except body caught handler).
Proof.
  intros Hb Hh w w' r HI. unfold try_except.
  destruct (body w) as [w1 [a|ex]] eqn:E.
  - intros [= <- _]. by apply (Hb _ _ _ HI E).
  - destruct (caught ex).
    + apply Hh. by apply (Hb _ _ _ HI E).
    + intros [= <- _]. by apply (Hb _ _ _ HI E).
Qed.

Lemma preserves_path_exists (p : Path) : preserves I (path_exists p).
Proof. intros w w' r HI. unfold path_exists. by destruct (is_cwd p); intros [= <- _]. Qed.

Lemma preserves_lookupByName (n : string) : preserves I (lookupByName n).
Proof.
  intros w w' r HI. unfold lookupByName.
  destruct (domains w !! n); intros [= <- _]; done.
Qed.

Lemma preserves_XMLDesc (n : string) (flags : xml_flags) : preserves I (XMLDesc n flags).
Proof.
  intros w w' r HI. unfold XMLDesc.
  destruct (domains w !! n); intros [= <- _]; done.
Qed.

End Preservation.

Lemma metadata_named_empty (dir : Path) : metadata_named dir ∅.
Proof. intros q s m _ _ H. by rewrite lookup_empty in H. Qed.

(** The ways a path may change without breaking [metadata_named]. *)
Lemma metadata_named_step (dir : Path) (f f' : gmap Path node) :
  metadata_named dir f →
  (∀ q, f' !! q = f !! q
        ∨ is_json_child dir q = false
        ∨ f' !! q = Some Dir
        ∨ (∃ data, f' !! q = Some (File (Bytes data)))
        ∨ (∃ n m, q = dir // metadata_name n ∧ m !! "name" = Some n
                  ∧ f' !! q = Some (File (JsonObject m)))) →
  metadata_named dir f'.
Proof.
  intros Hf Hstep q s m Hchild Hjson Hq.
  destruct (Hstep q) as [E|[E|[E|[[data E]|(n & m' & -> & Hn & E)]]]].
  - rewrite E in Hq. by eapply Hf.
  - unfold is_json_child in E. rewrite Hchild in E. congruence.
  - congruence.
  - congruence.
  - rewrite child_of_joinpath in Hchild. injection Hchild as <-.
    rewrite E in Hq. injection Hq as <-. by rewrite Hn.
Qed.

Lemma metadata_named_insert (dir q : Path) (v : node) (f : gmap Path node) :
  metadata_named dir f →
  (is_json_child dir q = false
   ∨ (∃ data, v = File (Bytes data))
   ∨ (∃ n m, q = dir // metadata_name n ∧ m !! "name" = Some n
             ∧ v = File (JsonObject m))) →
  metadata_named dir (<[q := v]> f).
Proof.
  intros Hf Hv. apply (metadata_named_step dir f); [done |]. intros q'.
  destruct (decide (q = q')) as [<-|Hne].
  - rewrite lookup_insert_eq.
    destruct Hv as [E|[[data ->]|(n & m & -> & Hn & ->)]]; eauto 10.
  - left. by rewrite lookup_insert_ne.
Qed.

(** Under [metadata_named] an active entry comes from one file only. *)
Lemma active_entry_file (fromisoformat : string → option datetime) (dir : Path)
    (cur : option Path) (f : gmap Path node) (q : Path) (n c : string) :
  metadata_named dir f →
  q ∈ glob_json dir f →
  read_entry fromisoformat dir cur f q = Some (n, c, true) →
  q = dir // metadata_name n ∧ cur = Some (dir // disk_file n).
Proof.
  intros Hf Hq Hr.
  apply glob_json_elem in Hq. unfold is_json_child in Hq.
  destruct (child_of dir q) as [s|] eqn:Hchild; [| done].
  apply read_entry_active in Hr as (Hcur & m & Hm & ->).
  split; [| done].
  rewrite <- (Hf q s m Hchild Hq Hm). by apply child_of_Some.
Qed.

(** Every step of the two operations keeps [checkpoints_named]. *)
Section MetadataNamed.

Variable vm_name : string.

Abbreviation inv := (checkpoints_named vm_name).

Lemma preserves_mkdir (fails : bool) (p : Path) : preserves inv (mkdir fails p).
Proof.
  intros w w' r HI Hm. apply mkdir_grows in Hm as [_ Hg].
  apply (metadata_named_step _ (fs w)); [done |]. intros q.
  destruct (Hg q) as [E|[_ E]]; eauto.
Qed.

Lemma preserves_copy2_disk (out : io_outcome) (src : Path) (n : string) :
  preserves inv (copy2 out src (checkpoint_dir_of vm_name // disk_file n)).
Proof.
  intros w w' r HI Hc.
  assert (is_json_child (checkpoint_dir_of vm_name)
            (copy2_target w src (checkpoint_dir_of vm_name // disk_file n)) = false)
    as Hnj.
  { unfold copy2_target. destruct (fs w !! _) as [[?|]|];
      auto using is_json_child_disk_file, is_json_child_grandchild. }
  destruct r as [[]|ex].
  - apply copy2_val in Hc as (c & _ & ->). apply metadata_named_insert; auto.
  - apply copy2_exc in Hc as [_ Hc].
    apply (metadata_named_step _ (fs w)); [done |]. intros q.
    destruct (Hc q) as [E|[-> _]]; auto.
Qed.

Lemma preserves_write_json (out : io_outcome) (n : string) (m : gmap string string) :
  m !! "name" = Some n →
  preserves inv (write_json out (checkpoint_dir_of vm_name // metadata_name n) m).
Proof.
  intros Hn w w' r HI Hw. unfold write_json in Hw.
  destruct r as [[]|ex].
  - apply write_file_val in Hw as ->. apply metadata_named_insert; eauto 10.
  - apply write_file_exc in Hw as [_ Hw].
    apply (metadata_named_step _ (fs w)); [done |]. intros q.
    destruct (Hw q) as [E|[_ E]]; auto.
Qed.

Lemma preserves_defineXML (out : define_outcome) (fresh : string) (x : domain_xml) :
  preserves inv (defineXML out fresh x).
Proof.
  intros w w' r HI. unfold defineXML.
  destruct out, (xml_name x); intros [= <- _]; done.
Qed.

Lemma preserves_create_checkpoint (e : env) (n description : string) :
  preserves inv (create_checkpoint e vm_name n description).
Proof.
  unfold create_checkpoint.
  apply preserves_try_except; [| apply preserves_ret].
  apply preserves_bind; [apply preserves_lookupByName | intros domain].
  apply preserves_bind; [apply preserves_XMLDesc | intros xml].
  destruct (find_disk_source _); [| apply preserves_ret].
  apply preserves_bind; [apply preserves_path_exists | intros found].
  destruct (negb found); [apply preserves_ret |].
  apply preserves_bind; [apply preserves_mkdir | intros _].
  apply preserves_bind; [apply preserves_path_exists | intros taken].
  destruct taken; [apply preserves_ret |].
  apply preserves_bind; [apply preserves_copy2_disk | intros _].
  apply preserves_bind; [by apply preserves_write_json | intros _].
  apply preserves_ret.
Qed.

Lemma preserves_switch_checkpoint (e : env) (n : string) :
  preserves inv (switch_checkpoint e vm_name n).
Proof.
  unfold switch_checkpoint.
  apply preserves_try_except; [| apply preserves_ret].
  apply preserves_bind; [apply preserves_lookupByName | intros domain].
  apply preserves_bind; [apply preserves_XMLDesc | intros xml].
  destruct (find_disk_source _); [| apply preserves_ret].
  apply preserves_bind; [apply preserves_path_exists | intros found].
  destruct (negb found); [apply preserves_ret |].
  apply preserves_bind; [apply preserves_mkdir | intros _].
  apply preserves_bind; [apply preserves_path_exists | intros found'].
  destruct (negb found'); [apply preserves_ret |].
  case_bool_decide; [apply preserves_ret |].
  apply preserves_bind.
  - case_bool_decide; [| apply preserves_ret].
    apply preserves_bind; [apply preserves_copy2_disk | intros _].
    by apply preserves_write_json.
  - intros _. apply preserves_bind; [apply preserves_defineXML | intros _].
    apply preserves_ret.
Qed.

Lemma run_ops_metadata_named (ops : list checkpoint_op) (w : world) :
  inv w → inv (run_ops vm_name ops w).
Proof.
  revert w. induction ops as [|op ops IH]; intros w HI; simpl; [done |].
  apply IH. destruct (run_op vm_name op w) as [w' r] eqn:E. simpl.
  destruct op; simpl in E.
  - by eapply preserves_create_checkpoint.
  - by eapply preserves_switch_checkpoint.
Qed.

End MetadataNamed.

(** C4 (at most one active).  After any sequence of [create_checkpoint] and
    [switch_checkpoint] calls on a VM, whatever the environment does in each
    call, [list_checkpoints] returns a list with at most one active entry,
    provided the metadata files found in the checkpoint directory at the
    start are named after the checkpoints they describe (in particular when
    there are none). *)
Theorem at_most_one_active (fromisoformat : string → option datetime)
    (vm_name : string) (ops : list checkpoint_op) (w : world) :
  checkpoints_named vm_name w →
  ∃ l, list_checkpoints fromisoformat vm_name (run_ops vm_name ops w)
         = (run_ops vm_name ops w, Val l) ∧
       count_active l ≤ 1.
Proof.
  intros HI. apply (run_ops_metadata_named vm_name ops) in HI.
  destruct (list_checkpoints_result fromisoformat vm_name (run_ops vm_name ops w))
    as (l & Hl & Hcase).
  exists l. split; [done |].
  destruct Hcase as [->| ->]; [unfold count_active; simpl; lia |].
  rewrite (count_active_Permutation _ _ (sort_newest_first_Permutation _)).
  apply count_active_le_1; [apply glob_json_NoDup |].
  intros q1 q2 n1 c1 n2 c2 Hq1 Hq2 E1 E2.
  destruct (active_entry_file _ _ _ _ _ _ _ HI Hq1 E1) as [-> Hc1].
  destruct (active_entry_file _ _ _ _ _ _ _ HI Hq2 E2) as [-> Hc2].
  assert (checkpoint_dir_of vm_name // disk_file n1
          = checkpoint_dir_of vm_name // disk_file n2) as Hn by congruence.
  apply joinpath_inj, disk_file_inj in Hn. by rewrite Hn.
Qed.

Lemma at_most_one_active_witness :
  ∃ l, list_checkpoints (fun _ => None) "alpha"
         (run_ops "alpha"
            [OpCreate Scenario.calm "snap1" "before upgrade";
             OpSwitch Scenario.calm "snap1";
             OpCreate Scenario.calm "snap2" "after upgrade"]
            Scenario.w_fresh)
       = (run_ops "alpha"
            [OpCreate Scenario.calm "snap1" "before upgrade";
             OpSwitch Scenario.calm "snap1";
             OpCreate Scenario.calm "snap2" "after upgrade"]
            Scenario.w_fresh, Val l) ∧
       count_active l ≤ 1.
Proof.
  apply at_most_one_active.
  unfold checkpoints_named, Scenario.w_fresh, Scenario.fs_fresh. simpl.
  apply metadata_named_insert; [| right; left; by eexists].
  apply (metadata_named_step _ ∅); [apply metadata_named_empty |].
  intros q. destruct (decide (DISK_DIR = q)) as [<-|Hne].
  - right. right. left. by rewrite lookup_insert_eq.
  - left. by rewrite lookup_insert_ne.
Defined.

(** ** delete_checkpoint and the dialog's guard *)

Lemma delete_checkpoint_unfold (e : env) (vm_name checkpoint_name : string) (w : world)
    (c1 c2 : content) :
  let disk := checkpoint_dir_of vm_name // disk_file checkpoint_name in
  let meta := checkpoint_dir_of vm_name // metadata_name checkpoint_name in
  io_unlink_disk e = false → io_unlink_meta e = false →
  fs w !! disk = Some (File c1) → fs w !! meta = Some (File c2) →
  delete_checkpoint e vm_name checkpoint_name w
    = (set_fs (delete meta) (set_fs (delete disk) w), Val true).
Proof.
  intros disk meta Hud Hum Hdisk Hmeta. subst disk meta.
  assert (checkpoint_dir_of vm_name // disk_file checkpoint_name
          ≠ checkpoint_dir_of vm_name // metadata_name checkpoint_name) as Hne.
  { intros H%joinpath_inj. by apply disk_file_ne_metadata_name in H. }
  unfold delete_checkpoint, try_except, unlink. run_step.
  rewrite bool_decide_eq_true_2 by done.
  rewrite Hdisk, Hud. cbn [fs set_fs].
  rewrite lookup_delete_ne by done.
  rewrite bool_decide_eq_true_2 by done.
  cbn [fs set_fs]. rewrite lookup_delete_ne by done.
  by rewrite Hmeta, Hum.
Qed.

(** C2, the claim as stated fails: the service deletes the active checkpoint
    of VM [alpha] and reports success. *)
Lemma delete_checkpoint_removes_active :
  persistent_disk_path Scenario.w_active "alpha" = Some Scenario.snap1_disk ∧
  reported_names (list_checkpoints (fun _ => None) "alpha" Scenario.w_active) = ["snap1"] ∧
  count_active (match (list_checkpoints (fun _ => None) "alpha" Scenario.w_active).2 with
                | Val l => l | Exc _ => [] end) = 1 ∧
  (delete_checkpoint Scenario.calm "alpha" "snap1" Scenario.w_active).2 = Val true ∧
  fs (delete_checkpoint Scenario.calm "alpha" "snap1" Scenario.w_active).1
    !! Scenario.snap1_disk = None ∧
  fs (delete_checkpoint Scenario.calm "alpha" "snap1" Scenario.w_active).1
    !! Scenario.snap1_json = None.
Proof. split_and!; by_compute. Qed.

(** C2, amended: the refusal to delete the active checkpoint is the dialog's.
    When the entry under the cursor of a freshly listed dialog is active (the
    VM's persistent disk path is that checkpoint's disk file), the delete
    handler reports "Cannot delete active checkpoint" and changes nothing, so
    both files stay; [delete_checkpoint] itself checks nothing and removes the
    disk file and the metadata file of any checkpoint it is given. *)
Theorem active_checkpoint_guarded_by_dialog :
  (∀ (fromisoformat : string → option datetime) (e : env)
     (list_snapshots : M (list (string * string))) (confirm : bool)
     (exn_text : exn → string) (vm : string) (d : CheckpointDialog.t) (w : world)
     (n created : string),
     list_checkpoints fromisoformat vm w = (w, Val (CheckpointDialog.checkpoints d)) →
     CheckpointDialog.checkpoints d !! CheckpointDialog.cursor_index d
       = Some (n, created, true) →
     persistent_disk_path w vm = Some (checkpoint_dir_of vm // disk_file n) ∧
     CheckpointDialog._delete_checkpoint
       (app_callbacks e fromisoformat list_snapshots vm) confirm exn_text d w
       = (w, Val (CheckpointDialog._set_status
                    "Cannot delete active checkpoint" "error" d))) ∧
  (∀ (e : env) (vm n : string) (w : world) (c1 c2 : content),
     io_unlink_disk e = false → io_unlink_meta e = false →
     fs w !! (checkpoint_dir_of vm // disk_file n) = Some (File c1) →
     fs w !! (checkpoint_dir_of vm // metadata_name n) = Some (File c2) →
     ∃ w', delete_checkpoint e vm n w = (w', Val true) ∧
           fs w' !! (checkpoint_dir_of vm // disk_file n) = None ∧
           fs w' !! (checkpoint_dir_of vm // metadata_name n) = None ∧
           domains w' = domains w).
Proof.
  split.
  - intros fromisoformat e list_snapshots confirm exn_text vm d w n created Hl Hcur.
    split.
    + eapply list_checkpoints_active; [exact Hl |].
      by eapply list_elem_of_lookup_2.
    + unfold CheckpointDialog._delete_checkpoint. by rewrite Hcur.
  - intros e vm n w c1 c2 Hud Hum Hdisk Hmeta.
    eexists. split; [by eapply delete_checkpoint_unfold |].
    cbn [fs set_fs domains]. split_and!; [| by rewrite lookup_delete_eq | done].
    rewrite lookup_delete_ne; [by rewrite lookup_delete_eq |].
    intros H%joinpath_inj. symmetry in H. by apply disk_file_ne_metadata_name in H.
Qed.

Lemma active_checkpoint_guarded_witness :
  let d := {| CheckpointDialog.vm_name := "alpha";
              CheckpointDialog.checkpoints := [("snap1", "2026-11-03T09:05:07", true)];
              CheckpointDialog.snapshots := [];
              CheckpointDialog.mode := "checkpoint";
              CheckpointDialog.cursor_index := 0;
              CheckpointDialog.status_message := EmptyString;
              CheckpointDialog.status_type := "info" |} in
  (persistent_disk_path Scenario.w_active "alpha" = Some Scenario.snap1_disk ∧
   CheckpointDialog._delete_checkpoint
     (app_callbacks Scenario.calm (fun _ => None) (ret []) "alpha") true
     (fun _ => "error") d Scenario.w_active
     = (Scenario.w_active,
        Val (CheckpointDialog._set_status "Cannot delete active checkpoint" "error" d))) ∧
  ∃ w', delete_checkpoint Scenario.calm "alpha" "snap1" Scenario.w_original
          = (w', Val true) ∧
        fs w' !! Scenario.snap1_disk = None ∧
        fs w' !! Scenario.snap1_json = None ∧
        domains w' = domains Scenario.w_original.
Proof.
  intros d. split.
  - apply (proj1 active_checkpoint_guarded_by_dialog (fun _ => None) Scenario.calm
             (ret []) true (fun _ => "error") "alpha" d Scenario.w_active
             "snap1" "2026-11-03T09:05:07"); by_compute.
  - apply (proj2 active_checkpoint_guarded_by_dialog Scenario.calm "alpha" "snap1"
             Scenario.w_original Scenario.content_S (JsonObject Scenario.snap1_metadata));
      by_compute.
Defined.

(** ** separate_checkpoint_to_vm *)

(** C3, the code at the failing input: promoting checkpoint [snap1] of
    [alpha] to a new VM [beta] whose definition fails.  When [defineXML]
    raises, the disk stays at the new VM's path and the checkpoint's disk and
    metadata are gone; when it hands back [None], the disk is moved back but
    the metadata, unlinked before the define, is gone.  Either way the
    checkpoint, listed before, is no longer listed. *)
Theorem separate_define_failure_loses_checkpoint (fromisoformat : string → option datetime) :
  let raising := Scenario.with_define DefineRaises Scenario.calm in
  let refusing := Scenario.with_define DefineNone Scenario.calm in
  let w := Scenario.w_original in
  let w1 := (separate_checkpoint_to_vm raising "snap1" "beta" "alpha" w).1 in
  let w2 := (separate_checkpoint_to_vm refusing "snap1" "beta" "alpha" w).1 in
  reported_names (list_checkpoints fromisoformat "alpha" w) = ["snap1"] ∧
  ((separate_checkpoint_to_vm raising "snap1" "beta" "alpha" w).2 = Val false ∧
   fs w1 !! Scenario.snap1_disk = None ∧
   fs w1 !! Scenario.beta_disk = Some (File Scenario.content_S) ∧
   fs w1 !! Scenario.snap1_json = None ∧
   reported_names (list_checkpoints fromisoformat "alpha" w1) = []) ∧
  ((separate_checkpoint_to_vm refusing "snap1" "beta" "alpha" w).2 = Val false ∧
   fs w2 !! Scenario.snap1_disk = Some (File Scenario.content_S) ∧
   fs w2 !! Scenario.beta_disk = None ∧
   fs w2 !! Scenario.snap1_json = None ∧
   reported_names (list_checkpoints fromisoformat "alpha" w2) = []).
Proof. split_and!; by_compute. Qed.

(** * Further properties of the checkpoint operations *)

(** ** Frames *)

Lemma frame_refl (S : Path → Prop) (w : world) : frame S w w.
Proof. split; [done | by left]. Qed.

Lemma frame_trans (S : Path → Prop) (w1 w2 w3 : world) :
  frame S w1 w2 → frame S w2 w3 → frame S w1 w3.
Proof.
  intros [Hd1 H1] [Hd2 H2]. split; [congruence |]. intros p Hp.
  destruct (H1 p Hp) as [E1|[N1 D1]], (H2 p Hp) as [E2|[N2 D2]].
  - left. congruence.
  - right. split; congruence.
  - right. split; congruence.
  - congruence.
Qed.

Lemma frame_mono (S S' : Path → Prop) (w w' : world) :
  (∀ p, S p → S' p) → frame S w w' → frame S' w w'.
Proof. intros Hsub [Hd H]. split; [done |]. intros p Hp. apply H. auto. Qed.

Lemma grows_dirs_frame (S : Path → Prop) (w w' : world) : grows_dirs w w' → frame S w w'.
Proof. intros [Hd H]. split; [done |]. intros p _. apply H. Qed.

Lemma frame_insert (S : Path → Prop) (p : Path) (n : node) (w : world) :
  S p → frame S w (set_fs (insert p n) w).
Proof.
  intros Hp. split; [done |]. intros q Hq. left. simpl.
  apply lookup_insert_ne. by intros ->.
Qed.

Lemma frame_delete (S : Path → Prop) (p : Path) (w : world) :
  S p → frame S w (set_fs (delete p) w).
Proof.
  intros Hp. split; [done |]. intros q Hq. left. simpl.
  apply lookup_delete_ne. by intros ->.
Qed.

Lemma write_file_frame (S : Path → Prop) (out : io_outcome) (dst : Path) (c : content)
    (w w' : world) (r : outcome unit) :
  S dst → write_file out dst c w = (w', r) → frame S w w'.
Proof.
  intros HS H. destruct r as [[]|ex].
  - apply write_file_val in H as ->. by apply frame_insert.
  - apply write_file_exc in H as [Hd H]. split; [done |]. intros q Hq.
    destruct (H q) as [E|[-> _]]; [by left | done].
Qed.

Lemma copy2_frame (S : Path → Prop) (out : io_outcome) (src dst : Path)
    (w w' : world) (r : outcome unit) :
  S (copy2_target w src dst) → copy2 out src dst w = (w', r) → frame S w w'.
Proof.
  intros HS. rewrite copy2_unfold.
  destruct (fs w !! src) as [[c|]|]; try (intros [= <- _]; apply frame_refl).
  case_bool_decide; [intros [= <- _]; apply frame_refl |].
  by apply write_file_frame.
Qed.

Lemma defineXML_fs (out : define_outcome) (fresh : string) (x : domain_xml)
    (w w' : world) (r : outcome (option string)) :
  defineXML out fresh x w = (w', r) → fs w' = fs w.
Proof. unfold defineXML. destruct out, (xml_name x); by intros [= <- _]. Qed.

(** ** create_checkpoint, continued *)

(** A [<source>] without [file] attribute gives [Path("")], the current
    directory, which exists: [create_checkpoint] goes on to create the
    checkpoint directory, and returns [False] only when the copy raises. *)
Lemma create_checkpoint_source_without_file :
  let r := create_checkpoint Scenario.calm "alpha" "snap1" "before upgrade" w_no_file in
  described_disk_path w_no_file "alpha" XML_DEFAULT = Some [] ∧
  r.2 = Val false ∧
  fs w_no_file !! Scenario.alpha_dir = None ∧
  fs r.1 !! Scenario.alpha_dir = Some Dir ∧
  fs r.1 !! (Scenario.alpha_dir // disk_file "snap1") = None.
Proof. split_and!; by_compute. Qed.

(** X1 ([create_checkpoint], nothing to copy).  When the document
    [XMLDesc()] gives for the VM names no disk (the VM is not defined, or it
    has no disk of device type disk with a source), or names a disk path,
    other than the empty path, at which nothing exists, [create_checkpoint]
    returns [False] and the filesystem and the domain definitions are exactly
    as before: not even the checkpoint directory is created.  (The empty
    path, which a source without [file] attribute gives, is the current
    directory and exists.) *)
Theorem create_checkpoint_refuses_without_source (e : env)
    (vm_name checkpoint_name description : string) (w : world) :
  described_disk_path w vm_name XML_DEFAULT = None ∨
  (∃ src, described_disk_path w vm_name XML_DEFAULT = Some src ∧
          src ≠ [] ∧ fs w !! src = None) →
  create_checkpoint e vm_name checkpoint_name description w = (w, Val false).
Proof.
  unfold described_disk_path, create_checkpoint, try_except. run_step.
  destruct (domains w !! vm_name) as [d|] eqn:Hd; simpl; [| done].
  rewrite ?Hd; simpl.
  destruct (find_disk_source _) as [s|]; simpl; [| done].
  intros [[=]|(src & [= <-] & Hsrc & Hnone)].
  destruct (default [] (src_file s)) as [|a src]; [done |].
  simpl. by rewrite Hnone.
Qed.

(** X2 ([create_checkpoint], what it may touch).  For a VM name and a
    checkpoint name that are single path components, whatever the
    environment does and whatever the call returns, [create_checkpoint]
    leaves every domain definition as it was, and every path other than
    [<name>.qcow2] and [<name>.json] of the new checkpoint either keeps what
    it held or, having been absent, has become a directory (the checkpoint
    directory and its missing ancestors). *)
Theorem create_checkpoint_frame (e : env) (vm_name checkpoint_name description : string)
    (w w' : world) (r : outcome bool) :
  is_component vm_name = true → is_plain checkpoint_name = true →
  create_checkpoint e vm_name checkpoint_name description w = (w', r) →
  frame (fun p => p = checkpoint_dir_of vm_name // disk_file checkpoint_name ∨
                  p = checkpoint_dir_of vm_name // metadata_name checkpoint_name)
        w w'.
Proof.
  intros _ _.
  set (S := fun p => p = checkpoint_dir_of vm_name // disk_file checkpoint_name ∨
                     p = checkpoint_dir_of vm_name // metadata_name checkpoint_name).
  unfold create_checkpoint, try_except. run_step.
  destruct (domains w !! vm_name) as [d|] eqn:Hd; simpl.
  2: { intros [= <- _]. apply frame_refl. }
  rewrite ?Hd; simpl.
  destruct (find_disk_source _) as [s|]; simpl.
  2: { intros [= <- _]. apply frame_refl. }
  source_exists. destruct (_ || _); simpl.
  2: { intros [= <- _]. apply frame_refl. }
  destruct (mkdir _ _ w) as [w1 [[]|ex]] eqn:Hm; simpl.
  2: { intros [= <- _]. by eapply grows_dirs_frame, mkdir_grows. }
  apply mkdir_grows in Hm. pose proof (grows_dirs_frame S _ _ Hm) as Hf1.
  case_bool_decide as Htaken; simpl.
  { intros [= <- _]. exact Hf1. }
  apply not_is_Some_None in Htaken.
  assert (∀ w2 r2, copy2 (io_copy e) (default [] (src_file s))
                     (checkpoint_dir_of vm_name // disk_file checkpoint_name) w1
                   = (w2, r2) → frame S w w2) as Hcopy.
  { intros w2 r2 Hc. eapply frame_trans; [exact Hf1 |].
    eapply copy2_frame; [| exact Hc].
    unfold copy2_target. rewrite Htaken. by left. }
  destruct (copy2 _ _ _ w1) as [w2 [[]|ex]] eqn:Hc; simpl.
  2: { intros [= <- _]. by eapply Hcopy. }
  pose proof (Hcopy _ _ eq_refl) as Hf2.
  destruct (write_json _ _ _ w2) as [w3 [[]|ex]] eqn:Hw; simpl;
    intros [= <- _]; (eapply frame_trans; [exact Hf2 |]);
    (eapply write_file_frame; [| exact Hw]); by right.
Qed.

Lemma create_checkpoint_refuses_witness :
  create_checkpoint Scenario.calm "ghost" "snap1" "none" Scenario.w_original
    = (Scenario.w_original, Val false).
Proof. apply create_checkpoint_refuses_without_source. left. by_compute. Defined.

Lemma create_checkpoint_frame_witness :
  frame (fun p => p = checkpoint_dir_of "alpha" // disk_file "snap2" ∨
                  p = checkpoint_dir_of "alpha" // metadata_name "snap2")
        Scenario.w_original
        (create_checkpoint Scenario.calm "alpha" "snap2" "second" Scenario.w_original).1.
Proof.
  apply (create_checkpoint_frame Scenario.calm "alpha" "snap2" "second"
           Scenario.w_original _ (Val true)); by_compute.
Defined.

(** ** list_checkpoints, continued *)

Lemma glob_json_elem_iff (d q : Path) (f : gmap Path node) :
  q ∈ glob_json d f ↔
  f !! d = Some Dir ∧ is_Some (f !! q) ∧ is_json_child d q = true.
Proof.
  unfold glob_json. split.
  - destruct (f !! d) as [[?|]|]; try by intros ?%elem_of_nil.
    intros [Hj Hin]%list_elem_of_filter. split_and!; [done | | by apply Is_true_true].
    apply list_elem_of_fmap in Hin as ([q' n] & -> & Hin).
    apply elem_of_map_to_list in Hin. eauto.
  - intros (-> & [n Hn] & Hj). apply list_elem_of_filter. split.
    + by apply Is_true_true.
    + apply list_elem_of_fmap. exists (q, n). split; [done |].
      by apply elem_of_map_to_list.
Qed.

(** Every readable metadata file of the checkpoint directory of a defined VM
    gives an entry of the list. *)
Lemma list_checkpoints_lists (fromisoformat : string → option datetime)
    (vm_name : string) (w : world) :
  is_Some (domains w !! vm_name) →
  fs w !! checkpoint_dir_of vm_name = Some Dir →
  ∃ l, list_checkpoints fromisoformat vm_name w = (w, Val l) ∧
       ∀ s x, ends_with ".json" s = true →
              read_entry fromisoformat (checkpoint_dir_of vm_name)
                (persistent_disk_path w vm_name) (fs w)
                (checkpoint_dir_of vm_name // s) = Some x →
              x ∈ l.
Proof.
  intros [d Hd] Hdir.
  unfold list_checkpoints, try_except, persistent_disk_path, described_disk_path.
  run_step. rewrite Hd; simpl. rewrite Hd; simpl.
  rewrite bool_decide_eq_true_2 by (rewrite Hdir; eauto). simpl.
  eexists. split; [done |]. intros s x Hs Hx.
  rewrite sort_newest_first_Permutation, list_elem_of_omap.
  exists (checkpoint_dir_of vm_name // s). split.
  - apply glob_json_elem_iff. split_and!; [done | |].
    + unfold read_entry in Hx.
      destruct (fs w !! (checkpoint_dir_of vm_name // s)) as [n|]; [by exists n | done].
    + unfold is_json_child. by rewrite child_of_joinpath.
  - rewrite <- Hx. done.
Qed.

(** Every entry of the list is read from a metadata file of the checkpoint
    directory. *)
Lemma list_checkpoints_elem (fromisoformat : string → option datetime)
    (vm_name : string) (w w' : world) (l : list (string * string * bool))
    (x : string * string * bool) :
  list_checkpoints fromisoformat vm_name w = (w', Val l) → x ∈ l →
  ∃ s, ends_with ".json" s = true ∧
       read_entry fromisoformat (checkpoint_dir_of vm_name)
         (persistent_disk_path w vm_name) (fs w) (checkpoint_dir_of vm_name // s)
         = Some x.
Proof.
  intros Hl Hin.
  destruct (list_checkpoints_result fromisoformat vm_name w) as (l' & Hl' & Hcase).
  rewrite Hl' in Hl. injection Hl as _ <-.
  destruct Hcase as [->| ->]; [by apply elem_of_nil in Hin |].
  rewrite sort_newest_first_Permutation in Hin.
  apply list_elem_of_omap in Hin as (q & Hq%glob_json_elem & Hx).
  unfold is_json_child in Hq.
  destruct (child_of _ q) as [s|] eqn:Hs; [| done].
  apply child_of_Some in Hs as ->. eauto.
Qed.

Lemma read_entry_Some (fromisoformat : string → option datetime) (dir : Path)
    (cur : option Path) (f : gmap Path node) (q : Path) (x : string * string * bool) :
  read_entry fromisoformat dir cur f q = Some x →
  ∃ m, f !! q = Some (File (JsonObject m)) ∧ x.1.1 = default (stem q) (m !! "name").
Proof.
  unfold read_entry. destruct (f !! q) as [[[?|m]|]|]; try done.
  intros [= <-]. eauto.
Qed.

(** X5 ([list_checkpoints], the names listed).  For a defined VM whose
    checkpoint directory exists, a call of [list_checkpoints] that returns a
    list has changed nothing, and the names in the list are exactly the names
    carried by the files [<s>.json] of that directory that hold a JSON
    object (the field [name], or the file's stem when the object has none):
    a checkpoint is listed whether or not its disk file exists, and a
    [.json] file that [json.load] rejects gives no entry. *)
Theorem list_checkpoints_entries (fromisoformat : string → option datetime)
    (vm_name : string) (w w' : world) (l : list (string * string * bool)) :
  is_component vm_name = true →
  is_Some (domains w !! vm_name) →
  fs w !! checkpoint_dir_of vm_name = Some Dir →
  list_checkpoints fromisoformat vm_name w = (w', Val l) →
  w' = w ∧
  ∀ n, n ∈ (fun x : string * string * bool => x.1.1) <$> l ↔
       ∃ s m, ends_with ".json" s = true ∧
              fs w !! (checkpoint_dir_of vm_name // s) = Some (File (JsonObject m)) ∧
              n = default (stem (checkpoint_dir_of vm_name // s)) (m !! "name").
Proof.
  intros _ Hdom Hdir Hlist.
  destruct (list_checkpoints_lists fromisoformat vm_name w Hdom Hdir) as (l' & Hl & Hin).
  rewrite Hl in Hlist. injection Hlist as <- <-. split; [done |].
  intros n. rewrite list_elem_of_fmap. split.
  - intros (x & -> & Hx).
    destruct (list_checkpoints_elem _ _ _ _ _ _ Hl Hx) as (s & Hs & Hread).
    apply read_entry_Some in Hread as (m & Hm & Hname). eauto 10.
  - intros (s & m & Hs & Hm & ->).
    eexists. split; [| eapply (Hin s); [exact Hs |]].
    2: { unfold read_entry. rewrite Hm. reflexivity. }
    done.
Qed.

Lemma list_checkpoints_entries_witness :
  Scenario.w_original = Scenario.w_original ∧
  ∀ n, n ∈ (fun x : string * string * bool => x.1.1)
             <$> [("snap1", "2026-11-03T09:05:07", false)] ↔
       ∃ s m, ends_with ".json" s = true ∧
              fs Scenario.w_original !! (checkpoint_dir_of "alpha" // s)
                = Some (File (JsonObject m)) ∧
              n = default (stem (checkpoint_dir_of "alpha" // s)) (m !! "name").
Proof.
  apply (list_checkpoints_entries (fun _ => None) "alpha" Scenario.w_original); by_compute.
Defined.


Lemma string_ltb_leb (a b : string) : String.ltb a b = true → String.leb a b = true.
Proof. unfold String.ltb, String.leb. by destruct (String.compare a b). Qed.

Lemma string_not_ltb_leb (a b : string) : String.ltb a b = false → String.leb b a = true.
Proof.
  unfold String.ltb, String.leb. rewrite (String.compare_antisym b a).
  by destruct (String.compare a b).
Qed.

Lemma insert_desc_Sorted (x : string * string * bool) (l : list (string * string * bool)) :
  Sorted newest_first l → Sorted newest_first (insert_desc x l).
Proof.
  induction l as [|y l IH]; intros Hs; simpl.
  - by repeat constructor.
  - apply Sorted_inv in Hs as [Hs Hhd].
    destruct (String.ltb (sort_key x) (sort_key y)) eqn:Hlt.
    + constructor; [by apply IH |].
      destruct l as [|z l]; simpl.
      * constructor. by apply Is_true_true, string_ltb_leb.
      * destruct (String.ltb (sort_key x) (sort_key z)).
        -- constructor. by apply HdRel_inv in Hhd.
        -- constructor. by apply Is_true_true, string_ltb_leb.
    + constructor; [by constructor |].
      constructor. by apply Is_true_true, string_not_ltb_leb.
Qed.

Lemma sort_newest_first_Sorted (l : list (string * string * bool)) :
  Sorted newest_first (sort_newest_first l).
Proof.
  unfold sort_newest_first. induction l as [|x l IH]; simpl; [constructor |].
  by apply insert_desc_Sorted.
Qed.

#[local] Instance newest_first_trans : Transitive newest_first.
Proof. intros x y z Hxy Hyz. unfold newest_first in *. by etrans. Qed.

Lemma StronglySorted_lookup_lt {A} (R : relation A) (l : list A) (i j : nat) (a b : A) :
  StronglySorted R l → i < j → l !! i = Some a → l !! j = Some b → R a b.
Proof.
  intros Hs. revert i j. induction Hs as [|x l Hs IH Hall]; intros i j Hij Ha Hb.
  - done.
  - destruct i as [|i], j as [|j]; try lia; simpl in *.
    + injection Ha as <-. rewrite Forall_forall in Hall. apply Hall.
      by eapply list_elem_of_lookup_2.
    + eapply (IH i j); [lia | done | done].
Qed.


(** X7 ([list_checkpoints], the order).  The list [list_checkpoints] returns
    is sorted by the displayed creation time, largest first: of two entries,
    the one at the later position has a creation string that is less than or
    equal to that of the earlier one (comparison of strings, character by
    character). *)
Theorem list_checkpoints_newest_first (fromisoformat : string → option datetime)
    (vm_name : string) (w w' : world) (l : list (string * string * bool))
    (i j : nat) (a b : string * string * bool) :
  list_checkpoints fromisoformat vm_name w = (w', Val l) →
  i < j → l !! i = Some a → l !! j = Some b →
  String.leb (sort_key b) (sort_key a) = true.
Proof.
  intros Hl Hij Ha Hb.
  destruct (list_checkpoints_result fromisoformat vm_name w) as (l' & Hl' & Hcase).
  rewrite Hl' in Hl. injection Hl as _ <-.
  destruct Hcase as [->| ->]; [done |].
  apply Is_true_true.
  change (newest_first a b).
  eapply StronglySorted_lookup_lt; [| exact Hij | exact Ha | exact Hb].
  apply Sorted_StronglySorted; [apply _ | apply sort_newest_first_Sorted].
Qed.

Lemma list_checkpoints_newest_first_witness :
  String.leb (sort_key ("snap1", "2026-11-03T09:05:07", false))
             (sort_key ("snap2", "2026-11-04T08:30:00", false)) = true.
Proof.
  pose (w1 := (create_checkpoint (with_clock t1 Scenario.calm) "alpha" "snap2" "second"
                 Scenario.w_original).1).
  apply (list_checkpoints_newest_first (fun _ => None) "alpha" w1 w1
           [("snap2", "2026-11-04T08:30:00", false);
            ("snap1", "2026-11-03T09:05:07", false)] 0 1).
  - reflexivity.
  - lia.
  - reflexivity.
  - reflexivity.
Defined.

(** ** Composing create, list and switch *)

Lemma write_file_val_parent (out : io_outcome) (dst : Path) (c : content) (w w' : world)
    (u : unit) :
  write_file out dst c w = (w', Val u) → fs w !! parent dst = Some Dir.
Proof.
  unfold write_file. intros H.
  destruct (fs w !! dst) as [[?|]|], (fs w !! parent dst) as [[?|]|], out;
    by simplify_eq.
Qed.

(** After a successful [create_checkpoint] the checkpoint directory is a
    directory and the VM is defined. *)
Lemma create_checkpoint_true_dir (e : env) (vm_name checkpoint_name description : string)
    (w w' : world) :
  create_checkpoint e vm_name checkpoint_name description w = (w', Val true) →
  fs w' !! checkpoint_dir_of vm_name = Some Dir ∧ is_Some (domains w' !! vm_name).
Proof.
  unfold create_checkpoint, try_except. run_step.
  destruct (domains w !! vm_name) as [d|] eqn:Hd; simpl; [| done].
  rewrite ?Hd; simpl.
  destruct (find_disk_source _) as [s|]; simpl; [| done].
  source_exists. destruct (_ || _); simpl; [| done].
  destruct (mkdir _ _ w) as [w1 [[]|ex]] eqn:Hm; simpl; [| done].
  apply mkdir_grows in Hm as [Hdom _].
  case_bool_decide; simpl; [done |].
  destruct (copy2 _ _ _ w1) as [w2 [[]|ex]] eqn:Hc; simpl; [| done].
  destruct (write_json _ _ _ w2) as [w3 [[]|ex]] eqn:Hw; simpl; [| done].
  intros [= <-].
  apply copy2_val in Hc as (c & _ & ->).
  pose proof (write_file_val_parent _ _ _ _ _ _ Hw) as Hp.
  apply write_file_val in Hw as ->.
  rewrite parent_checkpoint_entry in Hp.
  split.
  - cbn [fs set_fs]. rewrite lookup_insert_ne by apply joinpath_ne. done.
  - cbn [domains set_fs]. rewrite Hdom, Hd. eauto.
Qed.

(** How a creation time is displayed. *)
Lemma read_entry_metadata (fromisoformat : string → option datetime) (dir : Path)
    (cur : option Path) (f : gmap Path node) (q : Path) (m : gmap string string)
    (n : string) :
  f !! q = Some (File (JsonObject m)) → m !! "name" = Some n →
  read_entry fromisoformat dir cur f q
    = Some (n, display_created fromisoformat (default EmptyString (m !! "created")),
            bool_decide (cur = Some (dir // disk_file n))).
Proof. intros Hq Hn. unfold read_entry, display_created. by rewrite Hq, Hn. Qed.

Lemma checkpoint_metadata_name (n description : string) (now : datetime) (p : Path)
    (vm : string) :
  checkpoint_metadata n description now p vm !! "name" = Some n.
Proof. done. Qed.

Lemma checkpoint_metadata_created (n description : string) (now : datetime) (p : Path)
    (vm : string) :
  checkpoint_metadata n description now p vm !! "created" = Some (isoformat now).
Proof. done. Qed.

(** X3 (create, then list).  For a VM name and a checkpoint name that are
    single path components: after a [create_checkpoint] that returned [True],
    a list that [list_checkpoints] returns on the resulting state holds an
    entry with the new checkpoint's name, whose creation time is the
    displayed form of the time the checkpoint was created at. *)
Theorem create_checkpoint_then_listed (fromisoformat : string → option datetime) (e : env)
    (vm_name checkpoint_name description : string) (w w' w'' : world)
    (l : list (string * string * bool)) :
  is_component vm_name = true → is_plain checkpoint_name = true →
  create_checkpoint e vm_name checkpoint_name description w = (w', Val true) →
  list_checkpoints fromisoformat vm_name w' = (w'', Val l) →
  ∃ active,
    (checkpoint_name,
     display_created fromisoformat (isoformat (clock_name e)),
     active) ∈ l.
Proof.
  intros _ _ Hrun Hlist.
  destruct (create_checkpoint_true_dir _ _ _ _ _ _ Hrun) as [Hdir Hdom].
  apply create_checkpoint_true in Hrun as (src & c & w1 & _ & _ & _ & _ & ->).
  destruct (list_checkpoints_lists fromisoformat vm_name _ Hdom Hdir)
    as (l' & Hl & Hin).
  rewrite Hl in Hlist. injection Hlist as _ <-.
  eexists.
  apply (Hin (metadata_name checkpoint_name)); [apply metadata_name_is_json |].
  erewrite read_entry_metadata;
    [| cbn [fs set_fs]; by rewrite lookup_insert_eq | apply checkpoint_metadata_name].
  by rewrite checkpoint_metadata_created.
Qed.

Lemma create_checkpoint_then_listed_witness :
  let w' := (create_checkpoint Scenario.calm "alpha" "snap1" "before upgrade"
               Scenario.w_fresh).1 in
  ∃ active,
    ("snap1", display_created (fun _ => None) (isoformat (clock_name Scenario.calm)),
     active) ∈ [("snap1", "2026-11-03T09:05:07", false)].
Proof.
  intros w'.
  apply (create_checkpoint_then_listed (fun _ => None) Scenario.calm "alpha" "snap1"
           "before upgrade" Scenario.w_fresh w' w').
  - by_compute.
  - by_compute.
  - by_compute.
  - reflexivity.
Defined.

Lemma create_checkpoint_taken (e : env) (vm_name checkpoint_name description : string)
    (w : world) :
  is_Some (fs w !! (checkpoint_dir_of vm_name // disk_file checkpoint_name)) →
  ∃ w', create_checkpoint e vm_name checkpoint_name description w = (w', Val false).
Proof.
  intros [n Hn]. unfold create_checkpoint, try_except. run_step.
  destruct (domains w !! vm_name) as [d|] eqn:Hd; simpl; [| by eexists].
  rewrite ?Hd; simpl. destruct (find_disk_source _) as [s|]; simpl; [| by eexists].
  source_exists. destruct (_ || _); simpl; [| by eexists].
  destruct (mkdir _ _ w) as [w1 [[]|ex]] eqn:Hm; simpl; [| by eexists].
  apply mkdir_grows in Hm.
  rewrite (grows_dirs_keeps _ _ _ _ Hm Hn).
  rewrite bool_decide_eq_true_2 by eauto. by eexists.
Qed.



(** ** switch_checkpoint, continued *)

(** Every run of [switch_checkpoint] ends as [switch_result] says. *)
Lemma switch_checkpoint_trace (e : env) (vm_name checkpoint_name : string)
    (w w' : world) (r : outcome bool) :
  switch_checkpoint e vm_name checkpoint_name w = (w', r) →
  switch_result vm_name checkpoint_name (clock_name e) w w' r.
Proof.
  set (S := auto_saved_paths vm_name (clock_name e)).
  revert w' r.
  set (Q := switch_result vm_name checkpoint_name (clock_name e) w).
  assert (∀ b w3, frame S w w3 → Q w3 (Val b)) as Hstop.
  { intros b w3 Hf. exists b, w3. split_and!; [done | done | done |]. left. apply Hf. }
  assert (∀ d s w3,
            domains w !! vm_name = Some d →
            find_disk_source (dom_persistent d) = Some s →
            frame S w w3 →
            Q (set_domains (insert vm_name
                 {| dom_uuid := dom_uuid d;
                    dom_persistent :=
                      set_disk_source_file
                        (checkpoint_dir_of vm_name // disk_file checkpoint_name)
                        (dom_persistent d);
                    dom_live := domains w3 !! vm_name ≫= dom_live |}) w3)
              (Val true)) as Hdefined.
  { intros d s w3 Hd Hs Hf3. exists true, w3. split_and!; [done | done | done |].
    right. split; [done |]. exists d. destruct Hf3 as [Hdom3 _].
    split_and!; [done | by rewrite Hs |].
    cbn [domains set_domains]. rewrite Hdom3, Hd. done. }
  clearbody Q. intros w' r.
  unfold switch_checkpoint, try_except. run_step.
  destruct (domains w !! vm_name) as [d|] eqn:Hd; simpl.
  2: { intros [= <- <-]. apply Hstop, frame_refl. }
  rewrite ?Hd; simpl.
  destruct (find_disk_source _) as [s|] eqn:Hs; simpl.
  2: { intros [= <- <-]. apply Hstop, frame_refl. }
  source_exists. destruct (_ || _); cbn [negb].
  2: { intros [= <- <-]. apply Hstop, frame_refl. }
  destruct (mkdir _ _ w) as [w1 [[]|ex]] eqn:Hm.
  2: { intros [= <- <-]. by eapply Hstop, grows_dirs_frame, mkdir_grows. }
  apply mkdir_grows in Hm. pose proof (grows_dirs_frame S _ _ Hm) as Hf1.
  case_bool_decide; cbn [negb].
  2: { intros [= <- <-]. by apply Hstop. }
  case_bool_decide.
  { intros [= <- <-]. by apply Hstop. }
  case_bool_decide as Hout; simpl.
  - destruct (copy2 _ _ _ w1) as [w2 [[]|ex]] eqn:Hc; simpl.
    2: { intros [= <- <-]. apply Hstop. eapply frame_trans; [exact Hf1 |].
         eapply copy2_frame; [| exact Hc]. unfold S, auto_saved_paths, copy2_target.
         destruct (fs w1 !! (checkpoint_dir_of vm_name // disk_file (auto_name (clock_name e))))
           as [[?|]|]; [by left | right; right; by eexists | by left]. }
    assert (frame S w w2) as Hf2.
    { eapply frame_trans; [exact Hf1 |].
      eapply copy2_frame; [| exact Hc]. unfold S, auto_saved_paths, copy2_target.
      destruct (fs w1 !! (checkpoint_dir_of vm_name // disk_file (auto_name (clock_name e))))
        as [[?|]|]; [by left | right; right; by eexists | by left]. }
    destruct (write_json _ _ _ w2) as [w3 [[]|ex]] eqn:Hw; simpl.
    2: { intros [= <- <-]. apply Hstop. eapply frame_trans; [exact Hf2 |].
         eapply write_file_frame; [| exact Hw]. right. by left. }
    assert (frame S w w3) as Hf3.
    { eapply frame_trans; [exact Hf2 |].
      eapply write_file_frame; [| exact Hw]. right. by left. }
    unfold defineXML. simpl. destruct (virt_define e); simpl; intros [= <- <-].
    + by eapply Hdefined.
    + by apply Hstop.
    + by apply Hstop.
  - unfold defineXML. simpl. destruct (virt_define e); simpl; intros [= <- <-].
    + by eapply Hdefined.
    + by apply Hstop.
    + by apply Hstop.
Qed.

Lemma mkdir_val_dir (fails : bool) (p : Path) (w w' : world) (u : unit) :
  p ≠ [] → mkdir fails p w = (w', Val u) → fs w' !! p = Some Dir.
Proof.
  intros Hp. unfold mkdir.
  rewrite <- (rev_involutive p) at 2.
  destruct (rev p) as [|s rp] eqn:Hrev.
  { apply (f_equal (@rev string)) in Hrev. rewrite rev_involutive in Hrev. done. }
  unfold mkdir_rev; fold mkdir_rev.
  destruct (fs w !! rev (s :: rp)) as [[c|]|] eqn:E.
  - done.
  - by intros [= <- _].
  - destruct (fs w !! rev rp) as [[c|]|].
    + done.
    + destruct fails; [done |]. intros [= <- _]. simpl. apply lookup_insert_eq.
    + destruct (mkdir_rev fails rp w) as [w1 [[]|ex]]; [| done].
      destruct fails; [done |]. intros [= <- _]. simpl. apply lookup_insert_eq.
Qed.

Lemma disk_file_ne_metadata_name' (a b : string) : disk_file a ≠ metadata_name b.
Proof.
  intros H. pose proof (disk_file_not_json a) as Hd.
  rewrite H, metadata_name_is_json in Hd. done.
Qed.

Lemma metadata_name_inj (a b : string) : metadata_name a = metadata_name b → a = b.
Proof. apply app_string_inj_r. Qed.

Lemma joinpath_inj_l (p q : Path) (a b : string) : p // a = q // b → p = q ∧ a = b.
Proof.
  unfold joinpath. intros H. apply app_inj_2 in H as [-> [= ->]]; done.
Qed.

Lemma entry_ne_nested (d : Path) (a b s : string) : d // a ≠ d // b // s.
Proof.
  unfold joinpath. intros H. apply (f_equal length) in H.
  rewrite !length_app in H. simpl in H. lia.
Qed.

Lemma copy2_target_cases (w : world) (src dst : Path) :
  copy2_target w src dst = dst ∨ copy2_target w src dst = dst // name src.
Proof. unfold copy2_target. destruct (fs w !! dst) as [[?|]|]; auto. Qed.

(** What a successful [switch_checkpoint] leaves behind, in every branch. *)
Lemma switch_checkpoint_true (e : env) (vm_name checkpoint_name : string) (w w' : world) :
  let dir := checkpoint_dir_of vm_name in
  switch_checkpoint e vm_name checkpoint_name w = (w', Val true) →
  fs w' !! dir = Some Dir ∧
  is_Some (domains w' !! vm_name) ∧
  (virt_define e ≠ DefineNone →
   persistent_disk_path w' vm_name = Some (dir // disk_file checkpoint_name)) ∧
  (∀ n m, fs w !! (dir // metadata_name n) = Some (File (JsonObject m)) →
          m !! "name" = Some n →
          ∃ m', fs w' !! (dir // metadata_name n) = Some (File (JsonObject m')) ∧
                m' !! "name" = Some n).
Proof.
  intros dir. subst dir.
  unfold switch_checkpoint, try_except, persistent_disk_path, described_disk_path.
  run_step.
  destruct (domains w !! vm_name) as [d|] eqn:Hd; simpl; [| done].
  rewrite ?Hd; simpl.
  destruct (find_disk_source _) as [s|] eqn:Hs; simpl; [| done].
  source_exists. destruct (_ || _); cbn [negb]; [| done].
  destruct (mkdir _ _ w) as [w1 [[]|ex]] eqn:Hm; [| done].
  pose proof (mkdir_val_dir _ _ _ _ _ (checkpoint_dir_of_nonempty vm_name) Hm) as Hdir1.
  assert (∀ s0, fs w1 !! (checkpoint_dir_of vm_name // s0)
                = fs w !! (checkpoint_dir_of vm_name // s0)) as Hsame.
  { intros s0. by eapply mkdir_child. }
  apply mkdir_grows in Hm as [Hdom1 _].
  case_bool_decide; cbn [negb]; [| done].
  assert (∀ w3, fs w3 !! checkpoint_dir_of vm_name = Some Dir →
            domains w3 = domains w →
            (∀ n m, fs w !! (checkpoint_dir_of vm_name // metadata_name n)
                    = Some (File (JsonObject m)) →
                    m !! "name" = Some n →
                    ∃ m', fs w3 !! (checkpoint_dir_of vm_name // metadata_name n)
                          = Some (File (JsonObject m')) ∧ m' !! "name" = Some n) →
            ∀ w' (r : outcome (option string)),
              defineXML (virt_define e) (fresh_uuid e)
                {| xml_name := Some vm_name; xml_uuid := Some (dom_uuid d);
                   xml_disks :=
                     set_disk_source_file
                       (checkpoint_dir_of vm_name // disk_file checkpoint_name)
                       (dom_persistent d) |} w3 = (w', r) →
              (∃ o, r = Val o) →
              fs w' !! checkpoint_dir_of vm_name = Some Dir ∧
              is_Some (domains w' !! vm_name) ∧
              (virt_define e ≠ DefineNone →
               domains w' !! vm_name ≫= (fun d0 =>
                 find_disk_source (dom_persistent d0) ≫= fun s0 =>
                 Some (default [] (src_file s0)))
               = Some (checkpoint_dir_of vm_name // disk_file checkpoint_name)) ∧
              (∀ n m, fs w !! (checkpoint_dir_of vm_name // metadata_name n)
                      = Some (File (JsonObject m)) →
                      m !! "name" = Some n →
                      ∃ m', fs w' !! (checkpoint_dir_of vm_name // metadata_name n)
                            = Some (File (JsonObject m')) ∧ m' !! "name" = Some n))
    as Hdefine.
  { intros w3 Hdir3 Hdom3 Hmeta3 w'' r. unfold defineXML. simpl.
    destruct (virt_define e); intros [= <- <-] [o Ho]; try done.
    - split_and!; [done | | | done].
      + cbn [domains set_domains]. rewrite lookup_insert_eq. eauto.
      + intros _. cbn [domains set_domains]. rewrite lookup_insert_eq. simpl.
        by rewrite (find_set_disk_source_file _ _ _ Hs).
    - split_and!; [done | rewrite Hdom3, Hd; eauto | done | done]. }
  case_bool_decide as Hsame_disk.
  { intros [= <-]. split_and!; [done | rewrite Hdom1, Hd; eauto | |].
    - intros _. rewrite Hdom1, Hd. simpl. rewrite Hs. simpl. by rewrite Hsame_disk.
    - intros n m Hn Hname. exists m. by rewrite Hsame. }
  case_bool_decide as Hout; simpl.
  - destruct (copy2 _ _ _ w1) as [w2 [[]|ex]] eqn:Hc; simpl; [| done].
    destruct (write_json _ _ _ w2) as [w3 [[]|ex]] eqn:Hw; simpl; [| done].
    apply copy2_val in Hc as (c & _ & ->).
    apply write_file_val in Hw as ->.
    destruct (defineXML _ _ _ _) as [w4 [o|ex]] eqn:Hdef; simpl; [| done].
    intros [= <-]. eapply Hdefine; [| | | exact Hdef | by eexists].
    + cbn [fs set_fs]. rewrite lookup_insert_ne by apply joinpath_ne.
      rewrite lookup_insert_ne; [done |].
      match goal with |- copy2_target ?a ?b ?c ≠ _ =>
        destruct (copy2_target_cases a b c) as [-> | ->] end.
      * apply joinpath_ne.
      * intros H'. apply (f_equal length) in H'. unfold joinpath in H'.
        rewrite !length_app in H'. simpl in H'. lia.
    + done.
    + intros n m Hn Hname. cbn [fs set_fs].
      destruct (decide (metadata_name (auto_name (clock_name e)) = metadata_name n))
        as [Heq|Hne].
      * rewrite Heq, lookup_insert_eq. eexists. split; [done |].
        apply metadata_name_inj in Heq. by rewrite <- Heq.
      * rewrite lookup_insert_ne by (by intros [_ ?]%joinpath_inj_l).
        rewrite lookup_insert_ne.
        -- exists m. by rewrite Hsame.
        -- match goal with |- copy2_target ?a ?b ?c ≠ _ =>
             destruct (copy2_target_cases a b c) as [-> | ->] end.
           ++ intros [_ ?]%joinpath_inj_l. by eapply disk_file_ne_metadata_name'.
           ++ intros H'. symmetry in H'. by apply entry_ne_nested in H'.
  - destruct (defineXML _ _ _ _) as [w4 [o|ex]] eqn:Hdef; simpl; [| done].
    intros [= <-]. eapply Hdefine; [| | | exact Hdef | by eexists].
    + done.
    + done.
    + intros n m Hn Hname. exists m. by rewrite Hsame.
Qed.

(** X8 ([switch_checkpoint], failure).  A [switch_checkpoint] that returns
    [False] has changed no domain definition: the VM boots from the disk it
    booted from before, whichever step failed. *)
Theorem switch_checkpoint_failure_keeps_definitions (e : env)
    (vm_name checkpoint_name : string) (w w' : world) :
  switch_checkpoint e vm_name checkpoint_name w = (w', Val false) →
  domains w' = domains w.
Proof.
  intros (b & w3 & [= <-] & _ & _ & [Hdom|[[=] _]])%switch_checkpoint_trace. done.
Qed.

Lemma switch_checkpoint_failure_witness :
  domains (switch_checkpoint Scenario.calm "alpha" "missing" Scenario.w_original).1
    = domains Scenario.w_original.
Proof.
  apply (switch_checkpoint_failure_keeps_definitions Scenario.calm "alpha" "missing").
  by_compute.
Defined.

(** X9 ([switch_checkpoint], what it may touch).  Whatever the call
    returns, the only files [switch_checkpoint] creates or changes are
    [auto-<stamp>.qcow2] and [auto-<stamp>.json] of the checkpoint directory
    (and an entry below [auto-<stamp>.qcow2], should that be a directory),
    [<stamp>] being the clock of the call as [%Y%m%d-%H%M%S]: every other
    path keeps what it held or, having been absent, has become a directory.
    So every stored checkpoint under another name keeps its disk and its
    metadata; a stored checkpoint that carries the name [auto-<stamp>] is
    not protected.  (The VM name and the names of the stored checkpoints
    are single path components.) *)
Theorem switch_checkpoint_touches_only_auto_saved (e : env)
    (vm_name checkpoint_name : string) (w w' : world) (r : outcome bool) :
  let dir := checkpoint_dir_of vm_name in
  let auto := "auto-" +:+ strftime_compact (clock_name e) in
  is_component vm_name = true →
  switch_checkpoint e vm_name checkpoint_name w = (w', r) →
  (∀ p, p ≠ dir // disk_file auto → p ≠ dir // metadata_name auto →
        (∀ s, p ≠ dir // disk_file auto // s) →
        fs w' !! p = fs w !! p ∨ (fs w !! p = None ∧ fs w' !! p = Some Dir)) ∧
  (∀ n x, is_plain n = true → n ≠ auto →
        (fs w !! (dir // disk_file n) = Some x → fs w' !! (dir // disk_file n) = Some x) ∧
        (fs w !! (dir // metadata_name n) = Some x →
         fs w' !! (dir // metadata_name n) = Some x)).
Proof.
  intros dir auto _ (b & w3 & _ & [_ Hf] & -> & _)%switch_checkpoint_trace.
  assert (∀ p, p ≠ dir // disk_file auto → p ≠ dir // metadata_name auto →
               (∀ s, p ≠ dir // disk_file auto // s) →
               fs w3 !! p = fs w !! p ∨ (fs w !! p = None ∧ fs w3 !! p = Some Dir))
    as Hframe.
  { intros p H1 H2 H3. apply Hf. intros [E|[E|[s E]]]; [by apply H1 | by apply H2 |].
    by apply (H3 s). }
  split; [exact Hframe |].
  intros n x _ Hn. split; intros Hx.
  - destruct (Hframe (dir // disk_file n)) as [E|[E _]]; [| | | congruence | congruence].
    + intros E%joinpath_inj%disk_file_inj. done.
    + intros E%joinpath_inj. by eapply disk_file_ne_metadata_name'.
    + intros s. apply entry_ne_nested.
  - destruct (Hframe (dir // metadata_name n)) as [E|[E _]];
      [| | | congruence | congruence].
    + intros E%joinpath_inj. symmetry in E. by eapply disk_file_ne_metadata_name'.
    + intros E%joinpath_inj%metadata_name_inj. done.
    + intros s. apply entry_ne_nested.
Qed.

Lemma switch_checkpoint_touches_only_witness :
  let w := Scenario.w_original in
  let w' := (switch_checkpoint Scenario.calm "alpha" "snap1" w).1 in
  let dir := checkpoint_dir_of "alpha" in
  let auto := "auto-" +:+ strftime_compact (clock_name Scenario.calm) in
  (∀ p, p ≠ dir // disk_file auto → p ≠ dir // metadata_name auto →
        (∀ s, p ≠ dir // disk_file auto // s) →
        fs w' !! p = fs w !! p ∨ (fs w !! p = None ∧ fs w' !! p = Some Dir)) ∧
  (∀ n x, is_plain n = true → n ≠ auto →
        (fs w !! (dir // disk_file n) = Some x → fs w' !! (dir // disk_file n) = Some x) ∧
        (fs w !! (dir // metadata_name n) = Some x →
         fs w' !! (dir // metadata_name n) = Some x)).
Proof.
  apply (switch_checkpoint_touches_only_auto_saved Scenario.calm "alpha" "snap1"
           Scenario.w_original _ (Val true)).
  - reflexivity.
  - by_compute.
Defined.

(** X10 ([switch_checkpoint], definitions).  Whatever the call returns,
    [switch_checkpoint] leaves the live definition of every domain, the uuid
    of every domain and the whole definition of every other domain as they
    were: a running VM keeps running on its current disk, only the next boot
    is affected. *)
Theorem switch_checkpoint_keeps_live_definition (e : env)
    (vm_name checkpoint_name : string) (w w' : world) (r : outcome bool) (v : string) :
  switch_checkpoint e vm_name checkpoint_name w = (w', r) →
  live_definition w' v = live_definition w v ∧
  dom_uuid <$> domains w' !! v = dom_uuid <$> domains w !! v ∧
  (v ≠ vm_name → domains w' !! v = domains w !! v).
Proof.
  intros (b & w3 & _ & _ & _ & [Hdom|(_ & d & Hd & _ & Hdom)])%switch_checkpoint_trace;
    unfold live_definition; rewrite Hdom; [done |].
  destruct (decide (vm_name = v)) as [<-|Hne].
  - rewrite lookup_insert_eq, Hd. done.
  - rewrite lookup_insert_ne by done. done.
Qed.

Lemma switch_checkpoint_keeps_live_witness :
  let w' := (switch_checkpoint Scenario.calm "alpha" "snap1"
               {| fs := Scenario.fs_snap1;
                  domains := Scenario.alpha_on Scenario.alpha_disk
                               (Some Scenario.alpha_disk) |}).1 in
  live_definition w' "alpha" = Some (Scenario.disk_at Scenario.alpha_disk) ∧
  persistent_disk_path w' "alpha" = Some Scenario.snap1_disk.
Proof.
  intros w'. split; [| by_compute].
  transitivity (live_definition
                  {| fs := Scenario.fs_snap1;
                     domains := Scenario.alpha_on Scenario.alpha_disk
                                  (Some Scenario.alpha_disk) |} "alpha");
    [| by_compute].
  eapply (proj1 (switch_checkpoint_keeps_live_definition Scenario.calm "alpha" "snap1"
                   _ w' (Val true) "alpha" _)).
  Unshelve. by_compute.
Defined.

(** X11 ([switch_checkpoint], success).  When [defineXML] reports failure
    by raising, a [switch_checkpoint] that returned [True] has set the
    primary disk path of the persistent definition to the checkpoint's disk
    file, and that file existed when the call was made. *)
Theorem switch_checkpoint_ends_on_target (e : env) (vm_name checkpoint_name : string)
    (w w' : world) :
  virt_define e ≠ DefineNone →
  switch_checkpoint e vm_name checkpoint_name w = (w', Val true) →
  persistent_disk_path w' vm_name
    = Some (checkpoint_dir_of vm_name // disk_file checkpoint_name) ∧
  is_Some (fs w !! (checkpoint_dir_of vm_name // disk_file checkpoint_name)).
Proof.
  intros Hdef Hrun. split.
  - by apply (switch_checkpoint_true _ _ _ _ _ Hrun).
  - revert Hrun. unfold switch_checkpoint, try_except. run_step.
    destruct (domains w !! vm_name) as [d|] eqn:Hd; simpl; [| done].
    rewrite ?Hd; simpl.
    destruct (find_disk_source _) as [s|] eqn:Hs; simpl; [| done].
    source_exists. destruct (_ || _); cbn [negb]; [| done].
    destruct (mkdir _ _ w) as [w1 [[]|ex]] eqn:Hm; [| done].
    rewrite (mkdir_child _ _ _ _ _ _ Hm).
    case_bool_decide; cbn [negb]; done.
Qed.

Lemma switch_checkpoint_ends_on_target_witness :
  persistent_disk_path
    (switch_checkpoint Scenario.calm "alpha" "snap1" Scenario.w_original).1 "alpha"
    = Some (checkpoint_dir_of "alpha" // disk_file "snap1") ∧
  is_Some (fs Scenario.w_original !! (checkpoint_dir_of "alpha" // disk_file "snap1")).
Proof.
  apply (switch_checkpoint_ends_on_target Scenario.calm "alpha" "snap1"); by_compute.
Defined.

(** X12 (switch, then list).  After a successful [switch_checkpoint] to a
    checkpoint whose metadata file exists and carries its name, a list that
    [list_checkpoints] returns holds that checkpoint with the active flag
    set.  (The VM name and the checkpoint name are single path components;
    [defineXML] reports failure by raising.) *)
Theorem switch_checkpoint_then_listed_active (fromisoformat : string → option datetime)
    (e : env) (vm_name checkpoint_name : string) (w w' w'' : world)
    (m : gmap string string) (l : list (string * string * bool)) :
  is_component vm_name = true → is_plain checkpoint_name = true →
  virt_define e ≠ DefineNone →
  fs w !! (checkpoint_dir_of vm_name // metadata_name checkpoint_name)
    = Some (File (JsonObject m)) →
  m !! "name" = Some checkpoint_name →
  switch_checkpoint e vm_name checkpoint_name w = (w', Val true) →
  list_checkpoints fromisoformat vm_name w' = (w'', Val l) →
  ∃ created, (checkpoint_name, created, true) ∈ l.
Proof.
  intros _ _ Hdef Hm Hname Hrun Hlist.
  destruct (switch_checkpoint_true _ _ _ _ _ Hrun) as (Hdir & Hdom & Hpath & Hmeta).
  destruct (Hmeta _ _ Hm Hname) as (m' & Hm' & Hname').
  destruct (list_checkpoints_lists fromisoformat vm_name _ Hdom Hdir)
    as (l' & Hl & Hin).
  rewrite Hl in Hlist. injection Hlist as _ <-.
  eexists.
  apply (Hin (metadata_name checkpoint_name)); [apply metadata_name_is_json |].
  rewrite (read_entry_metadata _ _ _ _ _ _ _ Hm' Hname').
  rewrite (Hpath Hdef). by rewrite bool_decide_eq_true_2.
Qed.

Lemma switch_checkpoint_then_listed_witness :
  ∃ created,
    ("snap1", created, true)
      ∈ [("auto-20261103-090507", "2026-11-03T09:05:07", false);
         ("snap1", "2026-11-03T09:05:07", true)].
Proof.
  pose (w' := (switch_checkpoint Scenario.calm "alpha" "snap1" Scenario.w_original).1).
  apply (switch_checkpoint_then_listed_active (fun _ => None) Scenario.calm "alpha" "snap1"
           Scenario.w_original w' w' Scenario.snap1_metadata).
  - reflexivity.
  - reflexivity.
  - by_compute.
  - by_compute.
  - by_compute.
  - apply run_result. reflexivity.
  - reflexivity.
Defined.

(** X13 ([switch_checkpoint] between checkpoints).  When the disk the VM is
    on already lies in the checkpoint directory, a successful
    [switch_checkpoint] copies nothing and writes no metadata: the filesystem
    is exactly as before, only the definition changes. *)
Theorem switch_checkpoint_between_checkpoints (e : env) (vm_name checkpoint_name : string)
    (w w' : world) (cur : Path) :
  persistent_disk_path w vm_name = Some cur →
  parent cur = checkpoint_dir_of vm_name →
  fs w !! checkpoint_dir_of vm_name = Some Dir →
  switch_checkpoint e vm_name checkpoint_name w = (w', Val true) →
  fs w' = fs w.
Proof.
  intros Hpath Hin Hdir.
  unfold persistent_disk_path, described_disk_path in Hpath.
  destruct (domains w !! vm_name) as [d|] eqn:Hd; simpl in Hpath; [| done].
  destruct (find_disk_source _) as [s|] eqn:Hs; simpl in Hpath; [| done].
  injection Hpath as Hpath.
  unfold switch_checkpoint, try_except. run_step.
  rewrite Hd; simpl. rewrite Hd; simpl. rewrite Hs; simpl. rewrite Hpath.
  source_exists. destruct (_ || _); cbn [negb]; [| done].
  rewrite (mkdir_existing _ _ _ Hdir).
  case_bool_decide; cbn [negb]; [| done].
  case_bool_decide; [by intros [= <-] |].
  rewrite bool_decide_eq_false_2 by (by intros ?). simpl.
  destruct (defineXML _ _ _ _) as [w4 [o|ex]] eqn:Hdef; simpl; [| done].
  intros [= <-]. by apply defineXML_fs in Hdef.
Qed.

Lemma switch_checkpoint_between_witness :
  let e := Scenario.calm in
  let w1 := (create_checkpoint e "alpha" "snap2" "second" Scenario.w_active).1 in
  fs (switch_checkpoint e "alpha" "snap2" w1).1 = fs w1.
Proof.
  intros e w1.
  apply (switch_checkpoint_between_checkpoints e "alpha" "snap2" w1 _ Scenario.snap1_disk);
    by_compute.
Defined.

(** ** delete_checkpoint: outcome, repetition, partial failure *)

Lemma unlink_trace (fails : bool) (p : Path) (w w' : world) (r : outcome unit) :
  unlink fails p w = (w', r) →
  (w' = w ∧ r = Exc OSError) ∨
  (∃ c, fs w !! p = Some (File c) ∧ w' = set_fs (delete p) w ∧ r = Val tt).
Proof.
  unfold unlink. destruct (fs w !! p) as [[c|]|]; [destruct fails |..];
    intros [= <- <-]; eauto.
Qed.

Lemma delete_checkpoint_trace (e : env) (vm_name checkpoint_name : string)
    (w w' : world) (r : outcome bool) :
  let disk := checkpoint_dir_of vm_name // disk_file checkpoint_name in
  let meta := checkpoint_dir_of vm_name // metadata_name checkpoint_name in
  delete_checkpoint e vm_name checkpoint_name w = (w', r) →
  ∃ b, r = Val b ∧ domains w' = domains w ∧
       (∀ p, fs w' !! p = fs w !! p ∨
             ((p = disk ∨ p = meta) ∧ fs w' !! p = None ∧
              ∃ c, fs w !! p = Some (File c))) ∧
       (b = true → fs w' !! disk = None ∧ fs w' !! meta = None).
Proof.
  intros disk meta.
  assert (disk ≠ meta) as Hne.
  { intros H%joinpath_inj. by apply disk_file_ne_metadata_name in H. }
  unfold delete_checkpoint, try_except. run_step. fold disk meta.
  assert (∃ w1 r1, (if bool_decide (is_Some (fs w !! disk))
                    then unlink (io_unlink_disk e) disk else (λ w0, (w0, Val tt))) w
                   = (w1, r1) ∧
            ((w1 = w ∧ (r1 = Exc OSError ∨ (r1 = Val tt ∧ fs w !! disk = None))) ∨
             (∃ c, fs w !! disk = Some (File c) ∧ w1 = set_fs (delete disk) w ∧
                   r1 = Val tt))) as (w1 & r1 & -> & H1).
  { case_bool_decide as Hex.
    - destruct (unlink _ disk w) as [w1 r1] eqn:Hu. exists w1, r1. split; [done |].
      apply unlink_trace in Hu as [[-> ->]|(c & ? & -> & ->)]; eauto.
    - eexists _, _. split; [done |]. left. split; [done |]. right. split; [done |].
      by apply eq_None_not_Some. }
  destruct H1 as [[-> [->| [-> Hd]]]|(c & Hd & -> & ->)].
  - simpl. intros [= <- <-]. exists false. split_and!; auto. done.
  - simpl.
    assert (∃ w2 r2, (if bool_decide (is_Some (fs w !! meta))
                      then unlink (io_unlink_meta e) meta else (λ w0, (w0, Val tt))) w
                     = (w2, r2) ∧
              ((w2 = w ∧ (r2 = Exc OSError ∨ (r2 = Val tt ∧ fs w !! meta = None))) ∨
               (∃ c, fs w !! meta = Some (File c) ∧ w2 = set_fs (delete meta) w ∧
                     r2 = Val tt))) as (w2 & r2 & -> & H2).
    { case_bool_decide as Hex.
      - destruct (unlink _ meta w) as [w2 r2] eqn:Hu. exists w2, r2. split; [done |].
        apply unlink_trace in Hu as [[-> ->]|(c & ? & -> & ->)]; eauto.
      - eexists _, _. split; [done |]. left. split; [done |]. right. split; [done |].
        by apply eq_None_not_Some. }
    destruct H2 as [[-> [->| [-> Hm]]]|(c & Hm & -> & ->)]; simpl; intros [= <- <-].
    + exists false. split_and!; auto. done.
    + exists true. split_and!; auto.
    + exists true. split_and!; auto; cbn [fs set_fs].
      * intros p. destruct (decide (p = meta)) as [->|Hp].
        -- right. rewrite lookup_delete_eq. eauto.
        -- left. by rewrite lookup_delete_ne.
      * intros _. rewrite lookup_delete_eq, lookup_delete_ne by done. done.
  - simpl. cbn [fs set_fs]. rewrite lookup_delete_ne by done.
    assert (∃ w2 r2, (if bool_decide (is_Some (fs w !! meta))
                      then unlink (io_unlink_meta e) meta else (λ w0, (w0, Val tt)))
                       (set_fs (delete disk) w)
                     = (w2, r2) ∧
              ((w2 = set_fs (delete disk) w ∧
                 (r2 = Exc OSError ∨ (r2 = Val tt ∧ fs w !! meta = None))) ∨
               (∃ c, fs w !! meta = Some (File c) ∧
                     w2 = set_fs (delete meta) (set_fs (delete disk) w) ∧
                     r2 = Val tt))) as (w2 & r2 & -> & H2).
    { case_bool_decide as Hex.
      - destruct (unlink _ meta _) as [w2 r2] eqn:Hu. exists w2, r2. split; [done |].
        apply unlink_trace in Hu as [[-> ->]|(c' & Hc & -> & ->)]; eauto.
        right. cbn [fs set_fs] in Hc. rewrite lookup_delete_ne in Hc by done. eauto.
      - eexists _, _. split; [done |]. left. split; [done |]. right. split; [done |].
        by apply eq_None_not_Some. }
    assert (∀ p, delete disk (fs w) !! p = fs w !! p ∨
                 ((p = disk ∨ p = meta) ∧ delete disk (fs w) !! p = None ∧
                  ∃ c, fs w !! p = Some (File c))) as Hdel.
    { intros p. destruct (decide (p = disk)) as [->|Hp].
      - right. rewrite lookup_delete_eq. eauto.
      - left. by rewrite lookup_delete_ne. }
    destruct H2 as [[-> [->| [-> Hm]]]|(c' & Hm & -> & ->)]; simpl; intros [= <- <-].
    + exists false. split_and!; auto. done.
    + exists true. split_and!; auto. cbn [fs set_fs]. intros _.
      rewrite lookup_delete_eq, lookup_delete_ne by done. done.
    + exists true. split_and!; auto; cbn [fs set_fs].
      * intros p. destruct (decide (p = meta)) as [->|Hp].
        -- right. rewrite lookup_delete_eq. eauto.
        -- rewrite (lookup_delete_ne _ meta p) by done. apply Hdel.
      * intros _. rewrite lookup_delete_eq.
        rewrite (lookup_delete_ne _ meta disk) by done. by rewrite lookup_delete_eq.
Qed.

(** X14 ([delete_checkpoint], what it may touch).  For a VM name and a
    checkpoint name that are single path components, [delete_checkpoint]
    returns [True] or [False]; it changes no domain definition, creates or
    modifies no path, and removes nothing but the checkpoint's
    [<name>.qcow2] and [<name>.json]; when it returns [True] neither of the
    two exists any more. *)
Theorem delete_checkpoint_removes_only_its_files (e : env)
    (vm_name checkpoint_name : string) (w w' : world) (r : outcome bool) :
  let disk := checkpoint_dir_of vm_name // disk_file checkpoint_name in
  let meta := checkpoint_dir_of vm_name // metadata_name checkpoint_name in
  is_component vm_name = true → is_plain checkpoint_name = true →
  delete_checkpoint e vm_name checkpoint_name w = (w', r) →
  (r = Val true ∨ r = Val false) ∧
  domains w' = domains w ∧
  (∀ p, p ≠ disk → p ≠ meta → fs w' !! p = fs w !! p) ∧
  (∀ p, is_Some (fs w' !! p) → fs w' !! p = fs w !! p) ∧
  (r = Val true → fs w' !! disk = None ∧ fs w' !! meta = None).
Proof.
  intros disk meta _ _ (b & -> & Hdom & Hfs & Htrue)%delete_checkpoint_trace.
  split_and!.
  - destruct b; auto.
  - done.
  - intros p H1 H2. destruct (Hfs p) as [?|([?|?] & _)]; done.
  - intros p Hsome. destruct (Hfs p) as [?|(_ & Hn & _)]; [done |].
    rewrite Hn in Hsome. by destruct Hsome.
  - intros [= ->]. by apply Htrue.
Qed.

Lemma delete_checkpoint_removes_only_witness :
  let w' := (delete_checkpoint Scenario.calm "alpha" "snap1" Scenario.w_original).1 in
  fs w' !! Scenario.snap1_disk = None ∧ fs w' !! Scenario.snap1_json = None ∧
  fs w' !! Scenario.alpha_disk = fs Scenario.w_original !! Scenario.alpha_disk.
Proof.
  intros w'.
  destruct (delete_checkpoint_removes_only_its_files Scenario.calm "alpha" "snap1"
              Scenario.w_original w' (Val true)) as (_ & _ & Hout & _ & Hgone).
  - by_compute.
  - by_compute.
  - by_compute.
  - destruct (Hgone eq_refl) as [H1 H2]. split_and!; [exact H1 | exact H2 |].
    apply Hout; by_compute.
Defined.

Lemma delete_checkpoint_absent (e : env) (vm_name checkpoint_name : string) (w : world) :
  fs w !! (checkpoint_dir_of vm_name // disk_file checkpoint_name) = None →
  fs w !! (checkpoint_dir_of vm_name // metadata_name checkpoint_name) = None →
  delete_checkpoint e vm_name checkpoint_name w = (w, Val true).
Proof.
  intros Hd Hm. unfold delete_checkpoint, try_except. run_step.
  rewrite Hd. rewrite bool_decide_eq_false_2 by (by intros [? [=]]). simpl.
  rewrite Hm. rewrite bool_decide_eq_false_2 by (by intros [? [=]]). done.
Qed.

(** X15 ([delete_checkpoint], repeated).  Deleting a checkpoint that was
    just deleted succeeds again and changes nothing, whatever the
    environment: a name for which neither file exists is reported as
    deleted. *)
Theorem delete_checkpoint_repeat (e e' : env) (vm_name checkpoint_name : string)
    (w w' : world) :
  delete_checkpoint e vm_name checkpoint_name w = (w', Val true) →
  delete_checkpoint e' vm_name checkpoint_name w' = (w', Val true).
Proof.
  intros (b & [= <-] & _ & _ & Htrue)%delete_checkpoint_trace.
  destruct (Htrue eq_refl). by apply delete_checkpoint_absent.
Qed.

Lemma delete_checkpoint_repeat_witness :
  let w' := (delete_checkpoint Scenario.calm "alpha" "snap1" Scenario.w_original).1 in
  delete_checkpoint (Scenario.with_copy (Fails None) Scenario.calm) "alpha" "snap1" w'
    = (w', Val true).
Proof.
  intros w'.
  apply (delete_checkpoint_repeat Scenario.calm _ "alpha" "snap1" Scenario.w_original).
  by_compute.
Defined.

(** X16 (delete, then list).  In a checkpoint directory whose metadata
    files are named after the checkpoints they describe, a checkpoint that
    [delete_checkpoint] reported as deleted is no longer among the entries
    [list_checkpoints] returns. *)
Theorem delete_checkpoint_then_not_listed (fromisoformat : string → option datetime)
    (e : env) (vm_name checkpoint_name : string) (w w' w'' : world)
    (l : list (string * string * bool)) (created : string) (active : bool) :
  checkpoints_named vm_name w →
  delete_checkpoint e vm_name checkpoint_name w = (w', Val true) →
  list_checkpoints fromisoformat vm_name w' = (w'', Val l) →
  (checkpoint_name, created, active) ∉ l.
Proof.
  intros Hnamed (b & [= <-] & _ & Hfs & Htrue)%delete_checkpoint_trace Hl Hin.
  destruct (Htrue eq_refl) as [_ Hgone].
  destruct (list_checkpoints_elem _ _ _ _ _ _ Hl Hin) as (s & Hjson & Hread).
  apply read_entry_Some in Hread as (m & Hq & Hname). simpl in Hname.
  assert (fs w !! (checkpoint_dir_of vm_name // s) = Some (File (JsonObject m))) as Hq0.
  { destruct (Hfs (checkpoint_dir_of vm_name // s)) as [<-|(_ & Hn & _)]; [done |].
    by rewrite Hn in Hq. }
  pose proof (Hnamed _ _ _ (child_of_joinpath _ _) Hjson Hq0) as Hs.
  rewrite <- Hname in Hs. subst s. by rewrite Hgone in Hq.
Qed.


Lemma fs_snap1_named : checkpoints_named "alpha" Scenario.w_original.
Proof.
  unfold checkpoints_named, Scenario.w_original, Scenario.fs_snap1, Scenario.fs_fresh.
  cbn [fs].
  apply metadata_named_insert;
    [| right; right; exists "snap1", Scenario.snap1_metadata; by split_and!].
  apply metadata_named_insert; [| right; left; by eexists].
  apply (metadata_named_step _ ∅); [apply metadata_named_empty |].
  intros q.
  destruct (decide (Scenario.alpha_dir = q)) as [<-|H1];
    [right; right; left; by rewrite lookup_insert_eq |].
  rewrite lookup_insert_ne by done.
  destruct (decide (DISK_DIR // "checkpoints" = q)) as [<-|H2];
    [right; right; left; by rewrite lookup_insert_eq |].
  rewrite lookup_insert_ne by done.
  destruct (decide (Scenario.alpha_disk = q)) as [<-|H3];
    [right; right; right; left; rewrite lookup_insert_eq; by eexists |].
  rewrite lookup_insert_ne by done.
  destruct (decide (DISK_DIR = q)) as [<-|H4];
    [right; right; left; by rewrite lookup_insert_eq |].
  rewrite lookup_insert_ne by done. by left.
Qed.

Lemma delete_checkpoint_then_not_listed_witness :
  let w' := (delete_checkpoint Scenario.calm "alpha" "snap1" Scenario.w_original).1 in
  ∃ l, list_checkpoints (fun _ => None) "alpha" w' = (w', Val l) ∧
       ("snap1", "2026-11-03T09:05:07", false) ∉ l.
Proof.
  intros w'. exists []. split; [by_compute |].
  apply (delete_checkpoint_then_not_listed (fun _ => None) Scenario.calm "alpha" "snap1"
           Scenario.w_original w' w').
  - apply fs_snap1_named.
  - by_compute.
  - by_compute.
Defined.

(** X17 ([delete_checkpoint], failure half way).  The disk file is removed
    before the metadata file: when removing the metadata fails,
    [delete_checkpoint] returns [False] with the disk file already gone and
    the metadata file still there, and a list that [list_checkpoints]
    returns afterwards still holds the checkpoint.  (The VM name and the
    checkpoint name are single path components.) *)
Theorem delete_checkpoint_metadata_failure (fromisoformat : string → option datetime)
    (e : env) (vm_name checkpoint_name : string) (w : world) (c : content)
    (m : gmap string string) :
  let disk := checkpoint_dir_of vm_name // disk_file checkpoint_name in
  let meta := checkpoint_dir_of vm_name // metadata_name checkpoint_name in
  is_component vm_name = true → is_plain checkpoint_name = true →
  io_unlink_disk e = false → io_unlink_meta e = true →
  is_Some (domains w !! vm_name) →
  fs w !! checkpoint_dir_of vm_name = Some Dir →
  fs w !! disk = Some (File c) →
  fs w !! meta = Some (File (JsonObject m)) → m !! "name" = Some checkpoint_name →
  ∃ w',
    delete_checkpoint e vm_name checkpoint_name w = (w', Val false) ∧
    fs w' !! disk = None ∧
    fs w' !! meta = Some (File (JsonObject m)) ∧
    ∀ w'' l, list_checkpoints fromisoformat vm_name w' = (w'', Val l) →
             ∃ created active, (checkpoint_name, created, active) ∈ l.
Proof.
  intros disk meta _ _ Hud Hum Hdom Hdir Hdisk Hmeta Hname.
  assert (disk ≠ meta) as Hne.
  { intros H%joinpath_inj. by apply disk_file_ne_metadata_name in H. }
  assert (delete_checkpoint e vm_name checkpoint_name w
          = (set_fs (delete disk) w, Val false)) as Hrun.
  { unfold delete_checkpoint, try_except, unlink. run_step. fold disk meta.
    rewrite bool_decide_eq_true_2 by done.
    rewrite Hdisk, Hud. cbn [fs set_fs].
    rewrite lookup_delete_ne by done.
    rewrite bool_decide_eq_true_2 by done.
    cbn [fs set_fs]. rewrite lookup_delete_ne by done.
    by rewrite Hmeta, Hum. }
  set (w' := set_fs (delete disk) w) in *.
  assert (fs w' !! meta = Some (File (JsonObject m))) as Hmeta'.
  { unfold w'. cbn [fs set_fs]. by rewrite lookup_delete_ne. }
  exists w'. split_and!; [done | | done |].
  - unfold w'. cbn [fs set_fs]. by rewrite lookup_delete_eq.
  - intros w'' l Hlist.
    destruct (list_checkpoints_lists fromisoformat vm_name w') as (l' & Hl & Hin).
    { done. }
    { unfold w'. cbn [fs set_fs]. rewrite lookup_delete_ne; [done |].
      unfold disk. apply joinpath_ne. }
    rewrite Hl in Hlist. injection Hlist as _ <-.
    eexists _, _.
    apply (Hin (metadata_name checkpoint_name)); [apply metadata_name_is_json |].
    eapply read_entry_metadata; [exact Hmeta' | exact Hname].
Qed.

Lemma delete_checkpoint_metadata_failure_witness :
  let e := with_unlink_meta true Scenario.calm in
  ∃ w',
    delete_checkpoint e "alpha" "snap1" Scenario.w_original = (w', Val false) ∧
    fs w' !! (checkpoint_dir_of "alpha" // disk_file "snap1") = None ∧
    fs w' !! (checkpoint_dir_of "alpha" // metadata_name "snap1")
      = Some (File (JsonObject Scenario.snap1_metadata)) ∧
    ∀ w'' l, list_checkpoints (fun _ => None) "alpha" w' = (w'', Val l) →
             ∃ created active, ("snap1", created, active) ∈ l.
Proof.
  intros e.
  apply (delete_checkpoint_metadata_failure (fun _ => None) e "alpha" "snap1"
           Scenario.w_original Scenario.content_S Scenario.snap1_metadata); by_compute.
Defined.

(** ** separate_checkpoint_to_vm *)

Lemma new_disk_ne_entry (vm_name a b : string) :
  DISK_DIR // a ≠ checkpoint_dir_of vm_name // b.
Proof.
  unfold checkpoint_dir_of, joinpath. intros H. apply (f_equal length) in H.
  rewrite !length_app in H. simpl in H. lia.
Qed.

Lemma parent_new_disk (s : string) : parent (DISK_DIR // s) = DISK_DIR.
Proof. by apply parent_joinpath. Qed.

Lemma rename_file (fails : bool) (src dst : Path) (c : content) (w w' : world)
    (r : outcome unit) :
  fs w !! src = Some (File c) → fs w !! dst = None →
  rename fails src dst w = (w', r) →
  (w' = w ∧ r = Exc OSError) ∨
  (w' = set_fs (fun f => <[dst := File c]> (delete src f)) w ∧ r = Val tt).
Proof.
  intros Hsrc Hdst. unfold rename. rewrite Hsrc, Hdst.
  destruct (fs w !! parent dst) as [[?|]|]; [| destruct fails |];
    intros [= <- <-]; auto.
Qed.

Lemma separate_checkpoint_to_vm_true (e : env)
    (checkpoint_name new_vm_name source_vm_name : string) (w w' : world) (c : content) :
  let disk := checkpoint_dir_of source_vm_name // disk_file checkpoint_name in
  let meta := checkpoint_dir_of source_vm_name // metadata_name checkpoint_name in
  let new_disk := DISK_DIR // disk_file new_vm_name in
  fs w !! disk = Some (File c) →
  separate_checkpoint_to_vm e checkpoint_name new_vm_name source_vm_name w
    = (w', Val true) →
  fs w' = <[new_disk := File c]> (delete meta (delete disk (fs w))) ∧
  fs w !! new_disk = None ∧
  ∃ d, domains w !! source_vm_name = Some d ∧
       domains w' =
         <[new_vm_name :=
             {| dom_uuid := fresh_uuid e;
                dom_persistent :=
                  set_disk_source_file new_disk (described_disks XML_DEFAULT d);
                dom_live := domains w !! new_vm_name ≫= dom_live |}]> (domains w).
Proof.
  intros disk meta new_disk Hdisk.
  assert (disk ≠ meta) as Hne.
  { intros H%joinpath_inj. by apply disk_file_ne_metadata_name in H. }
  assert (new_disk ≠ disk) as Hnd by apply new_disk_ne_entry.
  assert (new_disk ≠ meta) as Hnm by apply new_disk_ne_entry.
  unfold separate_checkpoint_to_vm, try_except. run_step. fold disk meta new_disk.
  destruct (domains w !! source_vm_name) as [d|] eqn:Hd; simpl; [| done].
  rewrite bool_decide_eq_true_2 by done. cbn [negb].
  case_bool_decide as Hnew; [done |].
  apply eq_None_not_Some in Hnew.
  destruct (rename (io_rename e) disk new_disk w) as [w1 r1] eqn:Hr.
  apply (rename_file _ _ _ _ _ _ _ Hdisk Hnew) in Hr as [[-> ->]|[-> ->]]; [done |].
  cbn [fs set_fs domains].
  rewrite lookup_insert_ne, lookup_delete_ne by done.
  assert (domains w !! source_vm_name = Some d → True) as _ by done.
  case_bool_decide as Hmeta.
  - unfold unlink at 1. cbn [fs set_fs].
    rewrite lookup_insert_ne, lookup_delete_ne by done.
    destruct (fs w !! meta) as [[cm|]|] eqn:Em; [| done | done].
    destruct (io_unlink_meta e); [done |]. cbn [domains set_fs]. rewrite Hd.
    unfold defineXML. cbn [xml_name fmap option_fmap option_map].
    destruct (virt_define e); [| done |].
    + intros [= <-]. cbn [fs set_fs set_domains domains].
      split_and!; [| done | eauto].
      by rewrite delete_insert_ne by done.
    + destruct (rename _ new_disk disk _) as [? [|]]; done.
  - cbn [domains set_fs]. rewrite Hd.
    unfold defineXML. cbn [xml_name fmap option_fmap option_map].
    destruct (virt_define e); [| done |].
    + intros [= <-]. cbn [fs set_fs set_domains domains].
      split_and!; [| done | eauto]. f_equal.
      rewrite (delete_id (delete disk (fs w)) meta); [done |].
      rewrite lookup_delete_ne by done. by apply eq_None_not_Some.
    + destruct (rename _ new_disk disk _) as [? [|]]; done.
Qed.

(** X18 ([separate_checkpoint_to_vm], success).  When the checkpoint's disk
    is a file and the call returns [True]: the file is now at
    [DISK_DIR/<new_vm_name>.qcow2] with its content, the checkpoint's disk
    and metadata paths are empty, every other path is as before; the new
    domain has the uuid libvirt generated, and, the source VM having a
    primary disk, its persistent primary disk path is the moved file; every
    domain of another name is as before. *)
Theorem separate_checkpoint_to_vm_moves_disk (e : env)
    (checkpoint_name new_vm_name source_vm_name : string) (w w' : world) (c : content) :
  let disk := checkpoint_dir_of source_vm_name // disk_file checkpoint_name in
  let meta := checkpoint_dir_of source_vm_name // metadata_name checkpoint_name in
  let new_disk := DISK_DIR // disk_file new_vm_name in
  fs w !! disk = Some (File c) →
  separate_checkpoint_to_vm e checkpoint_name new_vm_name source_vm_name w
    = (w', Val true) →
  fs w' !! new_disk = Some (File c) ∧
  fs w' !! disk = None ∧ fs w' !! meta = None ∧
  (∀ p, p ≠ new_disk → p ≠ disk → p ≠ meta → fs w' !! p = fs w !! p) ∧
  dom_uuid <$> domains w' !! new_vm_name = Some (fresh_uuid e) ∧
  (is_Some (described_disk_path w source_vm_name XML_DEFAULT) →
   persistent_disk_path w' new_vm_name = Some new_disk) ∧
  (∀ v, v ≠ new_vm_name → domains w' !! v = domains w !! v).
Proof.
  intros disk meta new_disk Hdisk Hrun.
  destruct (separate_checkpoint_to_vm_true _ _ _ _ _ _ _ Hdisk Hrun)
    as (Hfs & _ & d & Hd & Hdom).
  fold disk meta new_disk in Hfs, Hdom.
  assert (new_disk ≠ disk) as Hnd by apply new_disk_ne_entry.
  assert (new_disk ≠ meta) as Hnm by apply new_disk_ne_entry.
  assert (disk ≠ meta) as Hne.
  { intros H%joinpath_inj. by apply disk_file_ne_metadata_name in H. }
  rewrite Hfs, Hdom. split_and!.
  - by rewrite lookup_insert_eq.
  - rewrite lookup_insert_ne, lookup_delete_ne, lookup_delete_eq by done. done.
  - rewrite lookup_insert_ne, lookup_delete_eq by done. done.
  - intros p H1 H2 H3. by rewrite lookup_insert_ne, !lookup_delete_ne by done.
  - by rewrite lookup_insert_eq.
  - unfold persistent_disk_path, described_disk_path. rewrite Hdom, Hd.
    rewrite lookup_insert_eq. cbn [mbind option_bind dom_persistent described_disks].
    destruct (find_disk_source (described_disks XML_DEFAULT d)) as [s|] eqn:Hs.
    + intros _. simpl in Hs. by rewrite (find_set_disk_source_file _ _ _ Hs).
    + intros [? H]. simpl in Hs. by rewrite Hs in H.
  - intros v Hv. by rewrite lookup_insert_ne.
Qed.

Lemma separate_checkpoint_to_vm_moves_witness :
  let w' := (separate_checkpoint_to_vm Scenario.calm "snap1" "beta" "alpha"
               Scenario.w_original).1 in
  fs w' !! Scenario.beta_disk = Some (File Scenario.content_S) ∧
  fs w' !! Scenario.snap1_disk = None ∧
  persistent_disk_path w' "beta" = Some Scenario.beta_disk.
Proof.
  intros w'.
  destruct (separate_checkpoint_to_vm_moves_disk Scenario.calm "snap1" "beta" "alpha"
              Scenario.w_original w' Scenario.content_S)
    as (H1 & H2 & _ & _ & _ & H3 & _); [by_compute | by_compute |].
  split_and!; [exact H1 | exact H2 |]. apply H3. by eexists.
Defined.





(** X21 (separate, then list).  In a checkpoint directory whose metadata
    files are named after the checkpoints they describe, a checkpoint that
    was separated into a new VM is no longer among the entries
    [list_checkpoints] returns for the source VM. *)
Theorem separate_checkpoint_to_vm_then_not_listed
    (fromisoformat : string → option datetime) (e : env)
    (checkpoint_name new_vm_name source_vm_name : string) (w w' w'' : world)
    (c : content) (l : list (string * string * bool)) (created : string) (active : bool) :
  checkpoints_named source_vm_name w →
  fs w !! (checkpoint_dir_of source_vm_name // disk_file checkpoint_name)
    = Some (File c) →
  separate_checkpoint_to_vm e checkpoint_name new_vm_name source_vm_name w
    = (w', Val true) →
  list_checkpoints fromisoformat source_vm_name w' = (w'', Val l) →
  (checkpoint_name, created, active) ∉ l.
Proof.
  intros Hnamed Hdisk Hrun Hl Hin.
  destruct (separate_checkpoint_to_vm_true _ _ _ _ _ _ _ Hdisk Hrun) as (Hfs & _ & _).
  destruct (list_checkpoints_elem _ _ _ _ _ _ Hl Hin) as (s & Hjson & Hread).
  apply read_entry_Some in Hread as (m & Hq & Hname). simpl in Hname.
  rewrite Hfs in Hq.
  rewrite lookup_insert_ne in Hq by apply new_disk_ne_entry.
  assert (fs w !! (checkpoint_dir_of source_vm_name // s) = Some (File (JsonObject m)))
    as Hq0.
  { apply lookup_delete_Some in Hq as [_ Hq]. by apply lookup_delete_Some in Hq as [_ Hq]. }
  pose proof (Hnamed _ _ _ (child_of_joinpath _ _) Hjson Hq0) as Hs.
  rewrite <- Hname in Hs. subst s. by rewrite lookup_delete_eq in Hq.
Qed.

Lemma separate_checkpoint_to_vm_then_not_listed_witness :
  let w' := (separate_checkpoint_to_vm Scenario.calm "snap1" "beta" "alpha"
               Scenario.w_original).1 in
  ∃ l, list_checkpoints (fun _ => None) "alpha" w' = (w', Val l) ∧
       ("snap1", "2026-11-03T09:05:07", false) ∉ l.
Proof.
  intros w'. exists []. split; [by_compute |].
  apply (separate_checkpoint_to_vm_then_not_listed (fun _ => None) Scenario.calm
           "snap1" "beta" "alpha" Scenario.w_original w' w' Scenario.content_S).
  - apply fs_snap1_named.
  - by_compute.
  - by_compute.
  - by_compute.
Defined.

Lemma rename_domains (fails : bool) (src dst : Path) (w w' : world) (r : outcome unit) :
  rename fails src dst w = (w', r) → domains w' = domains w.
Proof.
  unfold rename.
  destruct (fs w !! src) as [[?|]|], (fs w !! parent dst) as [[?|]|];
    try (by intros [= <- <-]).
  - destruct (fs w !! dst) as [[?|]|], fails; by intros [= <- <-].
  - destruct (_ || _); by intros [= <- <-].
Qed.

Lemma unlink_domains (fails : bool) (p : Path) (w w' : world) (r : outcome unit) :
  unlink fails p w = (w', r) → domains w' = domains w.
Proof. by intros [[-> _]|(? & _ & -> & _)]%unlink_trace. Qed.

(** X22 ([separate_checkpoint_to_vm], definitions).  However a call of
    [separate_checkpoint_to_vm] ends, unless it returns [True] it has changed
    no domain definition, and no call changes the definition of a domain
    other than the one named [new_vm_name]. *)
Theorem separate_checkpoint_to_vm_definitions (e : env)
    (checkpoint_name new_vm_name source_vm_name : string) (w w' : world)
    (r : outcome bool) :
  separate_checkpoint_to_vm e checkpoint_name new_vm_name source_vm_name w = (w', r) →
  (r ≠ Val true → domains w' = domains w) ∧
  (∀ v, v ≠ new_vm_name → domains w' !! v = domains w !! v).
Proof.
  intros Hrun.
  cut ((r = Val true ∨ r = Val false) ∧
       (r = Val false → domains w' = domains w) ∧
       (∀ v, v ≠ new_vm_name → domains w' !! v = domains w !! v)).
  { intros ([-> | ->] & H1 & H2); (split; [| exact H2]).
    - by intros [].
    - intros _. by apply H1. }
  revert Hrun.
  unfold separate_checkpoint_to_vm, try_except. run_step.
  destruct (domains w !! source_vm_name) as [d|] eqn:Hd; simpl;
    [| intros [= <- <-]; auto].
  case_bool_decide as Hdisk; cbn [negb]; [| intros [= <- <-]; auto].
  case_bool_decide as Hnew; [intros [= <- <-]; auto |].
  destruct (rename (io_rename e) _ _ w) as [w1 [[]|ex]] eqn:Hr;
    apply rename_domains in Hr; [| intros [= <- <-]; rewrite Hr; auto].
  match goal with
  | |- context [(if ?b then ?m else _) w1] =>
      assert (∃ w2 r2, (if b then m else (λ w0, (w0, Val tt))) w1 = (w2, r2) ∧
                       domains w2 = domains w1) as (w2 & r2 & -> & Hu)
  end.
  { case_bool_decide.
    - destruct (unlink _ _ w1) as [w2 r2] eqn:Hu. apply unlink_domains in Hu. eauto.
    - eauto. }
  rewrite Hr in Hu.
  destruct r2 as [[]|ex]; [| intros [= <- <-]; rewrite Hu; auto].
  rewrite Hu, Hd. unfold defineXML. cbn [xml_name fmap option_fmap option_map].
  destruct (virt_define e).
  - intros [= <- <-]. cbn [domains set_domains]. rewrite Hu. split_and!; auto.
    + done.
    + intros v Hv. by rewrite lookup_insert_ne.
  - intros [= <- <-]. rewrite Hu. auto.
  - destruct (rename _ _ _ w2) as [w3 [[]|ex]] eqn:Hb; apply rename_domains in Hb;
      intros [= <- <-]; rewrite Hb, Hu; auto.
Qed.

Lemma separate_checkpoint_to_vm_definitions_witness :
  domains (separate_checkpoint_to_vm (Scenario.with_define DefineRaises Scenario.calm)
             "snap1" "beta" "alpha" Scenario.w_original).1
    = domains Scenario.w_original.
Proof.
  eapply (proj1 (separate_checkpoint_to_vm_definitions
                   (Scenario.with_define DefineRaises Scenario.calm)
                   "snap1" "beta" "alpha" Scenario.w_original _ (Val false) _)).
  discriminate.
  Unshelve. by_compute.
Defined.

(** * The dialogs *)

(** ** ConfirmDialog *)

Lemma lower_char_cases (c l : ascii) :
  lower_char c = l → c = l ∨ nat_of_ascii l = nat_of_ascii c + 32.
Proof.
  unfold lower_char. destruct (_ || _) eqn:E; intros <-; [right | by left].
  rewrite nat_ascii_embedding; [done |].
  apply orb_true_iff in E as [E|E].
  - apply andb_true_iff in E as [_ E%Nat.leb_le]. lia.
  - apply andb_true_iff in E as [E _]. apply andb_true_iff in E as [_ E%Nat.leb_le]. lia.
Qed.

Lemma lower_letter (s : string) (l u : ascii) :
  nat_of_ascii l = nat_of_ascii u + 32 → lower_char l = l → lower_char u = l →
  lower s = String l EmptyString ↔ s = String l EmptyString ∨ s = String u EmptyString.
Proof.
  intros Hlu Hl Hu. split.
  - destruct s as [|c [|c' s]]; [done | | done]. simpl. intros [= Hc].
    apply lower_char_cases in Hc as [-> |Hc]; [by left |]. right.
    f_equal. rewrite <- (ascii_nat_embedding c), <- (ascii_nat_embedding u).
    f_equal. lia.
  - intros [-> | ->]; simpl; by rewrite ?Hl, ?Hu.
Qed.

Lemma lower_y (s : string) : String.eqb (lower s) "y" = true ↔ s = "y" ∨ s = "Y".
Proof. rewrite String.eqb_eq. by apply lower_letter. Qed.

Lemma lower_n (s : string) : String.eqb (lower s) "n" = true ↔ s = "n" ∨ s = "N".
Proof. rewrite String.eqb_eq. by apply lower_letter. Qed.

(** X30 ([ConfirmDialog]).  [show] returns [True] exactly when the key [y]
    or [Y] is pressed after keys that answer nothing: no other key, Enter
    included, confirms, and once [n], [N] or Escape has been pressed a later
    [y] is not read. *)
Theorem ConfirmDialog_confirms_only_on_y (keys : list Keystroke) :
  ConfirmDialog.show keys = Some true ↔
  ∃ before key after,
    keys = before ++ key :: after ∧
    Forall ConfirmDialog.undecided before ∧
    (key_text key = "y" ∨ key_text key = "Y").
Proof.
  induction keys as [|k keys IH]; simpl.
  - split; [done |]. intros (before & key & after & E & _). by destruct before.
  - destruct (String.eqb (lower (key_text k)) "y") eqn:Hy.
    { split; [intros _ | done]. exists [], k, keys. split_and!; [done | done |].
      by apply lower_y. }
    assert (key_text k ≠ "y" ∧ key_text k ≠ "Y") as [Hy1 Hy2].
    { split; intros E; assert (String.eqb (lower (key_text k)) "y" = true) as E'
        by (apply lower_y; auto); congruence. }
    destruct (String.eqb (lower (key_text k)) "n") eqn:Hn; simpl.
    { split; [done |]. intros (before & key & after & E & Hbefore & Hkey).
      destruct before as [|b before]; simplify_eq/=; [by destruct Hkey |].
      apply Forall_cons in Hbefore as [(_ & _ & H1 & H2 & _) _].
      apply lower_n in Hn as [?|?]; done. }
    assert (key_text k ≠ "n" ∧ key_text k ≠ "N") as [Hn1 Hn2].
    { split; intros E; assert (String.eqb (lower (key_text k)) "n" = true) as E'
        by (apply lower_n; auto); congruence. }
    unfold named at 1. case_bool_decide as Hesc.
    { split; [done |]. intros (before & key & after & E & Hbefore & Hkey).
      destruct before as [|b before]; simplify_eq/=; [by destruct Hkey |].
      apply Forall_cons in Hbefore as [(_ & _ & _ & _ & H) _]. done. }
    rewrite IH. split.
    + intros (before & key & after & -> & Hbefore & Hkey).
      exists (k :: before), key, after. split_and!; [done | | done].
      apply Forall_cons. split; [| done]. by split_and!.
    + intros (before & key & after & E & Hbefore & Hkey).
      destruct before as [|b before]; simplify_eq/=; [by destruct Hkey |].
      apply Forall_cons in Hbefore as [_ Hbefore]. by exists before, key, after.
Qed.

(** ** InputDialog *)

Lemma length_str_take (n : nat) (s : string) :
  String.length (str_take n s) = Nat.min n (String.length s).
Proof.
  revert s. induction n as [|n IH]; intros [|c s]; simpl; try done.
  by rewrite IH.
Qed.

Lemma length_str_drop (n : nat) (s : string) :
  String.length (str_drop n s) = String.length s - n.
Proof. revert s. induction n as [|n IH]; intros [|c s]; simpl; try done. Qed.

Lemma str_take_all (s : string) : str_take (String.length s) s = s.
Proof. induction s as [|c s IH]; simpl; [done | by rewrite IH]. Qed.

Lemma str_drop_all (s : string) : str_drop (String.length s) s = EmptyString.
Proof. induction s as [|c s IH]; simpl; done. Qed.

Lemma str_take_app (n : nat) (a b : string) :
  n ≤ String.length a → str_take n (a +:+ b) = str_take n a.
Proof.
  revert a. induction n as [|n IH]; intros [|c a] Hn; simpl in *; try done; try lia.
  change (String c a +:+ b) with (String c (a +:+ b)). simpl.
  rewrite IH by lia. done.
Qed.

Lemma str_drop_app (a b : string) : str_drop (String.length a) (a +:+ b) = b.
Proof.
  induction a as [|c a IH]; simpl.
  - by destruct b.
  - change (String c a +:+ b) with (String c (a +:+ b)). done.
Qed.

Lemma str_take_drop (n : nat) (s : string) : str_take n s +:+ str_drop n s = s.
Proof.
  revert s. induction n as [|n IH]; intros [|c s]; simpl; try done.
  change (String c (str_take n s +:+ str_drop n s) = String c s). by rewrite IH.
Qed.

Lemma str_take_take (n : nat) (s : string) :
  n ≤ String.length s → String.length (str_take n s) = n.
Proof. intros Hn. rewrite length_str_take. lia. Qed.

Lemma app_string_assoc (a b c : string) : (a +:+ b) +:+ c = a +:+ (b +:+ c).
Proof.
  induction a as [|x a IH]; [done |].
  change (String x ((a +:+ b) +:+ c) = String x (a +:+ (b +:+ c))). by rewrite IH.
Qed.

Lemma app_string_empty_r (a : string) : a +:+ EmptyString = a.
Proof.
  induction a as [|x a IH]; [done |].
  change (String x (a +:+ EmptyString) = String x a). by rewrite IH.
Qed.

Lemma named_typed (n : string) (c : ascii) : named n (InputDialog.typed c) = false.
Proof. done. Qed.

Lemma InputDialog_handle_key_validator (key : Keystroke) (d d' : InputDialog.t) :
  InputDialog.handle_key key d = inl d' →
  InputDialog.validator d' = InputDialog.validator d.
Proof.
  unfold InputDialog.handle_key.
  destruct (named "KEY_ESCAPE" key); [done |].
  destruct (named "KEY_ENTER" key).
  { destruct (InputDialog.validator d) as [check|] eqn:Hv; [| done].
    destruct (check _) as [error|]; [| done].
    destruct (negb _); [| done]. intros [= <-]. by rewrite <- Hv. }
  destruct (named "KEY_BACKSPACE" key); [destruct (_ <? _); by intros [= <-] |].
  destruct (named "KEY_DELETE" key); [destruct (_ <? _); by intros [= <-] |].
  destruct (named "KEY_LEFT" key); [by intros [= <-] |].
  destruct (named "KEY_RIGHT" key); [by intros [= <-] |].
  destruct (named "KEY_HOME" key); [by intros [= <-] |].
  destruct (named "KEY_END" key); [by intros [= <-] |].
  destruct (key_text key) as [|c [|c' r]]; [by intros [= <-] | | by intros [= <-]].
  destruct (isprintable c); by intros [= <-].
Qed.

Lemma InputDialog_handle_key_cursor (key : Keystroke) (d d' : InputDialog.t) :
  InputDialog.cursor_pos d ≤ String.length (InputDialog.value d) →
  InputDialog.handle_key key d = inl d' →
  InputDialog.cursor_pos d' ≤ String.length (InputDialog.value d').
Proof.
  intros Hinv. unfold InputDialog.handle_key.
  destruct (named "KEY_ESCAPE" key); [done |].
  destruct (named "KEY_ENTER" key).
  { destruct (InputDialog.validator d) as [check|]; [| done].
    destruct (check _) as [error|]; [| done].
    destruct (negb _); [| done]. by intros [= <-]. }
  destruct (named "KEY_BACKSPACE" key).
  { destruct (Nat.ltb_spec 0 (InputDialog.cursor_pos d)); intros [= <-]; [| done].
    simpl. rewrite length_app_string, length_str_take, length_str_drop. lia. }
  destruct (named "KEY_DELETE" key).
  { destruct (Nat.ltb_spec (InputDialog.cursor_pos d)
                (String.length (InputDialog.value d))); intros [= <-]; [| done].
    simpl. rewrite length_app_string, length_str_take, length_str_drop. lia. }
  destruct (named "KEY_LEFT" key); [intros [= <-]; simpl; lia |].
  destruct (named "KEY_RIGHT" key); [intros [= <-]; simpl; lia |].
  destruct (named "KEY_HOME" key); [intros [= <-]; simpl; lia |].
  destruct (named "KEY_END" key); [intros [= <-]; simpl; lia |].
  destruct (key_text key) as [|c [|c' r]]; [by intros [= <-] | | by intros [= <-]].
  destruct (isprintable c); intros [= <-]; [| done].
  simpl. rewrite !length_app_string, length_str_take, length_str_drop. simpl. lia.
Qed.

(** X23 ([InputDialog], the cursor).  Whatever keys are pressed, and
    whatever the default and the validator, the cursor of an open
    [InputDialog] stays within the text typed so far: its position is at
    most the length of the value, so every slice the editing keys take is
    taken at a position of the value. *)
Theorem InputDialog_cursor_within_value (default : string)
    (validator : option (string → option string)) (keys : list Keystroke)
    (d : InputDialog.t) :
  InputDialog.show keys (InputDialog.__init__ default validator) = inl d →
  InputDialog.cursor_pos d ≤ String.length (InputDialog.value d).
Proof.
  assert (∀ d0, InputDialog.cursor_pos d0 ≤ String.length (InputDialog.value d0) →
                InputDialog.show keys d0 = inl d →
                InputDialog.cursor_pos d ≤ String.length (InputDialog.value d)) as Hgen.
  { induction keys as [|key keys IH]; intros d0 Hinv; simpl.
    - by intros [= <-].
    - destruct (InputDialog.handle_key key d0) as [d1|r] eqn:Hk; [| done].
      apply IH. by eapply InputDialog_handle_key_cursor. }
  apply Hgen. done.
Qed.

Lemma InputDialog_cursor_witness :
  ∃ d, InputDialog.show
         [InputDialog.typed "a"; InputDialog.backspace; InputDialog.backspace;
          {| key_name := Some "KEY_RIGHT"; key_text := "[C" |}]
         (InputDialog.__init__ "vm" None) = inl d ∧
       InputDialog.value d = "v" ∧
       InputDialog.cursor_pos d ≤ String.length (InputDialog.value d).
Proof.
  eexists. split; [reflexivity |]. split; [reflexivity |].
  apply (InputDialog_cursor_within_value "vm" None
           [InputDialog.typed "a"; InputDialog.backspace; InputDialog.backspace;
            {| key_name := Some "KEY_RIGHT"; key_text := "[C" |}]).
  reflexivity.
Defined.

(** X24 ([InputDialog] with the name validator).  An [InputDialog] built
    with the validator of the checkpoint dialog's name prompts never returns
    the empty string: [show] returns [None] on Escape, or a name of at least
    one character. *)
Theorem InputDialog_name_required (default : string) (keys : list Keystroke)
    (result : string) :
  InputDialog.show keys
    (InputDialog.__init__ default (Some InputDialog.name_required))
    = inr (Some result) →
  result ≠ EmptyString.
Proof.
  assert (∀ d0, InputDialog.validator d0 = Some InputDialog.name_required →
                InputDialog.show keys d0 = inr (Some result) →
                result ≠ EmptyString) as Hgen.
  { induction keys as [|key keys IH]; intros d0 Hv; simpl; [done |].
    destruct (InputDialog.handle_key key d0) as [d1|r] eqn:Hk.
    - apply IH. by rewrite (InputDialog_handle_key_validator _ _ _ Hk).
    - intros [= ->]. revert Hk. unfold InputDialog.handle_key.
      destruct (named "KEY_ESCAPE" key); [done |].
      destruct (named "KEY_ENTER" key).
      { rewrite Hv. unfold InputDialog.name_required.
        destruct (String.eqb_spec (InputDialog.value d0) EmptyString) as [E|E]; [done |].
        intros [= <-]. exact E. }
      destruct (named "KEY_BACKSPACE" key); [by destruct (_ <? _) |].
      destruct (named "KEY_DELETE" key); [by destruct (_ <? _) |].
      destruct (named "KEY_LEFT" key); [done |].
      destruct (named "KEY_RIGHT" key); [done |].
      destruct (named "KEY_HOME" key); [done |].
      destruct (named "KEY_END" key); [done |].
      destruct (key_text key) as [|c [|c' r]]; [done | | done].
      by destruct (isprintable c). }
  apply Hgen. done.
Qed.

Lemma InputDialog_name_required_witness :
  InputDialog.show [InputDialog.enter; InputDialog.typed "a"; InputDialog.enter]
    (InputDialog.__init__ EmptyString (Some InputDialog.name_required))
    = inr (Some "a") ∧
  "a" ≠ EmptyString.
Proof.
  split; [reflexivity |].
  apply (InputDialog_name_required EmptyString
           [InputDialog.enter; InputDialog.typed "a"; InputDialog.enter] "a").
  reflexivity.
Defined.

Lemma InputDialog_type_at_end (c : ascii) (d : InputDialog.t) :
  isprintable c = true →
  InputDialog.cursor_pos d = String.length (InputDialog.value d) →
  InputDialog.handle_key (InputDialog.typed c) d
    = inl (InputDialog.edit (InputDialog.value d +:+ String c EmptyString)
             (String.length (InputDialog.value d +:+ String c EmptyString)) d).
Proof.
  intros Hc Hpos. unfold InputDialog.handle_key.
  rewrite !named_typed. cbn [InputDialog.typed key_text]. rewrite Hc, Hpos.
  rewrite str_take_all, str_drop_all, app_string_empty_r.
  rewrite length_app_string. simpl. done.
Qed.

(** X25 ([InputDialog], typing a value).  Typing printable characters into
    a fresh [InputDialog] and pressing Enter returns the default followed by
    the characters typed, provided the validator, if there is one, accepts
    that value; the keys after Enter are not consumed. *)
Theorem InputDialog_typing (default : string)
    (validator : option (string → option string)) (cs : list ascii)
    (rest : list Keystroke) :
  Forall (fun c => isprintable c = true) cs →
  (∀ check, validator = Some check →
            check (default +:+ String.string_of_list_ascii cs) = None) →
  InputDialog.show (map InputDialog.typed cs ++ InputDialog.enter :: rest)
    (InputDialog.__init__ default validator)
    = inr (Some (default +:+ String.string_of_list_ascii cs)).
Proof.
  intros Hcs Hok.
  assert (∀ d0, InputDialog.cursor_pos d0 = String.length (InputDialog.value d0) →
                InputDialog.validator d0 = validator →
                (∀ check, validator = Some check →
                   check (InputDialog.value d0 +:+ String.string_of_list_ascii cs) = None) →
                InputDialog.show (map InputDialog.typed cs ++ InputDialog.enter :: rest) d0
                = inr (Some (InputDialog.value d0 +:+ String.string_of_list_ascii cs))) as Hgen.
  { clear Hok. induction Hcs as [|c cs Hc Hcs IH]; intros d0 Hpos Hv Hok; simpl.
    - rewrite app_string_empty_r in *.
      unfold InputDialog.handle_key. cbn. rewrite Hv.
      destruct validator as [check|]; [| done].
      by rewrite (Hok check eq_refl).
    - rewrite (InputDialog_type_at_end _ _ Hc Hpos).
      rewrite IH; cbn [InputDialog.edit InputDialog.value InputDialog.cursor_pos
                       InputDialog.validator].
      + by rewrite app_string_assoc.
      + done.
      + done.
      + intros check E. rewrite app_string_assoc. by apply Hok. }
  apply Hgen; done.
Qed.

Lemma InputDialog_typing_witness :
  InputDialog.show
    (map InputDialog.typed ["-"%char; "2"%char] ++ InputDialog.enter :: [InputDialog.backspace])
    (InputDialog.__init__ "snap" (Some InputDialog.name_required))
  = inr (Some ("snap" +:+ String.string_of_list_ascii ["-"%char; "2"%char])).
Proof.
  apply InputDialog_typing.
  - repeat constructor.
  - intros check [= <-]. reflexivity.
Defined.

(** X26 ([InputDialog], Backspace undoes a character).  In an
    [InputDialog] whose cursor is within its value, typing a printable
    character and then pressing Backspace gives back the value and the
    cursor position there were before. *)
Theorem InputDialog_backspace_undoes (c : ascii) (d : InputDialog.t) :
  isprintable c = true →
  InputDialog.cursor_pos d ≤ String.length (InputDialog.value d) →
  ∃ d1 d2,
    InputDialog.handle_key (InputDialog.typed c) d = inl d1 ∧
    InputDialog.handle_key InputDialog.backspace d1 = inl d2 ∧
    InputDialog.value d2 = InputDialog.value d ∧
    InputDialog.cursor_pos d2 = InputDialog.cursor_pos d.
Proof.
  intros Hc Hinv. eexists _, _. split_and!.
  - unfold InputDialog.handle_key. rewrite !named_typed.
    cbn [InputDialog.typed key_text]. rewrite Hc. reflexivity.
  - unfold InputDialog.handle_key.
    change (named "KEY_ESCAPE" InputDialog.backspace) with false.
    change (named "KEY_ENTER" InputDialog.backspace) with false.
    change (named "KEY_BACKSPACE" InputDialog.backspace) with true.
    cbn [InputDialog.edit InputDialog.cursor_pos InputDialog.value].
    replace (0 <? InputDialog.cursor_pos d + 1) with true
      by (symmetry; apply Nat.ltb_lt; lia).
    reflexivity.
  - cbn [InputDialog.edit InputDialog.cursor_pos InputDialog.value].
    set (p := InputDialog.cursor_pos d) in *. set (v := InputDialog.value d) in *.
    replace (p + 1 - 1) with p by lia.
    rewrite str_take_app by (rewrite length_str_take; lia).
    assert (String.length (str_take p v) = p) as Hlen by (by apply str_take_take).
    rewrite <- Hlen at 1. rewrite str_take_all.
    assert (p + 1 = String.length (str_take p v +:+ String c EmptyString)) as ->.
    { rewrite length_app_string, Hlen. simpl. lia. }
    rewrite <- app_string_assoc, str_drop_app.
    apply str_take_drop.
  - cbn [InputDialog.edit InputDialog.cursor_pos InputDialog.value]. lia.
Qed.

Lemma InputDialog_backspace_witness :
  ∃ d1 d2,
    InputDialog.handle_key (InputDialog.typed "x") (InputDialog.__init__ "vm" None)
      = inl d1 ∧
    InputDialog.handle_key InputDialog.backspace d1 = inl d2 ∧
    InputDialog.value d2 = "vm" ∧
    InputDialog.cursor_pos d2 = 2.
Proof.
  apply (InputDialog_backspace_undoes "x" (InputDialog.__init__ "vm" None)).
  - reflexivity.
  - simpl. lia.
Defined.

(** ** CheckpointDialog: the key loop *)

Lemma yields_ret {A} (a : A) (Q : A → Prop) : Q a → yields (ret a) Q.
Proof. intros Ha w w' a' [= _ <-]. done. Qed.

Lemma yields_bind {A B} (m : M A) (k : A → M B) (P : A → Prop) (Q : B → Prop) :
  yields m P → (∀ a, P a → yields (k a) Q) → yields (bind m k) Q.
Proof.
  intros Hm Hk w w' b. unfold bind.
  destruct (m w) as [w1 [a|e]] eqn:E; [| done].
  intros Hb. eapply Hk; [| exact Hb]. by eapply Hm.
Qed.

Lemma yields_any {A} (m : M A) : yields m (fun _ => True).
Proof. by intros w w' a _. Qed.

Lemma yields_mono {A} (m : M A) (P Q : A → Prop) :
  yields m P → (∀ a, P a → Q a) → yields m Q.
Proof. intros Hm HPQ w w' a E. apply HPQ. by eapply Hm. Qed.

Lemma cursor_in_list_set_status (message type : string) (d : CheckpointDialog.t) :
  cursor_in_list d → cursor_in_list (CheckpointDialog._set_status message type d).
Proof. done. Qed.

Lemma mode_cases (d : CheckpointDialog.t) :
  CheckpointDialog.mode d = "snapshot" ∨ CheckpointDialog.mode d = "checkpoint" →
  (String.eqb (CheckpointDialog.mode d) "snapshot" = true ∧
   String.eqb (CheckpointDialog.mode d) "checkpoint" = false) ∨
  (String.eqb (CheckpointDialog.mode d) "snapshot" = false ∧
   String.eqb (CheckpointDialog.mode d) "checkpoint" = true).
Proof. intros [-> | ->]; auto. Qed.

Lemma refresh_lists_cursor (cb : CheckpointDialog.callbacks) (d : CheckpointDialog.t) :
  (CheckpointDialog.mode d = "snapshot" ∨ CheckpointDialog.mode d = "checkpoint") →
  yields (CheckpointDialog._refresh_lists cb d)
    (fun d' => cursor_in_list d' ∧ CheckpointDialog.mode d' = CheckpointDialog.mode d).
Proof.
  intros Hmode. unfold CheckpointDialog._refresh_lists.
  eapply yields_bind; [apply yields_any | intros cps _].
  eapply yields_bind; [apply yields_any | intros snaps _].
  apply yields_ret. split; [| done]. split; [done |].
  unfold CheckpointDialogKeys.shown. cbn [CheckpointDialog.mode CheckpointDialog.cursor_index
    CheckpointDialog.checkpoints CheckpointDialog.snapshots].
  destruct (mode_cases d Hmode) as [[-> ->]|[-> ->]]; lia.
Qed.

(** A handler that leaves the dialog as it was, sets a status, or refreshes
    the lists keeps the cursor in the list. *)
Lemma refresh_then_status (cb : CheckpointDialog.callbacks) (message type : string)
    (d : CheckpointDialog.t) :
  cursor_in_list d →
  yields (d' <- CheckpointDialog._refresh_lists cb d ;;
          ret (CheckpointDialog._set_status message type d'))
    cursor_in_list.
Proof.
  intros [Hmode _].
  eapply yields_bind; [by apply refresh_lists_cursor | intros d' [Hd' _]].
  by apply yields_ret.
Qed.

Lemma create_checkpoint_cursor (h : CheckpointDialogKeys.handlers)
    (tm : CheckpointDialogKeys.terminal) (d : CheckpointDialog.t) :
  cursor_in_list d → yields (CheckpointDialogKeys._create_checkpoint h tm d) cursor_in_list.
Proof.
  intros Hd. unfold CheckpointDialogKeys._create_checkpoint.
  destruct (CheckpointDialogKeys.input_dialog tm _ _ _) as [name|]; [| by apply yields_ret].
  destruct (String.eqb name EmptyString); [by apply yields_ret |].
  destruct (CheckpointDialogKeys.input_dialog tm _ _ _) as [description|];
    [| by apply yields_ret].
  eapply yields_bind; [apply yields_any | intros [e|[|]] _].
  - destruct (negb _); by apply yields_ret.
  - by apply refresh_then_status.
  - by apply yields_ret.
Qed.

Lemma switch_checkpoint_cursor (h : CheckpointDialogKeys.handlers)
    (tm : CheckpointDialogKeys.terminal) (d : CheckpointDialog.t) :
  cursor_in_list d → CheckpointDialog.mode d = "checkpoint" →
  yields (CheckpointDialogKeys._switch_checkpoint h tm d) cursor_in_list.
Proof.
  intros Hd Hmode. unfold CheckpointDialogKeys._switch_checkpoint.
  destruct (CheckpointDialog.checkpoints d !! CheckpointDialog.cursor_index d)
    as [[[name created] is_active]|]; [| by apply yields_ret].
  destruct is_active; [by apply yields_ret |].
  destruct (CheckpointDialogKeys.confirm_dialog tm _ _); [| by apply yields_ret].
  eapply yields_bind; [apply yields_any | intros [|] _]; [| by apply yields_ret].
  eapply yields_bind; [apply refresh_lists_cursor; by right | intros d' [Hd' Hm']].
  apply yields_ret. apply cursor_in_list_set_status.
  destruct (list_find _ _) as [[i cp]|] eqn:Hfind; [| done].
  apply list_find_Some in Hfind as (Hi%lookup_lt_Some & _).
  destruct Hd' as [Hmode' _]. split; [done |].
  unfold CheckpointDialogKeys.shown, CheckpointDialogKeys.set_cursor.
  cbn [CheckpointDialog.mode CheckpointDialog.cursor_index
       CheckpointDialog.checkpoints CheckpointDialog.snapshots].
  rewrite Hm', Hmode. simpl. lia.
Qed.

Lemma separate_checkpoint_cursor (h : CheckpointDialogKeys.handlers)
    (tm : CheckpointDialogKeys.terminal) (d : CheckpointDialog.t) :
  cursor_in_list d →
  yields (CheckpointDialogKeys._separate_checkpoint h tm d) (fun r => cursor_in_list r.1).
Proof.
  intros Hd. unfold CheckpointDialogKeys._separate_checkpoint.
  destruct (CheckpointDialog.checkpoints d !! CheckpointDialog.cursor_index d)
    as [[[name created] is_active]|]; [| by apply yields_ret].
  destruct (CheckpointDialogKeys.input_dialog tm _ _ _) as [new_vm_name|];
    [| by apply yields_ret].
  destruct (String.eqb new_vm_name EmptyString); [by apply yields_ret |].
  destruct (negb _); [by apply yields_ret |].
  eapply yields_bind; [apply yields_any | intros [|] _]; [| by apply yields_ret].
  destruct Hd as [Hmode _].
  eapply yields_bind; [by apply refresh_lists_cursor | intros d' [Hd' _]].
  by apply yields_ret.
Qed.

Lemma create_snapshot_cursor (h : CheckpointDialogKeys.handlers)
    (tm : CheckpointDialogKeys.terminal) (d : CheckpointDialog.t) :
  cursor_in_list d → yields (CheckpointDialogKeys._create_snapshot h tm d) cursor_in_list.
Proof.
  intros Hd. unfold CheckpointDialogKeys._create_snapshot.
  destruct (CheckpointDialogKeys.input_dialog tm _ _ _) as [name|]; [| by apply yields_ret].
  destruct (String.eqb name EmptyString); [by apply yields_ret |].
  destruct (CheckpointDialogKeys.input_dialog tm _ _ _) as [description|];
    [| by apply yields_ret].
  eapply yields_bind; [apply yields_any | intros [|] _]; [| by apply yields_ret].
  by apply refresh_then_status.
Qed.

Lemma restore_snapshot_cursor (h : CheckpointDialogKeys.handlers)
    (tm : CheckpointDialogKeys.terminal) (d : CheckpointDialog.t) :
  cursor_in_list d → yields (CheckpointDialogKeys._restore_snapshot h tm d) cursor_in_list.
Proof.
  intros Hd. unfold CheckpointDialogKeys._restore_snapshot.
  destruct (CheckpointDialog.snapshots d !! CheckpointDialog.cursor_index d)
    as [[name created]|]; [| by apply yields_ret].
  destruct (CheckpointDialogKeys.confirm_dialog tm _ _); [| by apply yields_ret].
  eapply yields_bind; [apply yields_any | intros [|] _]; [| by apply yields_ret].
  by apply refresh_then_status.
Qed.

Lemma delete_snapshot_cursor (h : CheckpointDialogKeys.handlers)
    (tm : CheckpointDialogKeys.terminal) (d : CheckpointDialog.t) :
  cursor_in_list d → yields (CheckpointDialogKeys._delete_snapshot h tm d) cursor_in_list.
Proof.
  intros Hd. unfold CheckpointDialogKeys._delete_snapshot.
  destruct (CheckpointDialog.snapshots d !! CheckpointDialog.cursor_index d)
    as [[name created]|]; [| by apply yields_ret].
  destruct (CheckpointDialogKeys.confirm_dialog tm _ _); [| by apply yields_ret].
  eapply yields_bind; [apply yields_any | intros [|] _]; [| by apply yields_ret].
  by apply refresh_then_status.
Qed.

Lemma delete_checkpoint_cursor (cb : CheckpointDialog.callbacks) (confirm : bool)
    (exn_text : exn → string) (d : CheckpointDialog.t) :
  cursor_in_list d →
  yields (CheckpointDialog._delete_checkpoint cb confirm exn_text d) cursor_in_list.
Proof.
  intros Hd. unfold CheckpointDialog._delete_checkpoint.
  destruct (CheckpointDialog.checkpoints d !! CheckpointDialog.cursor_index d)
    as [[[name created] is_active]|]; [| by apply yields_ret].
  destruct is_active; [by apply yields_ret |].
  destruct (negb confirm); [by apply yields_ret |].
  eapply yields_bind; [apply yields_any | intros [e|[|]] _].
  - destruct (negb _); by apply yields_ret.
  - by apply refresh_then_status.
  - by apply yields_ret.
Qed.

Lemma handle_key_cursor (h : CheckpointDialogKeys.handlers)
    (tm : CheckpointDialogKeys.terminal) (key : Keystroke) (d : CheckpointDialog.t) :
  cursor_in_list d →
  yields (CheckpointDialogKeys.handle_key h tm key d) (fun r => cursor_in_list r.1).
Proof.
  intros Hd. pose proof Hd as [Hmode Hcursor].
  unfold CheckpointDialogKeys.handle_key.
  destruct (String.eqb (key_text key) EmptyString); [by apply yields_ret |].
  destruct (named "KEY_ESCAPE" key); [by apply yields_ret |].
  destruct (named "KEY_TAB" key).
  { apply yields_ret. split; simpl; [| lia].
    destruct (mode_cases d Hmode) as [[-> _]|[-> _]]; auto. }
  destruct (named "KEY_UP" key).
  { apply yields_ret. split; [done |].
    unfold CheckpointDialogKeys.shown in *. simpl. lia. }
  destruct (named "KEY_DOWN" key).
  { apply yields_ret. split; [done |].
    unfold CheckpointDialogKeys.shown in *. simpl.
    case_bool_decide; lia. }
  destruct (String.eqb (lower (key_text key)) "n").
  { eapply yields_bind; [| intros d' Hd'; apply yields_ret; exact Hd'].
    destruct (String.eqb _ "snapshot");
      [by apply create_snapshot_cursor | by apply create_checkpoint_cursor]. }
  destruct (named "KEY_ENTER" key).
  { eapply yields_bind; [| intros d' Hd'; apply yields_ret; exact Hd'].
    destruct (mode_cases d Hmode) as [[-> _]|[-> E]];
      [by apply restore_snapshot_cursor |].
    apply switch_checkpoint_cursor; [done |]. by apply String.eqb_eq. }
  destruct (String.eqb (lower (key_text key)) "d").
  { eapply yields_bind; [| intros d' Hd'; apply yields_ret; exact Hd'].
    destruct (String.eqb _ "snapshot");
      [by apply delete_snapshot_cursor | by apply delete_checkpoint_cursor]. }
  destruct (_ && _); [| by apply yields_ret].
  eapply yields_bind; [by apply separate_checkpoint_cursor |].
  intros r Hr. by apply yields_ret.
Qed.

Lemma show_cursor (h : CheckpointDialogKeys.handlers)
    (keys : list (CheckpointDialogKeys.terminal * Keystroke)) (d : CheckpointDialog.t) :
  cursor_in_list d →
  yields (CheckpointDialogKeys.show h keys d) (fun r => cursor_in_list r.1).
Proof.
  revert d. induction keys as [|[tm key] keys IH]; intros d Hd; simpl.
  - by apply yields_ret.
  - eapply yields_bind; [by apply handle_key_cursor | intros r Hr].
    destruct (r.2); [by apply yields_ret | by apply IH].
Qed.

(** X27 ([CheckpointDialog.show], the cursor).  Whatever keys are pressed,
    whatever the user answers in the dialogs that open and whatever the
    callbacks do and return, the dialog stays in one of its two modes and its
    cursor designates an entry of the list on display, or is at 0 when that
    list is empty: Enter, D and S always act on an entry the user sees, or on
    none. *)
Theorem CheckpointDialog_cursor_in_list (h : CheckpointDialogKeys.handlers)
    (keys : list (CheckpointDialogKeys.terminal * Keystroke)) (vm : string)
    (checkpoints : list (string * string * bool)) (snapshots : list (string * string))
    (w w' : world) (d : CheckpointDialog.t) (closed : option bool) :
  CheckpointDialogKeys.show h keys (CheckpointDialogKeys.__init__ vm checkpoints snapshots) w
    = (w', Val (d, closed)) →
  cursor_in_list d ∧
  (CheckpointDialogKeys.shown d ≠ 0 →
   CheckpointDialog.cursor_index d < CheckpointDialogKeys.shown d).
Proof.
  intros Hrun.
  assert (cursor_in_list (CheckpointDialogKeys.__init__ vm checkpoints snapshots))
    as Hinit.
  { split; [by left |]. simpl. lia. }
  pose proof (show_cursor h keys _ Hinit w w' (d, closed) Hrun) as Hd. simpl in Hd.
  split; [done |]. destruct Hd as [_ Hd]. lia.
Qed.

Lemma CheckpointDialog_cursor_witness :
  let h := app_handlers Scenario.calm (fun _ => None) no_snapshots "alpha" in
  let tm := agreeing Scenario.t0 in
  let cps := [("snap2", "2026-11-04T08:30:00", false);
              ("snap1", "2026-11-03T09:05:07", false)] in
  let d := {| CheckpointDialog.vm_name := "alpha";
              CheckpointDialog.checkpoints := cps;
              CheckpointDialog.snapshots := [];
              CheckpointDialog.mode := "checkpoint";
              CheckpointDialog.cursor_index := 1;
              CheckpointDialog.status_message := EmptyString;
              CheckpointDialog.status_type := "info" |} in
  CheckpointDialogKeys.show h [(tm, key_tab); (tm, key_down); (tm, key_down)]
    (CheckpointDialogKeys.__init__ "alpha" cps []) Scenario.w_original
    = (Scenario.w_original, Val (d, None)) ∧
  cursor_in_list d ∧
  (CheckpointDialogKeys.shown d ≠ 0 →
   CheckpointDialog.cursor_index d < CheckpointDialogKeys.shown d).
Proof.
  intros h tm cps d. split; [reflexivity |].
  apply (CheckpointDialog_cursor_in_list h
           [(tm, key_tab); (tm, key_down); (tm, key_down)] "alpha" cps []
           Scenario.w_original Scenario.w_original d None).
  reflexivity.
Defined.

(** X28 (the dialog's switch, wired as in [app.py]).  When the entry under
    the cursor is not active, the user confirms, and [switch_checkpoint]
    succeeds for a checkpoint whose metadata file carries its name, a
    handler that returns has reloaded the lists and left the cursor on the
    entry of the checkpoint switched to, now flagged active, with a success
    status.  (The VM name and the checkpoint name are single path
    components; [defineXML] reports failure by raising.) *)
Theorem CheckpointDialog_switch_moves_cursor (fromisoformat : string → option datetime)
    (e : env) (snaps : snapshot_callbacks) (tm : CheckpointDialogKeys.terminal)
    (vm name created0 : string) (d d' : CheckpointDialog.t) (w w' w'' : world)
    (m : gmap string string) :
  is_component vm = true → is_plain name = true →
  CheckpointDialog.checkpoints d !! CheckpointDialog.cursor_index d
    = Some (name, created0, false) →
  (∀ title message, CheckpointDialogKeys.confirm_dialog tm title message = true) →
  virt_define e ≠ DefineNone →
  fs w !! (checkpoint_dir_of vm // metadata_name name) = Some (File (JsonObject m)) →
  m !! "name" = Some name →
  switch_checkpoint e vm name w = (w', Val true) →
  CheckpointDialogKeys._switch_checkpoint (app_handlers e fromisoformat snaps vm) tm d w
    = (w'', Val d') →
  (∃ created,
     CheckpointDialog.checkpoints d' !! CheckpointDialog.cursor_index d'
       = Some (name, created, true)) ∧
  CheckpointDialog.status_type d' = "success" ∧
  list_checkpoints fromisoformat vm w'
    = (w', Val (CheckpointDialog.checkpoints d')).
Proof.
  intros _ _ Hsel Hyes Hdef Hmeta Hname Hrun.
  destruct (switch_checkpoint_true _ _ _ _ _ Hrun) as (Hdir & Hdom & Hpath & Hkept).
  destruct (Hkept _ _ Hmeta Hname) as (m' & Hm' & Hname').
  destruct (list_checkpoints_lists fromisoformat vm _ Hdom Hdir) as (l & Hl & Hlists).
  assert ((name, display_created fromisoformat (default EmptyString (m' !! "created")),
           true) ∈ l) as Hin.
  { apply (Hlists (metadata_name name)); [apply metadata_name_is_json |].
    rewrite (read_entry_metadata _ _ _ _ _ _ _ Hm' Hname').
    rewrite (Hpath Hdef). by rewrite bool_decide_eq_true_2. }
  unfold CheckpointDialogKeys._switch_checkpoint. rewrite Hsel, Hyes.
  unfold bind at 1. cbn [app_handlers CheckpointDialogKeys.on_switch_checkpoint].
  rewrite Hrun.
  unfold CheckpointDialog._refresh_lists, bind, ret.
  cbn [app_handlers CheckpointDialogKeys.lists app_callbacks
       CheckpointDialog.on_list_checkpoints CheckpointDialog.on_list_snapshots].
  rewrite Hl.
  destruct (wrap_list_snapshots snaps w') as [w3 [sn|ex]]; [| done].
  cbn [CheckpointDialog.checkpoints].
  destruct (list_find_elem_of
              (fun cp : string * string * bool => cp.1.1 = name ∧ cp.2 = true)
              l _ Hin) as [[i cp] Hfind]; [done |].
  rewrite Hfind.
  apply list_find_Some in Hfind as (Hi & [Hcp1 Hcp2] & _).
  destruct cp as [[n c] a]. simpl in Hcp1, Hcp2. subst n a.
  intros [= <- <-]. split_and!; [by exists c | reflexivity | reflexivity].
Qed.

Lemma CheckpointDialog_switch_witness :
  let d := {| CheckpointDialog.vm_name := "alpha";
              CheckpointDialog.checkpoints := [("snap1", "2026-11-03T09:05:07", false)];
              CheckpointDialog.snapshots := [];
              CheckpointDialog.mode := "checkpoint";
              CheckpointDialog.cursor_index := 0;
              CheckpointDialog.status_message := EmptyString;
              CheckpointDialog.status_type := "info" |} in
  let h := app_handlers Scenario.calm (fun _ => None) no_snapshots "alpha" in
  let w' := (switch_checkpoint Scenario.calm "alpha" "snap1" Scenario.w_original).1 in
  let d' := {| CheckpointDialog.vm_name := "alpha";
               CheckpointDialog.checkpoints :=
                 [("auto-20261103-090507", "2026-11-03T09:05:07", false);
                  ("snap1", "2026-11-03T09:05:07", true)];
               CheckpointDialog.snapshots := [];
               CheckpointDialog.mode := "checkpoint";
               CheckpointDialog.cursor_index := 1;
               CheckpointDialog.status_message := "Switched to checkpoint 'snap1'";
               CheckpointDialog.status_type := "success" |} in
  (∃ created,
     CheckpointDialog.checkpoints d' !! CheckpointDialog.cursor_index d'
       = Some ("snap1", created, true)) ∧
  CheckpointDialog.status_type d' = "success" ∧
  list_checkpoints (fun _ => None) "alpha" w'
    = (w', Val (CheckpointDialog.checkpoints d')).
Proof.
  intros d h w' d'.
  apply (CheckpointDialog_switch_moves_cursor (fun _ => None) Scenario.calm no_snapshots
           (agreeing Scenario.t0) "alpha" "snap1" "2026-11-03T09:05:07" d d'
           Scenario.w_original w' w' Scenario.snap1_metadata).
  - reflexivity.
  - reflexivity.
  - reflexivity.
  - reflexivity.
  - discriminate.
  - reflexivity.
  - reflexivity.
  - apply run_result. reflexivity.
  - reflexivity.
Defined.

(** X29 (the dialog's create, wired as in [app.py], name taken).  When the
    name the user enters already has a disk file in the checkpoint
    directory, [create_checkpoint] returns [False] and the handler leaves
    the dialog exactly as it was: the lists are not reloaded and no status
    message, neither success nor error, is set. *)
Theorem CheckpointDialog_create_taken_is_silent
    (fromisoformat : string → option datetime) (e : env) (snaps : snapshot_callbacks)
    (tm : CheckpointDialogKeys.terminal) (vm name description : string)
    (d : CheckpointDialog.t) (w : world) :
  CheckpointDialog.vm_name d = vm →
  CheckpointDialogKeys.input_dialog tm "Create Checkpoint" "Checkpoint name:"
    (vm +:+ "-checkpoint-" +:+ strftime_compact (CheckpointDialogKeys.now tm))
    = Some name →
  name ≠ EmptyString →
  CheckpointDialogKeys.input_dialog tm "Create Checkpoint" "Description (optional):"
    EmptyString = Some description →
  is_Some (fs w !! (checkpoint_dir_of vm // disk_file name)) →
  ∃ w', CheckpointDialogKeys._create_checkpoint
          (app_handlers e fromisoformat snaps vm) tm d w = (w', Val d) ∧
        create_checkpoint e vm name description w = (w', Val false).
Proof.
  intros Hvm Hin Hne Hdesc Htaken.
  destruct (create_checkpoint_taken e vm name description w Htaken) as [w' Hrun].
  exists w'. split; [| done].
  unfold CheckpointDialogKeys._create_checkpoint. rewrite Hvm, Hin.
  rewrite (proj2 (String.eqb_neq _ _) Hne). rewrite Hdesc.
  unfold bind, CheckpointDialog.in_background.
  cbn [app_handlers CheckpointDialogKeys.on_create_checkpoint].
  by rewrite Hrun.
Qed.

Lemma CheckpointDialog_create_taken_witness :
  let d := CheckpointDialogKeys.__init__ "alpha"
             [("snap1", "2026-11-03T09:05:07", false)] [] in
  let tm := {| CheckpointDialogKeys.now := Scenario.t0;
               CheckpointDialogKeys.input_dialog :=
                 fun _ prompt _ =>
                   Some (if String.eqb prompt "Checkpoint name:" then "snap1"
                         else "again");
               CheckpointDialogKeys.confirm_dialog := fun _ _ => true;
               CheckpointDialogKeys.str_exn := fun _ => "error" |} in
  ∃ w', CheckpointDialogKeys._create_checkpoint
          (app_handlers Scenario.calm (fun _ => None) no_snapshots "alpha") tm d
          Scenario.w_original = (w', Val d) ∧
        create_checkpoint Scenario.calm "alpha" "snap1" "again" Scenario.w_original
          = (w', Val false).
Proof.
  intros d tm.
  apply (CheckpointDialog_create_taken_is_silent (fun _ => None) Scenario.calm
           no_snapshots tm "alpha" "snap1" "again" d Scenario.w_original).
  - reflexivity.
  - reflexivity.
  - discriminate.
  - reflexivity.
  - by_compute.
Defined.
